(** * ObjToImdl: a shallow embedding of the OBJ to IMDL converter

    The development follows the layout of the converter itself:
    machine integers and failures, the floating-point interface the code
    is written against, the text streams of the parser, the scene parser
    ([ParseFaceLine], [AnalyzeObj]), the material parser ([AnalyzeMtl],
    [RegisterTexture]), the vertex consolidator ([CreateBufferData]), the
    tangent generator ([GenerateTangents]) and the chunk codec
    ([WriteChunk], [ReadChunk], [OutputImdl]). *)

From Stdlib Require Import ZArith QArith Qabs Lia Ascii String.
From Stdlib Require Strings.Byte.
From stdpp Require Import base option list gmap strings.

Local Open Scope Z_scope.
Local Open Scope string_scope.
Local Open Scope list_scope.
Local Open Scope nat_scope.

(* ===================================================================== *)
(** ** Machine integers *)
(* ===================================================================== *)

(** [static_cast<uint32_t>(x)]: reduction modulo 2^32. *)
Definition to_uint32 (z : Z) : Z := (z mod 2 ^ 32)%Z.

(** [static_cast<int>(x)] / [(int)x]: two's complement wrap to 32 bits. *)
Definition to_int (z : Z) : Z := ((z + 2 ^ 31) mod 2 ^ 32 - 2 ^ 31)%Z.

Definition is_uint32 (z : Z) : Prop := (0 <= z < 2 ^ 32)%Z.
Definition is_int (z : Z) : Prop := (- 2 ^ 31 <= z < 2 ^ 31)%Z.

(* ===================================================================== *)
(** ** Failures *)
(* ===================================================================== *)

(** The ways a call can end without returning: the exceptions the code
    throws or lets through (none is caught anywhere, so each ends the
    process), and undefined behaviour (an out-of-bounds [operator[]], or
    [back()] on an empty vector). *)
Inductive failure : Type :=
  | runtime_error (what : string)
  | invalid_argument
  | out_of_range
  | undefined_behaviour.

Inductive outcome (A : Type) : Type :=
  | Ok (a : A)
  | Fail (f : failure).
Arguments Ok {A} a.
Arguments Fail {A} f.

Global Instance outcome_bind : MBind outcome := fun A B k r =>
  match r with
  | Ok a => k a
  | Fail f => Fail f
  end.
Global Instance outcome_ret : MRet outcome := fun A a => Ok a.

(** Whether a call returned, and the value it returned. *)
Definition is_ok {A} (r : outcome A) : bool :=
  match r with
  | Ok _ => true
  | Fail _ => false
  end.
Definition returned {A} (default : A) (r : outcome A) : A :=
  match r with
  | Ok a => a
  | Fail _ => default
  end.

(** Left-to-right loop over a container with a body that may fail. *)
Fixpoint for_each {A S} (body : S -> A -> outcome S) (l : list A) (s : S)
  : outcome S :=
  match l with
  | [] => Ok s
  | x :: l' => s' ← body s x; for_each body l' s'
  end.

(** What the body of a parsing loop does next: go on with the next line,
    or [return code]. *)
Inductive flow (S : Type) : Type :=
  | Continue (s : S)
  | Return (code : Z) (s : S).
Arguments Continue {S} s.
Arguments Return {S} code%_Z s.

(** [vec[i]]: reading past the end is undefined behaviour. *)
Definition at_index {A} (vec : list A) (i : nat) : outcome A :=
  match vec !! i with
  | Some x => Ok x
  | None => Fail undefined_behaviour
  end.

(** [vec[i]] with a signed index: the index converts to [size_t], so a
    negative one is far past the end. *)
Definition at_int {A} (vec : list A) (i : Z) : outcome A :=
  if (i <? 0)%Z then Fail undefined_behaviour else at_index vec (Z.to_nat i).

(* ===================================================================== *)
(** ** The floating-point interface *)
(* ===================================================================== *)

(** The converter never inspects the bits of a [float]; it only applies
    the operations below.  Every theorem holds for any implementation of
    them, IEEE single precision included. *)
Class FloatOps := {
  float : Type;
  (** the literal [m]e[e]f, e.g. [f_lit 999 (-3)] for [0.999f] *)
  f_lit : Z -> Z -> float;
  f_add : float -> float -> float;
  f_sub : float -> float -> float;
  f_mul : float -> float -> float;
  f_div : float -> float -> float;
  f_abs : float -> float;
  f_sqrt : float -> float;
  (** [a < b] *)
  f_lt : float -> float -> bool;
  (** the four bytes [WriteRaw] copies for a [float], as a 32-bit word *)
  f_bits : float -> Z;
  (** [stream >> x] on a stream in good state: the value stored in [x],
      and the rest of the stream, or [None] when the extraction set
      failbit *)
  f_extract : string -> float * option string
}.

Record XMFLOAT2 `{FloatOps} := { x2 : float; y2 : float }.
Record XMFLOAT3 `{FloatOps} := { x3 : float; y3 : float; z3 : float }.
Record XMFLOAT4 `{FloatOps} :=
  { x4 : float; y4 : float; z4 : float; w4 : float }.

(** The DirectXMath routines the converter calls, on the three lanes
    that [XMLoadFloat3] fills and [XMStoreFloat3] writes back. *)
Class DirectXMath `{FloatOps} := {
  XMVector3Normalize : XMFLOAT3 -> XMFLOAT3;
  XMVector3Dot : XMFLOAT3 -> XMFLOAT3 -> float;
  XMVector3Cross : XMFLOAT3 -> XMFLOAT3 -> XMFLOAT3
}.

Section Floats.
Context `{FloatOps}.

Definition f_zero : float := f_lit 0 0.
Definition f_one : float := f_lit 1 0.

(** [a > b] is [b < a]. *)
Definition f_gt (a b : float) : bool := f_lt b a.

(** Lane-wise [XMVECTOR] arithmetic. *)
Definition v_add (a b : XMFLOAT3) : XMFLOAT3 :=
  {| x3 := f_add (x3 a) (x3 b); y3 := f_add (y3 a) (y3 b);
     z3 := f_add (z3 a) (z3 b) |}.
Definition v_sub (a b : XMFLOAT3) : XMFLOAT3 :=
  {| x3 := f_sub (x3 a) (x3 b); y3 := f_sub (y3 a) (y3 b);
     z3 := f_sub (z3 a) (z3 b) |}.
Definition v_scale (a : XMFLOAT3) (s : float) : XMFLOAT3 :=
  {| x3 := f_mul (x3 a) s; y3 := f_mul (y3 a) s; z3 := f_mul (z3 a) s |}.

Definition zero3 : XMFLOAT3 := {| x3 := f_zero; y3 := f_zero; z3 := f_zero |}.
End Floats.

(* ===================================================================== *)
(** ** Text streams *)
(* ===================================================================== *)

(** [std::isspace] in the C locale. *)
Definition isspace (c : ascii) : bool :=
  let n := nat_of_ascii c in
  (n =? 32) || ((9 <=? n) && (n <=? 13)).

Definition isdigit (c : ascii) : bool :=
  let n := nat_of_ascii c in (48 <=? n) && (n <=? 57).

Fixpoint skip_ws (s : string) : string :=
  match s with
  | String c r => if isspace c then skip_ws r else s
  | EmptyString => s
  end.

(** The characters up to the next white space, and what follows them. *)
Fixpoint span_word (s : string) : string * string :=
  match s with
  | String c r =>
      if isspace c then (EmptyString, s)
      else let '(w, rest) := span_word r in (String c w, rest)
  | EmptyString => (EmptyString, EmptyString)
  end.

(** [iss >> str] for a [std::string]: skips white space and reads one
    word.  At the end of the stream the extraction fails and [str] keeps
    its old value ([None]). *)
Definition extract_word (s : string) : option (string * string) :=
  match skip_ws s with
  | EmptyString => None
  | s' => Some (span_word s')
  end.

(** All the words [while (iss >> token)] sees. *)
Fixpoint words_from (cur : string) (s : string) : list string :=
  match s with
  | String c r =>
      if isspace c
      then match cur with
           | EmptyString => words_from EmptyString r
           | _ => cur :: words_from EmptyString r
           end
      else words_from (cur +:+ String c EmptyString) r
  | EmptyString =>
      match cur with
      | EmptyString => []
      | _ => [cur]
      end
  end.
Definition words (s : string) : list string := words_from EmptyString s.

(** [std::getline(stream, s, delim)]: no character left means failure;
    otherwise the characters before the delimiter, which is consumed. *)
Fixpoint span_delim (d : ascii) (s : string) : string * string :=
  match s with
  | String c r =>
      if Ascii.eqb c d then (EmptyString, r)
      else let '(w, rest) := span_delim d r in (String c w, rest)
  | EmptyString => (EmptyString, EmptyString)
  end.
Definition getline_delim (d : ascii) (s : string) : option (string * string) :=
  match s with
  | EmptyString => None
  | _ => Some (span_delim d s)
  end.

(** The value of a run of decimal digits, and whether there was one. *)
Fixpoint digits_value (acc : Z) (seen : bool) (s : string) : option Z :=
  match s with
  | String c r =>
      if isdigit c
      then digits_value (acc * 10 + Z.of_nat (nat_of_ascii c - 48))%Z true r
      else if seen then Some acc else None
  | EmptyString => if seen then Some acc else None
  end.

(** [std::stoi(s)]: leading white space, an optional sign, decimal
    digits; what follows the digits is ignored.  No digit throws
    [std::invalid_argument], a value outside [int] throws
    [std::out_of_range]. *)
Definition stoi (s : string) : outcome Z :=
  let s1 := skip_ws s in
  let '(neg, s2) :=
    match s1 with
    | String c r =>
        if Ascii.eqb c "-" then (true, r)
        else if Ascii.eqb c "+" then (false, r)
        else (false, s1)
    | EmptyString => (false, s1)
    end in
  match digits_value 0 false s2 with
  | None => Fail invalid_argument
  | Some n =>
      let z := if neg then (- n)%Z else n in
      if ((- 2 ^ 31 <=? z) && (z <? 2 ^ 31))%Z then Ok z else Fail out_of_range
  end.

(** [line.empty() || line[0] == '#']: the lines both parsers skip. *)
Definition skipped (line : string) : bool :=
  match line with
  | EmptyString => true
  | String c _ => Ascii.eqb c "#"
  end.

(* ===================================================================== *)
(** ** The scene ([struct Object] and its parts) *)
(* ===================================================================== *)

(** One corner of a face: indices into positions, texture coordinates
    and normals; [-1] stands for an absent component. *)
Record FaceIndex := { v : Z; vt : Z; vn : Z }.

Global Instance FaceIndex_eq_dec : EqDecision FaceIndex.
Proof. solve_decision. Defined.

Global Instance FaceIndex_countable : Countable FaceIndex.
Proof.
  refine (inj_countable' (fun f => (v f, vt f, vn f))
            (fun t => {| v := t.1.1; vt := t.1.2; vn := t.2 |}) _).
  intros []; reflexivity.
Defined.

(** [FaceIndex faceIndices[3]] *)
Record Face := { faceIndices : FaceIndex * FaceIndex * FaceIndex }.

Definition face_corners (f : Face) : list FaceIndex :=
  let '(a, b, c) := faceIndices f in [a; b; c].

Record SubMesh := { material : string; faces : list Face }.
Record Mesh := { subMeshs : list SubMesh }.

Record Object `{FloatOps} := {
  mtllib : string;
  positions : list XMFLOAT3;
  normals : list XMFLOAT3;
  texcoords : list XMFLOAT2;
  meshes : list Mesh
}.

(* ===================================================================== *)
(** ** SceneParser: [ParseFaceLine] and [AnalyzeObj] *)
(* ===================================================================== *)

(** The lambda [fixIndex] of [ParseFaceLine]. *)
Definition fixIndex (raw size : Z) : outcome Z :=
  if (raw >? 0)%Z then Ok (raw - 1)%Z
  else if (raw <? 0)%Z then Ok (size + raw)%Z
  else Fail (runtime_error "OBJ index cannot be zero").

(** One component after the first: an empty string leaves the field at
    its initial [-1]. *)
Definition fix_optional (s : string) (size : Z) : outcome Z :=
  match s with
  | EmptyString => Ok (-1)%Z
  | _ => raw ← stoi s; fixIndex raw size
  end.

Section SceneParser.
Context `{FloatOps}.

(** The body of [while (iss >> token)] in [ParseFaceLine]: the three
    [std::getline(tss, s, '/')] calls on one token. *)
Definition parse_token (object : Object) (token : string)
  : outcome FaceIndex :=
  match getline_delim "/" token with
  | None => Ok {| v := -1; vt := -1; vn := -1 |}
  | Some (s, tss) =>
      iv ← (raw ← stoi s;
            fixIndex raw (to_int (Z.of_nat (length (positions object)))));
      match getline_delim "/" tss with
      | None => Ok {| v := iv; vt := -1; vn := -1 |}
      | Some (s, tss) =>
          ivt ← fix_optional s
                  (to_int (Z.of_nat (length (texcoords object))));
          match getline_delim "/" tss with
          | None => Ok {| v := iv; vt := ivt; vn := -1 |}
          | Some (s, _) =>
              ivn ← fix_optional s
                      (to_int (Z.of_nat (length (normals object))));
              Ok {| v := iv; vt := ivt; vn := ivn |}
          end
      end
  end.

(** The corner tokens of a face line: what follows the leading "f". *)
Definition face_tokens (line : string) : list string :=
  match extract_word line with
  | Some (_, rest) => words rest
  | None => []
  end.

Definition ParseFaceLine (line : string) (object : Object)
  : outcome (list FaceIndex) :=
  for_each (fun result token =>
              idx ← parse_token object token; Ok (result ++ [idx]))
           (face_tokens line) [].

(** [ReadFloat3]: [val] starts at zero; after a failed extraction the
    later ones do nothing. *)
Definition ReadFloat3 (iss : string) : XMFLOAT3 :=
  let '(x, s1) := f_extract iss in
  match s1 with
  | None => {| x3 := x; y3 := f_zero; z3 := f_zero |}
  | Some s1 =>
      let '(y, s2) := f_extract s1 in
      match s2 with
      | None => {| x3 := x; y3 := y; z3 := f_zero |}
      | Some s2 => {| x3 := x; y3 := y; z3 := (f_extract s2).1 |}
      end
  end.

Definition ReadFloat2 (iss : string) : XMFLOAT2 :=
  let '(x, s1) := f_extract iss in
  match s1 with
  | None => {| x2 := x; y2 := f_zero |}
  | Some s1 => {| x2 := x; y2 := (f_extract s1).1 |}
  end.

(** In-place updates of the object. *)
Definition set_meshes (o : Object) (ms : list Mesh) : Object :=
  {| mtllib := mtllib o; positions := positions o; normals := normals o;
     texcoords := texcoords o; meshes := ms |}.
Definition push_position (o : Object) (p : XMFLOAT3) : Object :=
  {| mtllib := mtllib o; positions := positions o ++ [p];
     normals := normals o; texcoords := texcoords o; meshes := meshes o |}.
Definition push_normal (o : Object) (n : XMFLOAT3) : Object :=
  {| mtllib := mtllib o; positions := positions o;
     normals := normals o ++ [n]; texcoords := texcoords o;
     meshes := meshes o |}.
Definition push_texcoord (o : Object) (t : XMFLOAT2) : Object :=
  {| mtllib := mtllib o; positions := positions o; normals := normals o;
     texcoords := texcoords o ++ [t]; meshes := meshes o |}.
Definition set_mtllib (o : Object) (name : string) : Object :=
  {| mtllib := name; positions := positions o; normals := normals o;
     texcoords := texcoords o; meshes := meshes o |}.

(** [pFace] points at the [faces] vector of one submesh; the model
    keeps the place it points to: (mesh, submesh). *)
Definition face_target : Type := nat * nat.

(** [pFace->push_back(face)] *)
Definition push_face (p : face_target) (face : Face) (o : Object)
  : outcome Object :=
  mesh ← at_index (meshes o) p.1;
  sub ← at_index (subMeshs mesh) p.2;
  let sub' := {| material := material sub; faces := faces sub ++ [face] |} in
  Ok (set_meshes o
        (<[p.1 := {| subMeshs := <[p.2 := sub']> (subMeshs mesh) |}]>
           (meshes o))).

(** The body of the triangulation loop of [AnalyzeObj], iteration [i]:
    [Face face{ result[0], result[i + 1], result[i + 2] }] and
    [pFace->push_back(face)]. *)
Definition fan_step (p : face_target) (result : list FaceIndex)
    (o : Object) (i : nat) : outcome Object :=
  c0 ← at_index result 0;
  c1 ← at_index result (i + 1);
  c2 ← at_index result (i + 2);
  push_face p {| faceIndices := (c0, c1, c2) |} o.

(** The loop itself:
    [for (size_t i = 0; i < result.size() - 2; i++)].  With fewer than
    two corners [result.size() - 2] wraps around and the first
    iteration reads [result] past its end. *)
Definition push_fan (p : face_target) (result : list FaceIndex)
    (o : Object) : outcome Object :=
  if (length result <? 2)%nat then Fail undefined_behaviour
  else for_each (fan_step p result) (seq 0 (length result - 2)) o.

(** The local state of [AnalyzeObj]. *)
Record ObjParser := {
  object : Object;
  pFace : option face_target;
  object_name : string;
  cout : list string
}.

Definition with_object (st : ObjParser) (o : Object) : ObjParser :=
  {| object := o; pFace := pFace st; object_name := object_name st;
     cout := cout st |}.

(** The "o" branch: it is a plain [if], the chain of [else if] starts
    after it. *)
Definition declare_object (st : ObjParser) (iss : string) : ObjParser :=
  {| object := set_meshes (object st)
                 (meshes (object st) ++ [{| subMeshs := [] |}]);
     pFace := None;
     object_name := match extract_word iss with
                    | Some (name, _) => name
                    | None => object_name st
                    end;
     cout := cout st |}.

(** The "usemtl" branch. *)
Definition select_material (st : ObjParser) (iss : string)
  : outcome ObjParser :=
  match last (meshes (object st)) with
  | None => Fail undefined_behaviour
  | Some mesh =>
      let name := match extract_word iss with
                  | Some (name, _) => name
                  | None => EmptyString
                  end in
      let mi := (length (meshes (object st)) - 1)%nat in
      let mesh' :=
        {| subMeshs := subMeshs mesh ++ [{| material := name; faces := [] |}] |} in
      Ok {| object := set_meshes (object st) (<[mi := mesh']> (meshes (object st)));
            pFace := Some (mi, length (subMeshs mesh));
            object_name := object_name st;
            cout := cout st |}
  end.

(** One iteration of [while (std::getline(ifs, line))]. *)
Definition AnalyzeObj_line (st : ObjParser) (line : string)
  : outcome (flow ObjParser) :=
  if skipped line then Ok (Continue st)
  else
      let '(type, iss) := match extract_word line with
                          | Some (w, rest) => (w, rest)
                          | None => (EmptyString, EmptyString)
                          end in
      let st := if String.eqb type "o" then declare_object st iss else st in
      if String.eqb type "v" then
        Ok (Continue (with_object st (push_position (object st) (ReadFloat3 iss))))
      else if String.eqb type "vn" then
        Ok (Continue (with_object st (push_normal (object st) (ReadFloat3 iss))))
      else if String.eqb type "vt" then
        let uv := ReadFloat2 iss in
        let uv := {| x2 := x2 uv; y2 := f_sub f_one (y2 uv) |} in
        Ok (Continue (with_object st (push_texcoord (object st) uv)))
      else if String.eqb type "f" then
        match pFace st with
        | None =>
            Ok (Return 1
                  {| object := object st; pFace := pFace st;
                     object_name := object_name st;
                     cout := cout st ++
                             [object_name st +:+ " has no material assigned."] |})
        | Some p =>
            result ← ParseFaceLine line (object st);
            o ← push_fan p result (object st);
            Ok (Continue (with_object st o))
        end
      else if String.eqb type "usemtl" then
        st' ← select_material st iss; Ok (Continue st')
      else if String.eqb type "mtllib" then
        let name := match extract_word iss with
                    | Some (name, _) => name
                    | None => EmptyString
                    end in
        Ok (Continue (with_object st (set_mtllib (object st) name)))
      else Ok (Continue st).

Fixpoint AnalyzeObj_loop (lines : list string) (st : ObjParser)
  : outcome (Z * ObjParser) :=
  match lines with
  | [] => Ok (0%Z, st)
  | line :: rest =>
      next ← AnalyzeObj_line st line;
      match next with
      | Continue st' => AnalyzeObj_loop rest st'
      | Return code st' => Ok (code, st')
      end
  end.

Definition AnalyzeObj_start (object : Object) : ObjParser :=
  {| object := object; pFace := None; object_name := EmptyString;
     cout := [] |}.

(** [AnalyzeObj]: [file] is what opening [fname] gives, [None] when it
    cannot be opened, otherwise its lines. *)
Definition AnalyzeObj (file : option (list string)) (fname : string)
    (object : Object) : outcome (Z * ObjParser) :=
  match file with
  | None =>
      Ok (1%Z, {| object := object; pFace := None;
                  object_name := EmptyString;
                  cout := ["Could not open " +:+ fname] |})
  | Some lines => AnalyzeObj_loop lines (AnalyzeObj_start object)
  end.

End SceneParser.

(* ===================================================================== *)
(** ** Imdl.h: the records shared with the loader *)
(* ===================================================================== *)

Abbreviation byte := Byte.byte.

Inductive TextureType : Type := BaseColor | Normal | MetalRough | Emissive.

Global Instance TextureType_eq_dec : EqDecision TextureType.
Proof. solve_decision. Defined.

(** [static_cast<uint32_t>(tex.type)] *)
Definition TextureType_tag (t : TextureType) : Z :=
  match t with
  | BaseColor => 0
  | Normal => 1
  | MetalRough => 2
  | Emissive => 3
  end%Z.

Global Instance TextureType_countable : Countable TextureType.
Proof.
  refine (inj_countable' TextureType_tag
            (fun z => if (z =? 0)%Z then BaseColor
                      else if (z =? 1)%Z then Normal
                      else if (z =? 2)%Z then MetalRough else Emissive) _).
  intros []; reflexivity.
Defined.

Record TextureEntry := { entry_type : TextureType; entry_data : list byte }.

Record MeshInfo := { startIndex : Z; primCount : Z; materialIndex : Z }.

Record MaterialInfo `{FloatOps} := {
  diffuseColor : XMFLOAT4;
  metallicFactor : float;
  roughnessFactor : float;
  emissiveColor : XMFLOAT3;
  baseColorTexIndex : Z;
  normalTexIndex : Z;
  metalRoughTexIndex : Z;
  emissiveTexIndex : Z
}.

Record VertexPositionNormalTextureTangent `{FloatOps} := {
  position : XMFLOAT3;
  normal : XMFLOAT3;
  texcoord : XMFLOAT2;
  tangent : XMFLOAT4
}.

Abbreviation Vertex := VertexPositionNormalTextureTangent.

Record FileHeader := { magic : Z; version : Z; chunkCount : Z }.

(** A multi-character literal ['abcd']: the first character ends up in
    the most significant byte. *)
Definition multichar (a b c d : ascii) : Z :=
  (((Z.of_nat (nat_of_ascii a) * 256 + Z.of_nat (nat_of_ascii b)) * 256
    + Z.of_nat (nat_of_ascii c)) * 256 + Z.of_nat (nat_of_ascii d))%Z.

Definition CHUNK_TEXTURE : Z := multichar "T" "X" "T" "R".
Definition CHUNK_MATERIAL : Z := multichar "M" "T" "R" "L".
Definition CHUNK_MESH : Z := multichar "M" "E" "S" "H".
Definition CHUNK_VERTEX : Z := multichar "V" "E" "R" "T".
Definition CHUNK_INDEX : Z := multichar "I" "N" "D" "X".

(* ===================================================================== *)
(** ** The texture codec and the file system (external collaborators) *)
(* ===================================================================== *)

Inductive DXGI_FORMAT : Type :=
  | DXGI_FORMAT_BC7_UNORM_SRGB
  | DXGI_FORMAT_BC5_UNORM
  | DXGI_FORMAT_BC1_UNORM
  | DXGI_FORMAT_BC7_UNORM.

Definition GetFormat (t : TextureType) : DXGI_FORMAT :=
  match t with
  | BaseColor => DXGI_FORMAT_BC7_UNORM_SRGB
  | Normal => DXGI_FORMAT_BC5_UNORM
  | MetalRough => DXGI_FORMAT_BC1_UNORM
  | Emissive => DXGI_FORMAT_BC7_UNORM_SRGB
  end.

(** What the converter asks of DirectXTex and of [std::filesystem].  A
    call that reports a failing [HRESULT] gives [None]. *)
Class Platform := {
  ScratchImage : Type;
  LoadFromWICFile : string -> option ScratchImage;
  (** the image [TransformImage] leaves in [flipped] *)
  TransformImage_invertY : ScratchImage -> ScratchImage;
  GenerateMipMaps : ScratchImage -> option ScratchImage;
  (** the CPU overload of [Compress] *)
  Compress : ScratchImage -> DXGI_FORMAT -> option ScratchImage;
  (** the overload of [Compress] that takes the device *)
  Compress_device : ScratchImage -> DXGI_FORMAT -> option ScratchImage;
  SaveToDDSMemory : ScratchImage -> option (list byte);
  fs_exists : string -> bool;
  parent_path : string -> string;
  path_filename : string -> string;
  (** [a / b] on paths *)
  path_append : string -> string -> string;
  is_relative : string -> bool;
  lexically_normal : string -> string;
  (** opening a text file for reading: its lines, or [None] *)
  open_text : string -> option (list string);
  (** whether a file can be opened for writing *)
  open_output : string -> bool
}.

Section TextureRegistry.
Context `{Platform}.

(** [ConvertToDDSMemory]: [None] stands for a failing [HRESULT].  The
    result of [TransformImage] is stored in a local [hr] that nothing
    reads. *)
Definition ConvertToDDSMemory (scratch : ScratchImage) (type : TextureType)
  : option (list byte) :=
  let scratch :=
    match type with
    | Normal => TransformImage_invertY scratch
    | _ => scratch
    end in
  mipChain ← GenerateMipMaps scratch;
  let format := GetFormat type in
  compressed ←
    match type with
    | Normal => Compress mipChain DXGI_FORMAT_BC5_UNORM
    | _ => Compress_device mipChain format
    end;
  SaveToDDSMemory compressed.

(** [RegisterTexture]: the returned [int], and the two tables it
    updates in place. *)
Definition RegisterTexture (path : string) (type : TextureType)
    (textures : list TextureEntry)
    (textureIndexMap : gmap (string * TextureType) Z)
  : Z * list TextureEntry * gmap (string * TextureType) Z :=
  let key := (path, type) in
  match textureIndexMap !! key with
  | Some index => (index, textures, textureIndexMap)
  | None =>
      match LoadFromWICFile path with
      | None => ((-1)%Z, textures, textureIndexMap)
      | Some image =>
          match ConvertToDDSMemory image type with
          | None => ((-1)%Z, textures, textureIndexMap)
          | Some dds =>
              let newIndex := to_int (Z.of_nat (length textures)) in
              (newIndex,
               textures ++ [{| entry_type := type; entry_data := dds |}],
               <[key := newIndex]> textureIndexMap)
          end
      end
  end.
End TextureRegistry.

(* ===================================================================== *)
(** ** SceneParser: the material file ([AnalyzeMtl]) *)
(* ===================================================================== *)

Definition newline : ascii := ascii_of_nat 10.
Definition tab : ascii := ascii_of_nat 9.

(** [filename.erase(0, filename.find_first_not_of(" \t"))] *)
Fixpoint erase_leading_blanks (s : string) : string :=
  match s with
  | String c r =>
      if Ascii.eqb c " " || Ascii.eqb c tab then erase_leading_blanks r else s
  | EmptyString => s
  end.

(** [token[0] == '-'] *)
Definition starts_with_dash (token : string) : bool :=
  match token with
  | String c _ => Ascii.eqb c "-"
  | EmptyString => false
  end.

(** The [while (optStream >> token)] loop of [ExtractTextureFilename];
    every iteration consumes at least one character of the stream, so
    [fuel] is never exhausted when it starts at the stream's length. *)
Fixpoint skip_options (fuel : nat) (optStream : string) : string :=
  match fuel with
  | O => EmptyString
  | S fuel =>
      match extract_word optStream with
      | None => EmptyString
      | Some (token, rest) =>
          if starts_with_dash token then
            match extract_word rest with
            | None => EmptyString
            | Some (_, rest) => skip_options fuel rest
            end
          else token +:+ (span_delim newline rest).1
      end
  end.

Definition ExtractTextureFilename (iss : string) : string :=
  let rest := (span_delim newline (skip_ws iss)).1 in
  erase_leading_blanks (skip_options (String.length rest) rest).

Section MaterialParser.
Context `{FloatOps} `{Platform}.

(** The default member initialisers of [MaterialInfo]. *)
Definition MaterialInfo_default : MaterialInfo :=
  {| diffuseColor := {| x4 := f_one; y4 := f_one; z4 := f_one; w4 := f_one |};
     metallicFactor := f_zero;
     roughnessFactor := f_one;
     emissiveColor := zero3;
     baseColorTexIndex := -1;
     normalTexIndex := -1;
     metalRoughTexIndex := -1;
     emissiveTexIndex := -1 |}.

Definition set_diffuseColor (m : MaterialInfo) (c : XMFLOAT4) : MaterialInfo :=
  {| diffuseColor := c; metallicFactor := metallicFactor m;
     roughnessFactor := roughnessFactor m; emissiveColor := emissiveColor m;
     baseColorTexIndex := baseColorTexIndex m;
     normalTexIndex := normalTexIndex m;
     metalRoughTexIndex := metalRoughTexIndex m;
     emissiveTexIndex := emissiveTexIndex m |}.
Definition set_metallicFactor (m : MaterialInfo) (x : float) : MaterialInfo :=
  {| diffuseColor := diffuseColor m; metallicFactor := x;
     roughnessFactor := roughnessFactor m; emissiveColor := emissiveColor m;
     baseColorTexIndex := baseColorTexIndex m;
     normalTexIndex := normalTexIndex m;
     metalRoughTexIndex := metalRoughTexIndex m;
     emissiveTexIndex := emissiveTexIndex m |}.
Definition set_roughnessFactor (m : MaterialInfo) (x : float) : MaterialInfo :=
  {| diffuseColor := diffuseColor m; metallicFactor := metallicFactor m;
     roughnessFactor := x; emissiveColor := emissiveColor m;
     baseColorTexIndex := baseColorTexIndex m;
     normalTexIndex := normalTexIndex m;
     metalRoughTexIndex := metalRoughTexIndex m;
     emissiveTexIndex := emissiveTexIndex m |}.
Definition set_emissiveColor (m : MaterialInfo) (c : XMFLOAT3) : MaterialInfo :=
  {| diffuseColor := diffuseColor m; metallicFactor := metallicFactor m;
     roughnessFactor := roughnessFactor m; emissiveColor := c;
     baseColorTexIndex := baseColorTexIndex m;
     normalTexIndex := normalTexIndex m;
     metalRoughTexIndex := metalRoughTexIndex m;
     emissiveTexIndex := emissiveTexIndex m |}.
Definition set_baseColorTexIndex (m : MaterialInfo) (i : Z) : MaterialInfo :=
  {| diffuseColor := diffuseColor m; metallicFactor := metallicFactor m;
     roughnessFactor := roughnessFactor m; emissiveColor := emissiveColor m;
     baseColorTexIndex := i;
     normalTexIndex := normalTexIndex m;
     metalRoughTexIndex := metalRoughTexIndex m;
     emissiveTexIndex := emissiveTexIndex m |}.
Definition set_normalTexIndex (m : MaterialInfo) (i : Z) : MaterialInfo :=
  {| diffuseColor := diffuseColor m; metallicFactor := metallicFactor m;
     roughnessFactor := roughnessFactor m; emissiveColor := emissiveColor m;
     baseColorTexIndex := baseColorTexIndex m;
     normalTexIndex := i;
     metalRoughTexIndex := metalRoughTexIndex m;
     emissiveTexIndex := emissiveTexIndex m |}.

(** The state [AnalyzeMtl] works on: its three in-out arguments and its
    locals. *)
Record MtlParser := {
  materials : list MaterialInfo;
  materialIndexMap : gmap string Z;
  textures : list TextureEntry;
  textureIndexMap : gmap (string * TextureType) Z;
  m_index : Z;
  wcerr : list string
}.

Definition with_materials (st : MtlParser) (ms : list MaterialInfo) : MtlParser :=
  {| materials := ms; materialIndexMap := materialIndexMap st;
     textures := textures st; textureIndexMap := textureIndexMap st;
     m_index := m_index st; wcerr := wcerr st |}.

(** [materials.back() = f(materials.back())]; [back()] on an empty
    vector is undefined behaviour. *)
Definition update_back (st : MtlParser) (f : MaterialInfo -> MaterialInfo)
  : outcome MtlParser :=
  match last (materials st) with
  | None => Fail undefined_behaviour
  | Some m =>
      Ok (with_materials st
            (<[(length (materials st) - 1)%nat := f m]> (materials st)))
  end.

(** The "newmtl" branch. *)
Definition declare_material (st : MtlParser) (iss : string) : MtlParser :=
  let name := match extract_word iss with
              | Some (name, _) => name
              | None => EmptyString
              end in
  {| materials := materials st ++ [MaterialInfo_default];
     materialIndexMap := <[name := m_index st]> (materialIndexMap st);
     textures := textures st; textureIndexMap := textureIndexMap st;
     m_index := to_uint32 (m_index st + 1);
     wcerr := wcerr st |}.

(** The body shared by the "map_Kd" and "map_Bump" branches, which
    differ in the texture type and in the field that is assigned.
    [path] is the path of the material file. *)
Definition map_texture (path : string) (type : TextureType)
    (assign : MaterialInfo -> Z -> MaterialInfo)
    (st : MtlParser) (iss : string) : outcome (flow MtlParser) :=
  match materials st with
  | [] => Ok (Continue st)
  | _ =>
      let name := ExtractTextureFilename iss in
      match name with
      | EmptyString => Ok (Return (-1) st)
      | _ =>
          let p := name in
          let found :=
            if fs_exists p then Some p
            else
              let p := path_append (parent_path path) (path_filename p) in
              if fs_exists p then Some p else None in
          match found with
          | None =>
              let p := path_append (parent_path path) (path_filename p) in
              Ok (Return (-1)
                    {| materials := materials st;
                       materialIndexMap := materialIndexMap st;
                       textures := textures st;
                       textureIndexMap := textureIndexMap st;
                       m_index := m_index st;
                       wcerr := wcerr st ++ ["Texture not found: " +:+ p] |})
          | Some p =>
              let '(index, textures', textureIndexMap') :=
                RegisterTexture p type (textures st) (textureIndexMap st) in
              st' ← update_back
                      {| materials := materials st;
                         materialIndexMap := materialIndexMap st;
                         textures := textures';
                         textureIndexMap := textureIndexMap';
                         m_index := m_index st;
                         wcerr := wcerr st |}
                      (fun m => assign m index);
              Ok (Continue st')
          end
      end
  end.

(** One iteration of [while (std::getline(ifs, line))] in [AnalyzeMtl]. *)
Definition AnalyzeMtl_line (path : string) (st : MtlParser) (line : string)
  : outcome (flow MtlParser) :=
  if skipped line then Ok (Continue st)
  else
      let '(type, iss) := match extract_word line with
                          | Some (w, rest) => (w, rest)
                          | None => (EmptyString, EmptyString)
                          end in
      if String.eqb type "newmtl" then
        Ok (Continue (declare_material st iss))
      else if String.eqb type "Kd" then
        let color := ReadFloat3 iss in
        st' ← update_back st (fun m =>
                set_diffuseColor m
                  {| x4 := x3 color; y4 := y3 color; z4 := z3 color;
                     w4 := f_one |});
        Ok (Continue st')
      else if String.eqb type "Ks" then
        let specularColor := ReadFloat3 iss in
        st' ← update_back st (fun m =>
                set_metallicFactor m (x3 specularColor));
        Ok (Continue st')
      else if String.eqb type "Ns" then
        let Ns := (f_extract iss).1 in
        let roughness :=
          f_sub f_one (f_sqrt (f_div Ns (f_lit 1000 0))) in
        st' ← update_back st (fun m => set_roughnessFactor m roughness);
        Ok (Continue st')
      else if String.eqb type "Ke" then
        let color := ReadFloat3 iss in
        st' ← update_back st (fun m => set_emissiveColor m color);
        Ok (Continue st')
      else if String.eqb type "map_Kd" then
        map_texture path BaseColor set_baseColorTexIndex st iss
      else if String.eqb type "map_Bump" then
        map_texture path Normal set_normalTexIndex st iss
      else Ok (Continue st).

Fixpoint AnalyzeMtl_loop (path : string) (lines : list string)
    (st : MtlParser) : outcome (Z * MtlParser) :=
  match lines with
  | [] => Ok (0%Z, st)
  | line :: rest =>
      next ← AnalyzeMtl_line path st line;
      match next with
      | Continue st' => AnalyzeMtl_loop path rest st'
      | Return code st' => Ok (code, st')
      end
  end.

(** [AnalyzeMtl]: [file] is what opening [path] gives. *)
Definition AnalyzeMtl (file : option (list string)) (path : string)
    (materials : list MaterialInfo) (materialIndexMap : gmap string Z)
    (textures : list TextureEntry) : outcome (Z * MtlParser) :=
  let st := {| materials := materials;
               materialIndexMap := materialIndexMap;
               textures := textures; textureIndexMap := ∅;
               m_index := 0; wcerr := [] |} in
  match file with
  | None =>
      Ok (1%Z, {| materials := materials;
                  materialIndexMap := materialIndexMap;
                  textures := textures; textureIndexMap := ∅;
                  m_index := 0;
                  wcerr := ["Could not open " +:+ path] |})
  | Some lines => AnalyzeMtl_loop path lines st
  end.

End MaterialParser.

(* ===================================================================== *)
(** ** VertexConsolidator: [MakeVertex] and [CreateBufferData] *)
(* ===================================================================== *)

Section VertexConsolidator.
Context `{FloatOps} `{!DirectXMath}.

Definition zero4 : XMFLOAT4 :=
  {| x4 := f_zero; y4 := f_zero; z4 := f_zero; w4 := f_zero |}.

(** [MakeVertex]: value-initialised, then filled from the object.  The
    three [operator[]] reads are not range-checked. *)
Definition MakeVertex (object : Object) (face : FaceIndex)
  : outcome VertexPositionNormalTextureTangent :=
  pos ← at_int (positions object) (v face);
  nrm ← (if (vn face >=? 0)%Z
         then n ← at_int (normals object) (vn face);
              Ok (XMVector3Normalize n)
         else Ok {| x3 := f_zero; y3 := f_zero; z3 := f_one |});
  uv ← (if (vt face >=? 0)%Z
        then at_int (texcoords object) (vt face)
        else Ok {| x2 := f_zero; y2 := f_zero |});
  Ok {| position := pos; normal := nrm; texcoord := uv; tangent := zero4 |}.

(** The three output arguments of [CreateBufferData] and its local
    [indexMap]. *)
Record Consolidator := {
  indexMap : gmap FaceIndex Z;
  meshInfo : list MeshInfo;
  vertexBuffer : list VertexPositionNormalTextureTangent;
  indexBuffer : list Z
}.

(** The body of [for (int i = 0; i < 3; i++)], for [face.faceIndices[i]]. *)
Definition add_corner (object : Object) (st : Consolidator)
    (corner : FaceIndex) : outcome Consolidator :=
  match indexMap st !! corner with
  | None =>
      let newIndex := to_uint32 (Z.of_nat (length (vertexBuffer st))) in
      vertex ← MakeVertex object corner;
      Ok {| indexMap := <[corner := newIndex]> (indexMap st);
            meshInfo := meshInfo st;
            vertexBuffer := vertexBuffer st ++ [vertex];
            indexBuffer := indexBuffer st ++ [newIndex] |}
  | Some index =>
      Ok {| indexMap := indexMap st;
            meshInfo := meshInfo st;
            vertexBuffer := vertexBuffer st;
            indexBuffer := indexBuffer st ++ [index] |}
  end.

(** The body of [for (auto& face : subMesh.faces)]. *)
Definition add_face (object : Object) (st : Consolidator) (face : Face)
  : outcome Consolidator :=
  for_each (add_corner object) (face_corners face) st.

(** The body of [for (auto& subMesh : mesh.subMeshs)]. *)
Definition add_subMesh (object : Object) (materialIndexMap : gmap string Z)
    (st : Consolidator) (subMesh : SubMesh) : outcome Consolidator :=
  match materialIndexMap !! material subMesh with
  | None =>
      Fail (runtime_error ("Material not found: " +:+ material subMesh))
  | Some index =>
      let data :=
        {| startIndex := to_uint32 (Z.of_nat (length (indexBuffer st)));
           primCount := to_uint32 (Z.of_nat (length (faces subMesh)));
           materialIndex := index |} in
      for_each (add_face object) (faces subMesh)
        {| indexMap := indexMap st;
           meshInfo := meshInfo st ++ [data];
           vertexBuffer := vertexBuffer st;
           indexBuffer := indexBuffer st |}
  end.

(** The body of [for (auto& mesh : object.meshes)]. *)
Definition add_mesh (object : Object) (materialIndexMap : gmap string Z)
    (st : Consolidator) (mesh : Mesh) : outcome Consolidator :=
  for_each (add_subMesh object materialIndexMap) (subMeshs mesh) st.

(** [CreateBufferData], with its local map kept in the result.  The
    last three arguments are the output vectors as the caller hands
    them over. *)
Definition CreateBufferData_run (object : Object)
    (materialIndexMap : gmap string Z) (meshInfo0 : list MeshInfo)
    (vertexBuffer0 : list VertexPositionNormalTextureTangent)
    (indexBuffer0 : list Z) : outcome Consolidator :=
  for_each (add_mesh object materialIndexMap) (meshes object)
    {| indexMap := ∅; meshInfo := meshInfo0;
       vertexBuffer := vertexBuffer0; indexBuffer := indexBuffer0 |}.

Definition CreateBufferData (object : Object)
    (materialIndexMap : gmap string Z) (meshInfo0 : list MeshInfo)
    (vertexBuffer0 : list VertexPositionNormalTextureTangent)
    (indexBuffer0 : list Z)
  : outcome (list MeshInfo * list VertexPositionNormalTextureTangent
             * list Z) :=
  st ← CreateBufferData_run object materialIndexMap meshInfo0
         vertexBuffer0 indexBuffer0;
  Ok (meshInfo st, vertexBuffer st, indexBuffer st).

End VertexConsolidator.

(** The submeshes of a scene in encounter order, and the corners of its
    faces in draw order. *)
Definition subMeshes_of `{FloatOps} (object : Object) : list SubMesh :=
  mjoin (subMeshs <$> meshes object).
Definition subMesh_corners (subMesh : SubMesh) : list FaceIndex :=
  mjoin (face_corners <$> faces subMesh).
Definition mesh_corners (mesh : Mesh) : list FaceIndex :=
  mjoin (subMesh_corners <$> subMeshs mesh).
Definition corners_of `{FloatOps} (object : Object) : list FaceIndex :=
  mjoin (mesh_corners <$> meshes object).

(** The distinct keys of a corner list, in the order they first appear. *)
Definition see (keys : list FaceIndex) (k : FaceIndex) : list FaceIndex :=
  if decide (k ∈ keys) then keys else keys ++ [k].
Definition first_seen (corners : list FaceIndex) : list FaceIndex :=
  foldl see [] corners.

(** Every read [MakeVertex] makes for a corner is inside its array. *)
Definition in_bounds `{FloatOps} (object : Object) (corner : FaceIndex) : Prop :=
  (0 <= v corner < Z.of_nat (length (positions object)))%Z
  /\ (vn corner < Z.of_nat (length (normals object)))%Z
  /\ (vt corner < Z.of_nat (length (texcoords object)))%Z.

(* ===================================================================== *)
(** ** TangentGenerator: [GenerateTangents] *)
(* ===================================================================== *)

Section TangentGenerator.
Context `{FloatOps} `{!DirectXMath}.

(** The two local accumulators. *)
Record Accum := { tanAccum : list XMFLOAT3; bitanAccum : list XMFLOAT3 }.

(** The lambda [add]. *)
Definition add (acc : Accum) (idx : Z) (t b : XMFLOAT3) : outcome Accum :=
  ta ← at_index (tanAccum acc) (Z.to_nat idx);
  ba ← at_index (bitanAccum acc) (Z.to_nat idx);
  Ok {| tanAccum := <[Z.to_nat idx := v_add ta t]> (tanAccum acc);
        bitanAccum := <[Z.to_nat idx := v_add ba b]> (bitanAccum acc) |}.

(** The lambda [set]. *)
Definition set (acc : Accum) (idx : Z) (t b : XMFLOAT3) : outcome Accum :=
  _ ← at_index (tanAccum acc) (Z.to_nat idx);
  _ ← at_index (bitanAccum acc) (Z.to_nat idx);
  Ok {| tanAccum := <[Z.to_nat idx := t]> (tanAccum acc);
        bitanAccum := <[Z.to_nat idx := b]> (bitanAccum acc) |}.

(** The lambda [isFlatFace]. *)
Definition isFlatFace (vertices : list Vertex) (i0 i1 i2 : Z)
  : outcome bool :=
  v0 ← at_index vertices (Z.to_nat i0);
  v1 ← at_index vertices (Z.to_nat i1);
  v2 ← at_index vertices (Z.to_nat i2);
  let d01 := XMVector3Dot (normal v0) (normal v1) in
  let d12 := XMVector3Dot (normal v1) (normal v2) in
  Ok (f_gt d01 (f_lit 999 (-3)) && f_gt d12 (f_lit 999 (-3))).

(** The UV determinant of a triangle and its raw tangent and
    bitangent. *)
Definition uv_denom (v0 v1 v2 : Vertex) : float :=
  let du1 := f_sub (x2 (texcoord v1)) (x2 (texcoord v0)) in
  let dv1 := f_sub (y2 (texcoord v1)) (y2 (texcoord v0)) in
  let du2 := f_sub (x2 (texcoord v2)) (x2 (texcoord v0)) in
  let dv2 := f_sub (y2 (texcoord v2)) (y2 (texcoord v0)) in
  f_sub (f_mul du1 dv2) (f_mul du2 dv1).

Definition raw_tangent (v0 v1 v2 : Vertex) : XMFLOAT3 :=
  let dv1 := f_sub (y2 (texcoord v1)) (y2 (texcoord v0)) in
  let dv2 := f_sub (y2 (texcoord v2)) (y2 (texcoord v0)) in
  let f := f_div f_one (uv_denom v0 v1 v2) in
  let e1 := v_sub (position v1) (position v0) in
  let e2 := v_sub (position v2) (position v0) in
  v_scale (v_sub (v_scale e1 dv2) (v_scale e2 dv1)) f.

Definition raw_bitangent (v0 v1 v2 : Vertex) : XMFLOAT3 :=
  let du1 := f_sub (x2 (texcoord v1)) (x2 (texcoord v0)) in
  let du2 := f_sub (x2 (texcoord v2)) (x2 (texcoord v0)) in
  let f := f_div f_one (uv_denom v0 v1 v2) in
  let e1 := v_sub (position v1) (position v0) in
  let e2 := v_sub (position v2) (position v0) in
  v_scale (v_sub (v_scale e2 du1) (v_scale e1 du2)) f.

(** [fabs(denom) < 1e-6f] *)
Definition degenerate (v0 v1 v2 : Vertex) : bool :=
  f_lt (f_abs (uv_denom v0 v1 v2)) (f_lit 1 (-6)).

(** The body of the triangle loop for the triangle [(i0, i1, i2)]. *)
Definition triangle (vertices : list Vertex) (acc : Accum) (i0 i1 i2 : Z)
  : outcome Accum :=
  v0 ← at_index vertices (Z.to_nat i0);
  v1 ← at_index vertices (Z.to_nat i1);
  v2 ← at_index vertices (Z.to_nat i2);
  if degenerate v0 v1 v2 then Ok acc
  else
    let t := raw_tangent v0 v1 v2 in
    let b := raw_bitangent v0 v1 v2 in
    flat ← isFlatFace vertices i0 i1 i2;
    if flat : bool then
      acc ← set acc i0 t b; acc ← set acc i1 t b; set acc i2 t b
    else
      acc ← add acc i0 t b; acc ← add acc i1 t b; add acc i2 t b.

(** [for (size_t i = 0; i + 2 < indices.size(); i += 3)] *)
Fixpoint triangles (vertices : list Vertex) (indices : list Z) (acc : Accum)
  : outcome Accum :=
  match indices with
  | i0 :: i1 :: i2 :: rest =>
      acc' ← triangle vertices acc i0 i1 i2;
      triangles vertices rest acc'
  | _ => Ok acc
  end.

Definition set_tangent (vertex : Vertex) (t : XMFLOAT4) : Vertex :=
  {| position := position vertex; normal := normal vertex;
     texcoord := texcoord vertex; tangent := t |}.

(** The tangent stored for a vertex with normal [N] and accumulators
    [T] and [B]. *)
Definition final_tangent (N T B : XMFLOAT3) : XMFLOAT4 :=
  let T := XMVector3Normalize (v_sub T (v_scale N (XMVector3Dot N T))) in
  let w := if f_lt (XMVector3Dot (XMVector3Cross N T) B) f_zero
           then f_lit (-1) 0 else f_one in
  {| x4 := x3 T; y4 := y3 T; z4 := z3 T; w4 := w |}.

(** The vertex buffer as the second loop updates it in place, together
    with the list of the assignments [vertices[i].tangent = ...] made
    so far (the index written by each, oldest first). *)
Record TangentStore := {
  vertices : list Vertex;
  tangent_writes : list nat
}.

(** The body of [for (size_t i = 0; i < vertices.size(); i++)]. *)
Definition finish_vertex (acc : Accum) (st : TangentStore) (i : nat)
  : outcome TangentStore :=
  vertex ← at_index (vertices st) i;
  T ← at_index (tanAccum acc) i;
  B ← at_index (bitanAccum acc) i;
  Ok {| vertices :=
          <[i := set_tangent vertex (final_tangent (normal vertex) T B)]>
            (vertices st);
        tangent_writes := tangent_writes st ++ [i] |}.

(** [GenerateTangents]: the vertex buffer it leaves, and the tangent
    assignments it made.  [indices] is a reference to const. *)
Definition GenerateTangents (vertices : list Vertex) (indices : list Z)
  : outcome TangentStore :=
  let acc := {| tanAccum := replicate (length vertices) zero3;
                bitanAccum := replicate (length vertices) zero3 |} in
  acc ← triangles vertices indices acc;
  for_each (finish_vertex acc) (seq 0 (length vertices))
    {| vertices := vertices; tangent_writes := [] |}.

End TangentGenerator.

(* ===================================================================== *)
(** ** BinaryWriter.h *)
(* ===================================================================== *)

Definition byte_of_Z (z : Z) : byte :=
  default Byte.x00 (Byte.of_N (Z.to_N (z mod 256))).
Definition Z_of_byte (b : byte) : Z := Z.of_N (Byte.to_N b).

(** The four bytes of a 32-bit object in memory (little endian), as
    [WriteRaw(&v, sizeof(v))] copies them; a negative [int32_t] is
    stored in two's complement. *)
Definition le32 (z : Z) : list byte :=
  [byte_of_Z z; byte_of_Z (z / 2 ^ 8); byte_of_Z (z / 2 ^ 16);
   byte_of_Z (z / 2 ^ 24)].

(** The unsigned value of bytes laid out in little-endian order. *)
Fixpoint le_value (bs : list byte) : Z :=
  match bs with
  | [] => 0
  | b :: bs' => Z_of_byte b + 256 * le_value bs'
  end%Z.

(** A [BinaryWriter] is its [m_buffer]. *)
Definition WriteRaw (m_buffer : list byte) (data : list byte) : list byte :=
  m_buffer ++ data.
Definition WriteUInt32 (m_buffer : list byte) (v : Z) : list byte :=
  WriteRaw m_buffer (le32 v).
Definition WriteInt32 (m_buffer : list byte) (v : Z) : list byte :=
  WriteRaw m_buffer (le32 v).
Definition WriteFloat `{FloatOps} (m_buffer : list byte) (v : float)
  : list byte :=
  WriteRaw m_buffer (le32 (f_bits v)).
Definition WriteBytes (m_buffer : list byte) (data : list byte) : list byte :=
  WriteRaw m_buffer data.

(** [WriteVector<uint32_t>] *)
Definition WriteVector (m_buffer : list byte) (vec : list Z) : list byte :=
  let m_buffer := WriteUInt32 m_buffer (to_uint32 (Z.of_nat (length vec))) in
  match vec with
  | [] => m_buffer
  | _ => WriteRaw m_buffer (mjoin (le32 <$> vec))
  end.

(* ===================================================================== *)
(** ** ChunkCodec: the five payloads *)
(* ===================================================================== *)

Section ChunkBuilders.
Context `{FloatOps}.

Definition BuildTextureChunk (textures : list TextureEntry) : list byte :=
  foldl (fun writer tex =>
           let writer := WriteUInt32 writer (TextureType_tag (entry_type tex)) in
           let writer :=
             WriteUInt32 writer
               (to_uint32 (Z.of_nat (length (entry_data tex)))) in
           WriteBytes writer (entry_data tex))
        (WriteUInt32 [] (to_uint32 (Z.of_nat (length textures))))
        textures.

Definition SerializeMaterial (writer : list byte) (m : MaterialInfo)
  : list byte :=
  let writer := WriteFloat writer (x4 (diffuseColor m)) in
  let writer := WriteFloat writer (y4 (diffuseColor m)) in
  let writer := WriteFloat writer (z4 (diffuseColor m)) in
  let writer := WriteFloat writer (w4 (diffuseColor m)) in
  let writer := WriteFloat writer (metallicFactor m) in
  let writer := WriteFloat writer (roughnessFactor m) in
  let writer := WriteFloat writer (x3 (emissiveColor m)) in
  let writer := WriteFloat writer (y3 (emissiveColor m)) in
  let writer := WriteFloat writer (z3 (emissiveColor m)) in
  let writer := WriteInt32 writer (baseColorTexIndex m) in
  let writer := WriteInt32 writer (normalTexIndex m) in
  let writer := WriteInt32 writer (metalRoughTexIndex m) in
  WriteInt32 writer (emissiveTexIndex m).

Definition BuildMaterialChunk (materials : list MaterialInfo) : list byte :=
  foldl SerializeMaterial
        (WriteUInt32 [] (to_uint32 (Z.of_nat (length materials))))
        materials.

Definition SerializeMesh (writer : list byte) (m : MeshInfo) : list byte :=
  let writer := WriteUInt32 writer (startIndex m) in
  let writer := WriteUInt32 writer (primCount m) in
  WriteUInt32 writer (materialIndex m).

Definition BuildMeshChunk (meshes : list MeshInfo) : list byte :=
  foldl SerializeMesh
        (WriteUInt32 [] (to_uint32 (Z.of_nat (length meshes))))
        meshes.

Definition SerializeVertex (writer : list byte)
    (vertex : VertexPositionNormalTextureTangent) : list byte :=
  let writer := WriteFloat writer (x3 (position vertex)) in
  let writer := WriteFloat writer (y3 (position vertex)) in
  let writer := WriteFloat writer (z3 (position vertex)) in
  let writer := WriteFloat writer (x3 (normal vertex)) in
  let writer := WriteFloat writer (y3 (normal vertex)) in
  let writer := WriteFloat writer (z3 (normal vertex)) in
  let writer := WriteFloat writer (x2 (texcoord vertex)) in
  let writer := WriteFloat writer (y2 (texcoord vertex)) in
  let writer := WriteFloat writer (x4 (tangent vertex)) in
  let writer := WriteFloat writer (y4 (tangent vertex)) in
  let writer := WriteFloat writer (z4 (tangent vertex)) in
  WriteFloat writer (w4 (tangent vertex)).

Definition BuildVertexChunk
    (vertices : list VertexPositionNormalTextureTangent) : list byte :=
  foldl SerializeVertex
        (WriteUInt32 [] (to_uint32 (Z.of_nat (length vertices))))
        vertices.

Definition BuildIndexChunk (indices : list Z) : list byte :=
  WriteVector [] indices.
End ChunkBuilders.

(* ===================================================================== *)
(** ** ChunkIO.h *)
(* ===================================================================== *)

Record ChunkHeader := { header_type : Z; header_size : Z }.

(** The eight bytes of a [ChunkHeader] object, and the header that eight
    bytes stand for. *)
Definition ChunkHeader_bytes (header : ChunkHeader) : list byte :=
  le32 (header_type header) ++ le32 (header_size header).
Definition ChunkHeader_of_bytes (raw : list byte) : ChunkHeader :=
  {| header_type := le_value (take 4 raw);
     header_size := le_value (take 4 (drop 4 raw)) |}.

(** [WriteChunk]: [ofs] is what the file holds so far. *)
Definition WriteChunk (ofs : list byte) (type : Z) (data : list byte)
  : list byte :=
  let header := {| header_type := type;
                   header_size := to_uint32 (Z.of_nat (length data)) |} in
  ofs ++ ChunkHeader_bytes header ++ data.

(** An input file stream: the bytes not read yet and its failbit. *)
Record ifstream := { unread : list byte; failbit : bool }.

(** [ifs.read(dest, n)], with [dest] an object of [n] bytes: on a stream
    that has failed nothing is read; when fewer than [n] bytes are left
    they are all copied to the front of [dest] and failbit is set. *)
Definition ifs_read (ifs : ifstream) (n : nat) (dest : list byte)
  : ifstream * list byte :=
  if failbit ifs then (ifs, dest)
  else if (n <=? length (unread ifs))%nat then
    ({| unread := drop n (unread ifs); failbit := false |},
     take n (unread ifs) ++ drop n dest)
  else
    ({| unread := []; failbit := true |},
     unread ifs ++ drop (length (unread ifs)) dest).

(** [buffer.resize(n)]: new elements are zero. *)
Definition resize (buffer : list byte) (n : nat) : list byte :=
  take n buffer ++ replicate (n - length buffer) Byte.x00.

(** [ReadChunk]: the returned [bool], and the stream, header and buffer
    it leaves behind. *)
Definition ReadChunk (ifs : ifstream) (header : ChunkHeader)
    (buffer : list byte) : bool * ifstream * ChunkHeader * list byte :=
  let '(ifs, raw) := ifs_read ifs 8 (ChunkHeader_bytes header) in
  let header := ChunkHeader_of_bytes raw in
  if failbit ifs then (false, ifs, header, buffer)
  else
    let buffer := resize buffer (Z.to_nat (header_size header)) in
    let '(ifs, buffer) := ifs_read ifs (Z.to_nat (header_size header)) buffer in
    if failbit ifs then (false, ifs, header, buffer)
    else (true, ifs, header, buffer).

(** Reading [n] chunks one after the other with [ReadChunk], stopping at
    the first that fails: the chunks read, or [None].  The converter only
    writes containers; this is the loop a loader runs over [ReadChunk],
    with a fresh header and an empty buffer for every chunk. *)
Fixpoint read_chunks (n : nat) (ifs : ifstream)
  : option (list (ChunkHeader * list byte)) * ifstream :=
  match n with
  | O => (Some [], ifs)
  | S n =>
      let '(ok, ifs, header, buffer) :=
        ReadChunk ifs {| header_type := 0; header_size := 0 |} [] in
      if ok : bool then
        let '(chunks, ifs) := read_chunks n ifs in
        (option_map (cons (header, buffer)) chunks, ifs)
      else (None, ifs)
  end.

(* ===================================================================== *)
(** ** [OutputImdl] and [wmain] *)
(* ===================================================================== *)

Section Converter.
Context `{FloatOps} `{!DirectXMath} `{Platform}.

Definition FileHeader_bytes (h : FileHeader) : list byte :=
  le32 (magic h) ++ le32 (version h) ++ le32 (chunkCount h).

(** [OutputImdl]: the returned [int] and the bytes written to the
    file; [opened] tells whether the output file could be opened. *)
Definition OutputImdl (opened : bool) (materials : list MaterialInfo)
    (meshInfo : list MeshInfo) (textures : list TextureEntry)
    (vertexBuffer : list VertexPositionNormalTextureTangent)
    (indexBuffer : list Z) : Z * option (list byte) :=
  if negb opened then (1%Z, None)
  else
    let fileHeader :=
      {| magic := multichar "I" "M" "D" "L"; version := 1;
         chunkCount := 5 |} in
    let ofs := FileHeader_bytes fileHeader in
    let ofs := WriteChunk ofs CHUNK_TEXTURE (BuildTextureChunk textures) in
    let ofs := WriteChunk ofs CHUNK_MATERIAL (BuildMaterialChunk materials) in
    let ofs := WriteChunk ofs CHUNK_MESH (BuildMeshChunk meshInfo) in
    let ofs := WriteChunk ofs CHUNK_VERTEX (BuildVertexChunk vertexBuffer) in
    let ofs := WriteChunk ofs CHUNK_INDEX (BuildIndexChunk indexBuffer) in
    (0%Z, Some ofs).

(** [GetMaterialPath]: [None] for [false], otherwise the path left in
    [mtlPath]. *)
Definition GetMaterialPath (input mtlPath : string) : option string :=
  match mtlPath with
  | EmptyString => None
  | _ =>
      let mtlPath :=
        if is_relative mtlPath
        then path_append (parent_path input) mtlPath else mtlPath in
      let mtlPath := lexically_normal mtlPath in
      if fs_exists mtlPath then Some mtlPath else None
  end.

Definition Object_empty : Object :=
  {| mtllib := EmptyString; positions := []; normals := [];
     texcoords := []; meshes := [] |}.

(** [wmain] once [AnalyzeOption] has given the two paths: the exit
    code and the file written, if any. *)
Definition wmain (input output : string)
  : outcome (Z * option (list byte)) :=
  '(code, parsed) ← AnalyzeObj (open_text input) input Object_empty;
  if negb (code =? 0)%Z then Ok (1%Z, None)
  else
    let object := object parsed in
    match GetMaterialPath input (mtllib object) with
    | None => Ok ((-1)%Z, None)
    | Some mtl =>
        '(code, mats) ← AnalyzeMtl (open_text mtl) mtl [] ∅ [];
        if negb (code =? 0)%Z then Ok (1%Z, None)
        else
          '(meshInfo, vertexBuffer, indexBuffer) ←
            CreateBufferData (set_mtllib object mtl)
              (materialIndexMap mats) [] [] [];
          tangents ← GenerateTangents vertexBuffer indexBuffer;
          let '(code, file) :=
            OutputImdl (open_output output) (materials mats) meshInfo
              (textures mats) (vertices tangents) indexBuffer in
          if negb (code =? 0)%Z then Ok (1%Z, None) else Ok (0%Z, file)
    end.
End Converter.

(* ===================================================================== *)
(** ** Implementations of the interfaces for worked examples *)
(* ===================================================================== *)

(** Exact rational arithmetic in the place of [float].  The integer part
    of a square root stands for [sqrtf]; formatted input reads a decimal
    integer. *)
Module Exact.
Definition lit (m e : Z) : Q :=
  if (0 <=? e)%Z then inject_Z (m * 10 ^ e)
  else Qmake m (Z.to_pos (10 ^ (- e))).

Definition lt (a b : Q) : bool :=
  match Qcompare a b with
  | Lt => true
  | _ => false
  end.

Definition extract (s : string) : Q * option string :=
  match extract_word s with
  | None => (inject_Z 0, None)
  | Some (w, rest) =>
      match stoi w with
      | Ok z => (inject_Z z, Some rest)
      | Fail _ => (inject_Z 0, None)
      end
  end.

#[local] Instance ops : FloatOps := {|
  float := Q;
  f_lit := lit;
  f_add := Qplus;
  f_sub := Qminus;
  f_mul := Qmult;
  f_div := Qdiv;
  f_abs := Qabs;
  f_sqrt := fun q => inject_Z (Z.sqrt (Qnum q / Zpos (Qden q)));
  f_lt := lt;
  f_bits := fun q => Qnum q;
  f_extract := extract
|}.

Definition dot (a b : XMFLOAT3) : Q :=
  Qplus (Qplus (Qmult (x3 a) (x3 b)) (Qmult (y3 a) (y3 b)))
        (Qmult (z3 a) (z3 b)).

Definition cross (a b : XMFLOAT3) : XMFLOAT3 :=
  {| x3 := Qminus (Qmult (y3 a) (z3 b)) (Qmult (z3 a) (y3 b));
     y3 := Qminus (Qmult (z3 a) (x3 b)) (Qmult (x3 a) (z3 b));
     z3 := Qminus (Qmult (x3 a) (y3 b)) (Qmult (y3 a) (x3 b)) |}.

(** The examples only normalise axis-aligned vectors: the vector is
    divided by the sum of the magnitudes of its components. *)
Definition normalize (a : XMFLOAT3) : XMFLOAT3 :=
  let n := Qplus (Qplus (Qabs (x3 a)) (Qabs (y3 a))) (Qabs (z3 a)) in
  if Qeq_bool n (inject_Z 0) then a
  else {| x3 := Qdiv (x3 a) n; y3 := Qdiv (y3 a) n; z3 := Qdiv (z3 a) n |}.

#[local] Instance math : DirectXMath := {|
  XMVector3Normalize := normalize;
  XMVector3Dot := dot;
  XMVector3Cross := cross
|}.

(** A machine with the given text files, on which the files in
    [present] exist and those in [decodable] are images the codec
    accepts. *)
Definition platform (texts : list (string * list string))
    (present decodable : list string) : Platform := {|
  ScratchImage := string;
  LoadFromWICFile := fun p =>
    if bool_decide (p ∈ decodable) then Some p else None;
  TransformImage_invertY := fun i => i;
  GenerateMipMaps := fun i => Some i;
  Compress := fun i _ => Some i;
  Compress_device := fun i _ => Some i;
  SaveToDDSMemory := fun i => Some [Byte.x44; Byte.x44; Byte.x53];
  fs_exists := fun p => bool_decide (p ∈ present);
  parent_path := fun _ => EmptyString;
  path_filename := fun p => p;
  path_append := fun a b =>
    match a with
    | EmptyString => b
    | _ => a +:+ "/" +:+ b
    end;
  is_relative := fun _ => true;
  lexically_normal := fun p => p;
  open_text := fun p => snd <$> list_find (fun e => e.1 = p) texts
                        ≫= fun e => Some e.2;
  open_output := fun _ => true
|}.
End Exact.

(* ===================================================================== *)
(** ** Vocabulary of the statements *)
(* ===================================================================== *)

(** The three components of a corner token [v/vt/vn]. *)
Inductive component : Type := Position | TexCoord | NormalVector.

(** The literal a token carries for a component: the text between the
    slashes, when the token has that field and (for the two optional
    components) the field is not empty. *)
Definition literal (c : component) (token : string) : option string :=
  match c with
  | Position => fst <$> getline_delim "/" token
  | TexCoord =>
      '(_, tss) ← getline_delim "/" token;
      '(s, _) ← getline_delim "/" tss;
      match s with
      | EmptyString => None
      | _ => Some s
      end
  | NormalVector =>
      '(_, tss) ← getline_delim "/" token;
      '(_, tss) ← getline_delim "/" tss;
      '(s, _) ← getline_delim "/" tss;
      match s with
      | EmptyString => None
      | _ => Some s
      end
  end.

(** The array a component indexes, by its current length, and the field
    of the corner that receives the resolved index. *)
Definition array_length `{FloatOps} (c : component) (object : Object) : nat :=
  match c with
  | Position => length (positions object)
  | TexCoord => length (texcoords object)
  | NormalVector => length (normals object)
  end.

Definition field (c : component) (idx : FaceIndex) : Z :=
  match c with
  | Position => v idx
  | TexCoord => vt idx
  | NormalVector => vn idx
  end.

Definition zero_index_error : failure :=
  runtime_error "OBJ index cannot be zero".

(** The first word of a line the parsers look at; comment lines and
    empty lines have none. *)
Definition directive (line : string) : string :=
  if skipped line then EmptyString
  else match extract_word line with
       | Some (w, _) => w
       | None => EmptyString
       end.



Global Instance FaceIndex_inhabited : Inhabited FaceIndex :=
  populate {| v := -1; vt := -1; vn := -1 |}.

(** The [i]-th triangle of the fan over [corners]. *)
Definition fan_face (corners : list FaceIndex) (i : nat) : Face :=
  {| faceIndices :=
       (corners !!! 0%nat, corners !!! (i + 1)%nat, corners !!! (i + 2)%nat) |}.

(** The faces of the submesh a face target points at. *)
Definition target_faces `{FloatOps} (p : nat * nat) (object : Object)
  : option (list Face) :=
  mesh ← meshes object !! p.1;
  sub ← subMeshs mesh !! p.2;
  Some (faces sub).

(** The arrays and the material file name of two objects agree. *)
Definition same_arrays `{FloatOps} (o o' : Object) : Prop :=
  mtllib o' = mtllib o /\ positions o' = positions o
  /\ normals o' = normals o /\ texcoords o' = texcoords o.

(* ===================================================================== *)
(** ** Invariants and measures of the statements *)
(* ===================================================================== *)

Section Statements.
Context `{FloatOps} `{!DirectXMath} `{Platform}.

(** [pFace] never dangles: when it is set it points at a submesh of
    the object. *)
Definition target_valid (st : ObjParser) : Prop :=
  forall p, pFace st = Some p -> is_Some (target_faces p (object st)).

(** What the consolidator state says once the corners [cs] have been
    consumed, with [keys] their distinct keys in first-seen order: one
    vertex per key, made from that key; the map sends each key to the
    (32-bit) position of its vertex; the index buffer holds, corner by
    corner, the position of the corner's key. *)
Definition consolidated (object : Object) (cs : list FaceIndex)
    (st : Consolidator) : Prop :=
  let keys := first_seen cs in
  length (vertexBuffer st) = length keys
  /\ (forall k i, indexMap st !! k = Some i <->
        exists j, keys !! j = Some k /\ i = to_uint32 (Z.of_nat j))
  /\ (forall j k, keys !! j = Some k ->
        exists vertex, vertexBuffer st !! j = Some vertex
                       /\ MakeVertex object k = Ok vertex)
  /\ Forall2 (fun c i => exists j, keys !! j = Some c
                                   /\ i = to_uint32 (Z.of_nat j))
             cs (indexBuffer st).

(** Every index of the name map points into the material table, and
    so does the next index to hand out, at most one past its end. *)
Definition indices_in_table (st : MtlParser) : Prop :=
  (0 <= m_index st <= Z.of_nat (length (materials st)))%Z
  /\ forall name index, materialIndexMap st !! name = Some index ->
       (0 <= index < Z.of_nat (length (materials st)))%Z.

(** The record written for a submesh. *)
Definition record_of (materialIndexMap : gmap string Z) (subMesh : SubMesh)
    (r : MeshInfo) : Prop :=
  materialIndexMap !! material subMesh = Some (materialIndex r)
  /\ primCount r = to_uint32 (Z.of_nat (length (faces subMesh))).

(** The triangles of a record lie inside an index buffer of the given
    length. *)
Definition record_in_buffer (len : nat) (r : MeshInfo) : Prop :=
  (0 <= startIndex r /\ 0 <= primCount r
   /\ startIndex r + primCount r * 3 <= Z.of_nat len)%Z.

(** The state once the submeshes [subs] have been consumed. *)
Definition recorded (materialIndexMap : gmap string Z) (subs : list SubMesh)
    (st : Consolidator) : Prop :=
  Forall2 (record_of materialIndexMap) subs (meshInfo st)
  /\ Forall (record_in_buffer (length (indexBuffer st))) (meshInfo st).

(** The flat test on the normals of the three vertices. *)
Definition flat_normals (v0 v1 v2 : Vertex) : bool :=
  f_gt (XMVector3Dot (normal v0) (normal v1)) (f_lit 999 (-3))
  && f_gt (XMVector3Dot (normal v1) (normal v2)) (f_lit 999 (-3)).


(** Both accumulators have one entry per vertex. *)
Definition accum_sized (n : nat) (acc : Accum) : Prop :=
  length (tanAccum acc) = n /\ length (bitanAccum acc) = n.

(** The vertex the second loop leaves at position [j]. *)
Definition finished (acc : Accum) (j : nat) (vertex : Vertex) : Vertex :=
  set_tangent vertex
    (final_tangent (normal vertex)
       (default zero3 (tanAccum acc !! j))
       (default zero3 (bitanAccum acc !! j))).

(** The bytes [WriteChunk] appends for a chunk. *)
Definition chunk_bytes (type : Z) (data : list byte) : list byte :=
  le32 type ++ le32 (to_uint32 (Z.of_nat (length data))) ++ data.

(** A stream in good state over the given bytes. *)
Definition stream_of (bytes : list byte) : ifstream :=
  {| unread := bytes; failbit := false |}.

(** The size field of a chunk header at the front of the bytes. *)
Definition declared_size (bytes : list byte) : nat :=
  Z.to_nat (le_value (take 4 (drop 4 bytes))).

(** Chunks as (type, payload) pairs, their bytes, what reading them
    gives, and when they fit the 32-bit fields of the header. *)
Definition encode_chunks (chunks : list (Z * list byte)) : list byte :=
  mjoin ((fun c => chunk_bytes c.1 c.2) <$> chunks).
Definition decoded_chunks (chunks : list (Z * list byte))
  : list (ChunkHeader * list byte) :=
  (fun c => ({| header_type := c.1;
                header_size := Z.of_nat (length c.2) |}, c.2)) <$> chunks.
Definition chunk_fits (c : Z * list byte) : Prop :=
  is_uint32 c.1 /\ (Z.of_nat (length c.2) < 2 ^ 32)%Z.

(** The five chunks [OutputImdl] writes, in the order it writes
    them. *)
Definition container_chunks (materials : list MaterialInfo)
    (meshInfo : list MeshInfo) (textures : list TextureEntry)
    (vertexBuffer : list Vertex) (indexBuffer : list Z)
  : list (Z * list byte) :=
  [(CHUNK_TEXTURE, BuildTextureChunk textures);
   (CHUNK_MATERIAL, BuildMaterialChunk materials);
   (CHUNK_MESH, BuildMeshChunk meshInfo);
   (CHUNK_VERTEX, BuildVertexChunk vertexBuffer);
   (CHUNK_INDEX, BuildIndexChunk indexBuffer)].

(** The value of bytes read as a big-endian number. *)
Definition be_value (bs : list byte) : Z :=
  foldl (fun acc b => acc * 256 + Z_of_byte b)%Z 0%Z bs.


(** The codec refuses a file: it cannot be loaded, or cannot be
    converted. *)
Definition codec_fails (p : string) (type : TextureType) : Prop :=
  LoadFromWICFile p = None
  \/ exists image, LoadFromWICFile p = Some image
                   /\ ConvertToDDSMemory image type = None.
End Statements.

(* ===================================================================== *)
(** ** Worked examples: a fan of four triangles *)
(* ===================================================================== *)

Module Examples.
#[local] Existing Instance Exact.ops.
#[local] Existing Instance Exact.math.

(** A fan of four triangles around one shared vertex, as an OBJ file
    and its material file. *)
Definition fan_obj : list string :=
  ["# four triangles around vertex 1";
   "mtllib fan.mtl";
   "o Fan";
   "v 0 0 0"; "v 1 0 0"; "v 0 1 0"; "v -1 0 0"; "v 0 -1 0";
   "vt 0 0"; "vt 1 0"; "vt 0 1";
   "vn 0 0 1";
   "usemtl red";
   "f 1/1/1 2/2/1 3/3/1";
   "f 1/1/1 3/2/1 4/3/1";
   "f 1/1/1 4/2/1 5/3/1";
   "f 1/1/1 5/2/1 2/3/1"].

Definition fan_mtl : list string :=
  ["newmtl red"; "Kd 1 0 0"; "Ks 0 0 0"; "Ke 0 0 0"].

Definition fan_platform : Platform :=
  Exact.platform [("fan.obj", fan_obj); ("fan.mtl", fan_mtl)] ["fan.mtl"] [].
#[local] Existing Instance fan_platform.

Definition fan_parser : ObjParser :=
  (returned (0%Z, AnalyzeObj_start Object_empty)
     (AnalyzeObj_loop fan_obj (AnalyzeObj_start Object_empty))).2.

Definition fan_object : Object := object fan_parser.

Definition MtlParser_empty : MtlParser :=
  {| materials := []; materialIndexMap := ∅; textures := [];
     textureIndexMap := ∅; m_index := 0; wcerr := [] |}.

Definition fan_materials : MtlParser :=
  (returned (0%Z, MtlParser_empty)
     (AnalyzeMtl (Some fan_mtl) "fan.mtl" [] ∅ [])).2.

Definition Consolidator_empty : Consolidator :=
  {| indexMap := ∅; meshInfo := []; vertexBuffer := [];
     indexBuffer := [] |}.

Definition fan_consolidator : Consolidator :=
  returned Consolidator_empty
    (CreateBufferData_run fan_object (materialIndexMap fan_materials)
       [] [] []).

Definition fan_tangents : TangentStore :=
  returned {| vertices := []; tangent_writes := [] |}
    (GenerateTangents (vertexBuffer fan_consolidator)
       (indexBuffer fan_consolidator)).

(** The same scene with a base colour texture that exists on disk but
    that the codec cannot read. *)
Definition wood_mtl : list string :=
  ["newmtl red"; "Kd 1 0 0"; "map_Kd wood.tga"].

Definition wood_platform : Platform :=
  Exact.platform [("fan.obj", fan_obj); ("fan.mtl", wood_mtl)]
    ["fan.mtl"; "wood.tga"] [].

(** And with a texture that is not on disk at all. *)
Definition lost_platform : Platform :=
  Exact.platform [("fan.obj", fan_obj); ("fan.mtl", wood_mtl)]
    ["fan.mtl"] [].

(** The parser after the object, its vertices and the material
    selection, in front of the first face line. *)
Definition before_faces : ObjParser :=
  (returned (0%Z, AnalyzeObj_start Object_empty)
     (AnalyzeObj_loop (take 13 fan_obj) (AnalyzeObj_start Object_empty))).2.

Definition quad_corners : list FaceIndex :=
  [{| v := 1; vt := -1; vn := -1 |}; {| v := 2; vt := -1; vn := -1 |};
   {| v := 3; vt := -1; vn := -1 |}; {| v := 4; vt := -1; vn := -1 |}].



(** The container of the fan. *)
Definition fan_chunks : list (Z * list byte) :=
  container_chunks (materials fan_materials) (meshInfo fan_consolidator)
    (textures fan_materials) (vertices fan_tangents)
    (indexBuffer fan_consolidator).
Definition fan_file : list byte :=
  default []
    (OutputImdl true (materials fan_materials) (meshInfo fan_consolidator)
       (textures fan_materials) (vertices fan_tangents)
       (indexBuffer fan_consolidator)).2.
End Examples.

(* ===================================================================== *)
(** ** Further vocabulary of the statements *)
(* ===================================================================== *)

(** The directives [AnalyzeObj] acts on, and whether a line carries one
    of them. *)
Definition obj_directives : list string :=
  ["o"; "v"; "vn"; "vt"; "f"; "usemtl"; "mtllib"].
Definition acts_on (line : string) : bool :=
  bool_decide (directive line ∈ obj_directives).

(** How many of the lines carry the directive [d]. *)
Definition count_directive (d : string) (lines : list string) : nat :=
  length (filter (fun line => directive line = d) lines).

(** What follows the directive on a line (the stream the handler of the
    directive reads from), and the first word of it. *)
Definition operands (line : string) : string :=
  match extract_word line with
  | Some (_, rest) => rest
  | None => EmptyString
  end.
Definition first_operand (line : string) : string :=
  match extract_word (operands line) with
  | Some (w, _) => w
  | None => EmptyString
  end.

(** The names the "newmtl" lines declare, in file order. *)
Definition declared_materials (lines : list string) : list string :=
  first_operand <$> filter (fun line => directive line = "newmtl") lines.

(** A texture slot of a material is either absent ([-1]) or the
    position of a texture of the given type. *)
Definition slot_in_table (textures : list TextureEntry) (type : TextureType)
    (i : Z) : Prop :=
  i = (-1)%Z
  \/ ((0 <= i)%Z
      /\ exists e, textures !! Z.to_nat i = Some e /\ entry_type e = type).

(** The four texture slots of a material against a texture table: the
    two slots the parser fills designate textures of their type, the
    other two are never assigned. *)
Definition material_slots `{FloatOps} (textures : list TextureEntry)
    (m : MaterialInfo) : Prop :=
  slot_in_table textures BaseColor (baseColorTexIndex m)
  /\ slot_in_table textures Normal (normalTexIndex m)
  /\ metalRoughTexIndex m = (-1)%Z
  /\ emissiveTexIndex m = (-1)%Z.

(** The texture tables of the material parser agree: every index of the
    registration map designates a texture of the key's type, and so do
    the slots of the materials. *)
Definition textures_consistent `{FloatOps} (st : MtlParser) : Prop :=
  (forall p t i, textureIndexMap st !! (p, t) = Some i ->
     slot_in_table (textures st) t i /\ i <> (-1)%Z)
  /\ Forall (material_slots (textures st)) (materials st).

(** [names !! j] is the last entry of the list that holds [name]. *)
Definition last_declared (names : list string) (name : string) (j : nat)
  : Prop :=
  names !! j = Some name /\ forall k, j < k -> names !! k <> Some name.

(** The name map of the material parser after the declarations
    [names]. *)
Definition names_indexed `{FloatOps} (names : list string) (st : MtlParser)
  : Prop :=
  length (materials st) = length names
  /\ m_index st = Z.of_nat (length names)
  /\ forall name i, materialIndexMap st !! name = Some i <->
       exists j, i = Z.of_nat j /\ last_declared names name j.

(** The indices that make up whole triangles: the longest prefix whose
    length is a multiple of three. *)
Definition whole_triangles (indices : list Z) : list Z :=
  take (3 * (length indices / 3)) indices.

(** The bytes of one texture in the texture chunk. *)
Definition texture_record (tex : TextureEntry) : list byte :=
  le32 (TextureType_tag (entry_type tex))
  ++ le32 (to_uint32 (Z.of_nat (length (entry_data tex))))
  ++ entry_data tex.

(** Strings made of white space only, strings without white space, and
    strings without a line break. *)
Fixpoint all_space (s : string) : bool :=
  match s with
  | EmptyString => true
  | String c r => isspace c && all_space r
  end.
Fixpoint no_space (s : string) : bool :=
  match s with
  | EmptyString => true
  | String c r => negb (isspace c) && no_space r
  end.
Fixpoint no_newline (s : string) : bool :=
  match s with
  | EmptyString => true
  | String c r => negb (Ascii.eqb c newline) && no_newline r
  end.

(** A word as [stream >> token] reads it: not empty, no white space. *)
Definition is_word (s : string) : Prop :=
  s <> EmptyString /\ no_space s = true.

(** What may follow a word on a stream: nothing, or white space first. *)
Definition blank_led (s : string) : Prop :=
  match s with
  | EmptyString => True
  | String c _ => isspace c = true
  end.

(** The text of a texture line behind its directive: option flags with
    one value each, separated by blanks, in front of the file name. *)
Definition with_options (opts : list (string * string)) (name : string)
  : string :=
  foldr (fun o rest => o.1 +:+ String " " (o.2 +:+ String " " rest)) name opts.

(** The tables of a container fit together: every mesh record
    designates a range of the index buffer and an existing material,
    the index buffer holds whole triangles, every index designates a
    vertex when the vertex buffer has at most 2^32 entries, and every
    texture slot is absent or designates a texture of its type when
    the texture table has fewer than 2^31 entries. *)
Definition tables_consistent `{FloatOps} (materials : list MaterialInfo)
    (meshInfo : list MeshInfo) (textures : list TextureEntry)
    (vertexBuffer : list Vertex) (indexBuffer : list Z) : Prop :=
  Forall (fun r =>
            (0 <= startIndex r)%Z
            /\ (startIndex r + primCount r * 3
                <= Z.of_nat (length indexBuffer))%Z
            /\ (0 <= materialIndex r < Z.of_nat (length materials))%Z)
         meshInfo
  /\ (exists n, length indexBuffer = 3 * n)
  /\ ((Z.of_nat (length vertexBuffer) <= 2 ^ 32)%Z ->
      Forall (fun i => (0 <= i < Z.of_nat (length vertexBuffer))%Z)
             indexBuffer)
  /\ ((Z.of_nat (length textures) < 2 ^ 31)%Z ->
      Forall (material_slots textures) materials).

(** The number of triangles of a list of submeshes. *)
Definition face_count (subs : list SubMesh) : nat :=
  sum_list_with (fun s => length (faces s)) subs.

(** The mesh records of the consolidator after the submeshes [subs],
    when their triangles fit a 32-bit index: record [i] starts where
    the triangles of the submeshes before it end, and counts the
    triangles of submesh [i]. *)
Definition tiled `{FloatOps} (subs : list SubMesh) (st : Consolidator)
  : Prop :=
  length (indexBuffer st) = 3 * face_count subs
  /\ ((Z.of_nat (3 * face_count subs) < 2 ^ 32)%Z ->
      length (meshInfo st) = length subs
      /\ forall i r, meshInfo st !! i = Some r ->
           exists s, subs !! i = Some s
             /\ startIndex r = Z.of_nat (3 * face_count (take i subs))
             /\ primCount r = Z.of_nat (length (faces s))).

(** The material names the "usemtl" lines select, in file order. *)
Definition selected_materials (lines : list string) : list string :=
  first_operand <$> filter (fun line => directive line = "usemtl") lines.

(* ===================================================================== *)
(** ** Further worked examples *)
(* ===================================================================== *)

Module Cases.
Import Examples.
#[local] Existing Instance Exact.ops.
#[local] Existing Instance Exact.math.
#[local] Existing Instance fan_platform.

(** An OBJ file without an "o" line, up to its first "usemtl". *)
Definition groupless_obj : list string := ["v 0 0 0"; "v 1 0 0"].
Definition groupless_parser : ObjParser :=
  (returned (0%Z, AnalyzeObj_start Object_empty)
     (AnalyzeObj_loop groupless_obj (AnalyzeObj_start Object_empty))).2.

(** A machine on which the texture of the wood example can be
    decoded, and what the material parser leaves there. *)
Definition oak_platform : Platform :=
  Exact.platform [("fan.obj", fan_obj); ("fan.mtl", wood_mtl)]
    ["fan.mtl"; "wood.tga"] ["wood.tga"].
Definition oak_materials : MtlParser :=
  (returned (0%Z, MtlParser_empty)
     (@AnalyzeMtl Exact.ops oak_platform (Some wood_mtl) "fan.mtl"
        [] ∅ [])).2.

(** The material parser after "newmtl red". *)
Definition red_declared : MtlParser :=
  {| materials := [MaterialInfo_default];
     materialIndexMap := {["red" := 0%Z]};
     textures := []; textureIndexMap := ∅; m_index := 1; wcerr := [] |}.

(** A material file that declares the name "a" twice. *)
Definition twice_mtl : list string :=
  ["newmtl a"; "Kd 1 0 0"; "newmtl b"; "newmtl a"; "Kd 0 0 1"].
Definition twice_materials : MtlParser :=
  (returned (0%Z, MtlParser_empty)
     (AnalyzeMtl (Some twice_mtl) "twice.mtl" [] ∅ [])).2.
End Cases.

(* ===================================================================== *)
(** * Theorems *)
(* ===================================================================== *)

(* ===================================================================== *)
(** The lemmas follow the order of the pipeline. *)
(* ===================================================================== *)

(** ** Machine integers *)

Lemma to_uint32_range z : is_uint32 (to_uint32 z).
Proof. unfold is_uint32, to_uint32. apply Z.mod_pos_bound. lia. Qed.

Lemma to_uint32_small z : is_uint32 z -> to_uint32 z = z.
Proof. unfold is_uint32, to_uint32. intros. apply Z.mod_small. lia. Qed.

Lemma to_uint32_le z : (0 <= z)%Z -> (to_uint32 z <= z)%Z.
Proof. unfold to_uint32. intros. apply Z.mod_le; lia. Qed.

Lemma to_int_small z : is_int z -> to_int z = z.
Proof.
  unfold is_int, to_int. intros.
  rewrite Z.mod_small; lia.
Qed.

Lemma to_int_length (n : nat) :
  (Z.of_nat n < 2 ^ 31)%Z -> to_int (Z.of_nat n) = Z.of_nat n.
Proof. intros. apply to_int_small. unfold is_int. lia. Qed.

(** ** The failure monad and its loops *)

Lemma bind_Ok {A B} (r : outcome A) (k : A -> outcome B) b :
  r ≫= k = Ok b -> exists a, r = Ok a /\ k a = Ok b.
Proof. destruct r as [a|f]; simpl; [eauto | discriminate]. Qed.

Lemma for_each_app {A S} (body : S -> A -> outcome S) l1 l2 s :
  for_each body (l1 ++ l2) s = for_each body l1 s ≫= for_each body l2.
Proof.
  revert s. induction l1 as [|x l1 IH]; intros s; simpl; [done|].
  destruct (body s x) as [s'|f]; simpl; [apply IH | done].
Qed.

(** A property kept by the body is kept by the loop. *)
Lemma for_each_invariant {A S} (P : S -> Prop) (body : S -> A -> outcome S) l :
  (forall s x s', P s -> body s x = Ok s' -> P s') ->
  forall s s', P s -> for_each body l s = Ok s' -> P s'.
Proof.
  intros Hbody. induction l as [|x l IH]; intros s s' Hs Hrun; simpl in Hrun.
  - congruence.
  - apply bind_Ok in Hrun as (s1 & H1 & H2). eauto.
Qed.

(** A failing iteration fails the loop. *)
Lemma for_each_fail {A S} (body : S -> A -> outcome S) l x s :
  x ∈ l -> (forall s, exists f, body s x = Fail f) ->
  exists f, for_each body l s = Fail f.
Proof.
  intros Hin Hx. revert s.
  induction l as [|y l IH]; intros s; [by apply elem_of_nil in Hin|].
  simpl. apply elem_of_cons in Hin as [->|Hin].
  - destruct (Hx s) as [f ->]. simpl. eauto.
  - destruct (body s y) as [s'|f]; simpl; eauto.
Qed.

(** ** Index resolution *)

Lemma fixIndex_positive raw size :
  (0 < raw)%Z -> fixIndex raw size = Ok (raw - 1)%Z.
Proof.
  intros Hraw. unfold fixIndex.
  destruct (Z.gtb_spec raw 0); [done | lia].
Qed.

Lemma fixIndex_negative raw size :
  (raw < 0)%Z -> fixIndex raw size = Ok (size + raw)%Z.
Proof.
  intros Hraw. unfold fixIndex.
  destruct (Z.gtb_spec raw 0); [lia|].
  destruct (Z.ltb_spec raw 0); [done | lia].
Qed.

Lemma fixIndex_zero size : fixIndex 0 size = Fail zero_index_error.
Proof. reflexivity. Qed.

Lemma fixIndex_Ok raw size i :
  fixIndex raw size = Ok i ->
  raw <> 0%Z /\ ((0 < raw)%Z -> i = (raw - 1)%Z)
  /\ ((raw < 0)%Z -> i = (size + raw)%Z).
Proof.
  intros Hfix. destruct (Z.lt_trichotomy raw 0) as [Hneg|[->|Hpos]].
  - rewrite fixIndex_negative in Hfix by done. split; [lia|].
    split; [lia | congruence].
  - discriminate.
  - rewrite fixIndex_positive in Hfix by done. split; [lia|].
    split; [congruence | lia].
Qed.

(** The resolved index of an in-range literal is an [int]: neither
    branch overflows. *)
Lemma fixIndex_is_int raw size i :
  is_int raw -> (0 <= size < 2 ^ 31)%Z -> fixIndex raw size = Ok i -> is_int i.
Proof.
  unfold is_int. intros Hraw Hsize Hfix.
  apply fixIndex_Ok in Hfix as (Hne & Hpos & Hneg).
  destruct (Z.lt_trichotomy raw 0) as [?|[?|?]]; [|done|].
  - rewrite Hneg by done. lia.
  - rewrite Hpos by done. lia.
Qed.

(** Evaluate the [getline] calls of a [literal] with the equations at
    hand. *)
Ltac step_literal H :=
  repeat match goal with
         | E : getline_delim _ _ = _ |- _ => rewrite E in H; simpl in H
         end.

Section SceneParserFacts.
Context `{FloatOps}.

Lemma fix_optional_Ok s size i :
  fix_optional s size = Ok i ->
  match s with
  | EmptyString => i = (-1)%Z
  | _ => exists n, stoi s = Ok n /\ fixIndex n size = Ok i
  end.
Proof.
  destruct s as [|c s]; simpl.
  - congruence.
  - intros Hfix. apply bind_Ok in Hfix as (n & Hn & Hi). eauto.
Qed.

(** What a successful [parse_token] did with the literals of its
    token. *)
Lemma parse_token_Ok (object : Object) token idx c s :
  parse_token object token = Ok idx ->
  literal c token = Some s ->
  exists n, stoi s = Ok n
    /\ fixIndex n (to_int (Z.of_nat (array_length c object))) = Ok (field c idx).
Proof.
  unfold parse_token. intros Hparse Hlit.
  destruct (getline_delim "/" token) as [[s1 t1]|] eqn:H1;
    [|destruct c; simpl in Hlit; by rewrite H1 in Hlit].
  apply bind_Ok in Hparse as (iv & Hiv & Hparse).
  apply bind_Ok in Hiv as (n1 & Hn1 & Hiv).
  destruct (getline_delim "/" t1) as [[s2 t2]|] eqn:H2.
  - apply bind_Ok in Hparse as (ivt & Hivt & Hparse).
    apply fix_optional_Ok in Hivt.
    destruct (getline_delim "/" t2) as [[s3 t3]|] eqn:H3.
    + apply bind_Ok in Hparse as (ivn & Hivn & Hparse).
      apply fix_optional_Ok in Hivn.
      injection Hparse as <-.
      destruct c; simpl in Hlit; step_literal Hlit.
      * simplify_eq. eauto.
      * destruct s2; by simplify_eq.
      * destruct s3; by simplify_eq.
    + injection Hparse as <-.
      destruct c; simpl in Hlit; step_literal Hlit.
      * simplify_eq. eauto.
      * destruct s2; by simplify_eq.
      * done.
  - injection Hparse as <-.
    destruct c; simpl in Hlit; step_literal Hlit;
      simplify_eq; eauto.
Qed.

(** When every literal of the token is a number, the only failure is
    the zero-index error. *)
Lemma parse_token_Fail (object : Object) token f :
  parse_token object token = Fail f ->
  (forall c s, literal c token = Some s -> exists n, stoi s = Ok n) ->
  f = zero_index_error.
Proof.
  unfold parse_token. intros Hparse Hnum.
  assert (Hfix : forall n size g, fixIndex n size = Fail g -> g = zero_index_error).
  { intros n size g. unfold fixIndex, zero_index_error.
    repeat case_match; congruence. }
  assert (Hopt : forall s size g,
             (s <> EmptyString -> exists n, stoi s = Ok n) ->
             fix_optional s size = Fail g -> g = zero_index_error).
  { intros s size g Hs. destruct s as [|a s]; simpl; [done|].
    destruct Hs as [n ->]; [done|]. simpl. apply Hfix. }
  destruct (getline_delim "/" token) as [[s1 t1]|] eqn:H1; [|done].
  destruct (Hnum Position s1) as [n1 Hn1]; [simpl; by rewrite H1|].
  rewrite Hn1 in Hparse. simpl in Hparse.
  destruct (fixIndex n1 _) as [iv|g] eqn:Hiv; simpl in Hparse;
    [|injection Hparse as <-; eauto].
  destruct (getline_delim "/" t1) as [[s2 t2]|] eqn:H2; [|done].
  destruct (fix_optional s2 _) as [ivt|g] eqn:Hivt; simpl in Hparse.
  2:{ injection Hparse as <-. eapply Hopt; [|done].
      intros Hs2. apply (Hnum TexCoord). simpl. rewrite H1. simpl.
      rewrite H2. simpl. by destruct s2. }
  destruct (getline_delim "/" t2) as [[s3 t3]|] eqn:H3; [|done].
  destruct (fix_optional s3 _) as [ivn|g] eqn:Hivn; simpl in Hparse; [done|].
  injection Hparse as <-. eapply Hopt; [|done].
  intros Hs3. apply (Hnum NormalVector). simpl. rewrite H1. simpl.
  rewrite H2. simpl. rewrite H3. simpl. by destruct s3.
Qed.

Lemma ParseFaceLine_token_fails (object : Object) line token :
  token ∈ face_tokens line ->
  (exists f, parse_token object token = Fail f) ->
  exists f, ParseFaceLine line object = Fail f.
Proof.
  intros Hin [f Hf]. unfold ParseFaceLine.
  eapply for_each_fail; [done|]. intros s. rewrite Hf. simpl. eauto.
Qed.

(** C2.  Resolution of the literal [n] that a corner token carries
    for a component, against the array the component indexes, of
    current length [L].  The lambda [fixIndex] returns [n - 1] for a
    positive [n] and [L + n] for a negative [n], and throws the
    zero-index error for [n = 0].  Accordingly a corner that is
    produced holds [n - 1] for a positive [n] and [L + n] for a
    negative [n] (so that [-1] gives [L - 1], the index of the element
    appended last), and [n] was not zero; with [n = 0] the token is
    never parsed successfully, the face line it stands on fails as a
    whole, and the failure is the zero-index error whenever all the
    literals of the token are numbers. *)
Theorem fixIndex_resolution (object : Object) (c : component)
    (token s : string) (n : Z) :
  literal c token = Some s ->
  stoi s = Ok n ->
  (Z.of_nat (array_length c object) < 2 ^ 31)%Z ->
  let L := Z.of_nat (array_length c object) in
  ((0 < n)%Z -> fixIndex n L = Ok (n - 1)%Z)
  /\ ((n < 0)%Z -> fixIndex n L = Ok (L + n)%Z)
  /\ (n = 0%Z -> fixIndex n L = Fail zero_index_error)
  /\ (forall idx, parse_token object token = Ok idx ->
     n <> 0%Z
     /\ ((0 < n)%Z -> field c idx = (n - 1)%Z)
     /\ ((n < 0)%Z -> field c idx = (L + n)%Z)
     /\ (n = (-1)%Z -> field c idx = (L - 1)%Z))
  /\ (n = 0%Z ->
      (exists f, parse_token object token = Fail f)
      /\ ((forall c' s', literal c' token = Some s' -> exists m, stoi s' = Ok m) ->
          parse_token object token = Fail zero_index_error)
      /\ (forall line, token ∈ face_tokens line ->
            exists f, ParseFaceLine line object = Fail f)).
Proof.
  intros Hlit Hs HL L.
  assert (Hok : forall idx, parse_token object token = Ok idx ->
            fixIndex n L = Ok (field c idx)).
  { intros idx Hidx.
    destruct (parse_token_Ok _ _ _ _ _ Hidx Hlit) as (m & Hm & Hfix).
    rewrite to_int_length in Hfix by done. subst L. congruence. }
  assert (Hfail : n = 0%Z -> exists f, parse_token object token = Fail f).
  { intros ->. destruct (parse_token object token) as [idx|f] eqn:Hp; [|eauto].
    specialize (Hok idx eq_refl). discriminate. }
  split; [apply fixIndex_positive|].
  split; [apply fixIndex_negative|].
  split; [intros ->; apply fixIndex_zero|].
  split.
  - intros idx Hidx. apply Hok, fixIndex_Ok in Hidx as (Hne & Hpos & Hneg).
    repeat split; [done..|]. intros ->. rewrite Hneg; lia.
  - intros Hn. split; [auto|]. split.
    + intros Hnum. destruct (Hfail Hn) as [f Hf].
      rewrite Hf. f_equal. by apply (parse_token_Fail _ _ _ Hf).
    + intros line Hin. by apply ParseFaceLine_token_fails with token; auto.
Qed.
End SceneParserFacts.

(** ** Fan triangulation *)

Section Triangulation.
Context `{FloatOps}.

(** [ParseFaceLine] returns one corner per token, in token order. *)
Lemma ParseFaceLine_corners (object : Object) line corners :
  Forall2 (fun token corner => parse_token object token = Ok corner)
          (face_tokens line) corners ->
  ParseFaceLine line object = Ok corners.
Proof.
  unfold ParseFaceLine. generalize (face_tokens line) as tokens.
  intros tokens Hall.
  enough (Hgen : forall acc,
    for_each (fun result token =>
                idx ← parse_token object token; Ok (result ++ [idx]))
             tokens acc = Ok (acc ++ corners)) by apply (Hgen []).
  induction Hall as [|token corner tokens corners Htok _ IH]; intros acc.
  - simpl. by rewrite app_nil_r.
  - simpl. rewrite Htok. simpl. rewrite IH. by rewrite <- app_assoc.
Qed.

Lemma ParseFaceLine_Ok (object : Object) line corners :
  ParseFaceLine line object = Ok corners ->
  Forall2 (fun token corner => parse_token object token = Ok corner)
          (face_tokens line) corners.
Proof.
  unfold ParseFaceLine. generalize (face_tokens line) as tokens.
  intros tokens.
  enough (Hgen : forall acc out,
    for_each (fun result token =>
                idx ← parse_token object token; Ok (result ++ [idx]))
             tokens acc = Ok out ->
    exists cs, out = acc ++ cs /\
      Forall2 (fun token corner => parse_token object token = Ok corner)
              tokens cs).
  { intros Hrun. destruct (Hgen [] corners Hrun) as (cs & -> & Hcs). done. }
  induction tokens as [|token tokens IH]; intros acc out Hrun; simpl in Hrun.
  - injection Hrun as <-. exists []. by rewrite app_nil_r.
  - apply bind_Ok in Hrun as (acc' & Hbody & Hrun).
    apply bind_Ok in Hbody as (idx & Hidx & Hacc). injection Hacc as <-.
    destruct (IH _ _ Hrun) as (cs & -> & Hcs).
    exists (idx :: cs). split; [by rewrite <- app_assoc | by constructor].
Qed.

Lemma push_face_target (o : Object) p face old :
  target_faces p o = Some old ->
  exists o', push_face p face o = Ok o'
    /\ target_faces p o' = Some (old ++ [face])
    /\ (forall q, q <> p -> target_faces q o' = target_faces q o)
    /\ same_arrays o o'
    /\ length (meshes o') = length (meshes o).
Proof.
  destruct p as [mi si]. unfold target_faces, push_face, at_index. simpl.
  destruct (meshes o !! mi) as [mesh|] eqn:Hmesh; [|done]. simpl.
  destruct (subMeshs mesh !! si) as [sub|] eqn:Hsub; [|done]. simpl.
  intros [= <-]. eexists. split; [done|].
  apply lookup_lt_Some in Hmesh as Hmi. apply lookup_lt_Some in Hsub as Hsi.
  split; [|split; [|split]].
  - simpl. rewrite list_lookup_insert_eq by done. simpl.
    by rewrite list_lookup_insert_eq.
  - intros [mj sj] Hne. simpl.
    destruct (decide (mj = mi)) as [->|Hm].
    + rewrite list_lookup_insert_eq by done. rewrite Hmesh. simpl.
      rewrite list_lookup_insert_ne; [done | congruence].
    + by rewrite list_lookup_insert_ne.
  - done.
  - simpl. by rewrite length_insert.
Qed.

Lemma fan_step_in_range (p : face_target) (result : list FaceIndex)
    (o : Object) i :
  i + 2 < length result ->
  fan_step p result o i = push_face p (fan_face result i) o.
Proof.
  intros Hi. unfold fan_step, at_index.
  rewrite !list_lookup_lookup_total_lt by lia. done.
Qed.

(** The loop of [push_fan] from iteration [a] on, for [n] iterations
    that stay inside [result]. *)
Lemma push_fan_loop (p : face_target) (result : list FaceIndex) n :
  forall a (o : Object) old,
  a + n + 2 <= length result ->
  target_faces p o = Some old ->
  exists o',
    for_each (fan_step p result) (seq a n) o = Ok o'
    /\ target_faces p o' = Some (old ++ (fan_face result <$> seq a n))
    /\ (forall q, q <> p -> target_faces q o' = target_faces q o)
    /\ same_arrays o o'
    /\ length (meshes o') = length (meshes o).
Proof.
  induction n as [|n IH]; intros a o old Hlen Hold.
  - exists o. simpl. rewrite app_nil_r. by repeat split.
  - simpl. rewrite fan_step_in_range by lia.
    destruct (push_face_target o p (fan_face result a) old Hold)
      as (o1 & -> & Hnew & Hother & Hsame & Hlen1).
    simpl.
    destruct (IH (S a) o1 _ ltac:(lia) Hnew)
      as (o' & -> & Hfaces & Hother' & Hsame' & Hlen').
    exists o'. split; [done|]. split; [by rewrite Hfaces, <- app_assoc|].
    split; [|split].
    + intros q Hq. by rewrite Hother', Hother.
    + destruct Hsame as (?&?&?&?), Hsame' as (?&?&?&?).
      repeat split; congruence.
    + congruence.
Qed.
End Triangulation.

(** ** The line loop of [AnalyzeObj] *)

(** Split on the directive of a line that is not skipped. *)
Ltac by_directive w :=
  repeat match goal with
         | |- context [String.eqb w ?k] =>
             destruct (String.eqb_spec w k); [subst w; simpl in * |]
         | H : context [String.eqb w ?k] |- _ =>
             destruct (String.eqb_spec w k); [subst w; simpl in * |]
         end.

(** Run through the calls a line handler makes, one case per result. *)
Ltac run_line H :=
  try done;
  repeat match type of H with
         | context [mbind _ ?x] =>
             destruct x eqn:?; simpl in H; try done
         | context [match ?x with _ => _ end] =>
             destruct x eqn:?; simpl in H; try done
         end;
  simplify_eq; simpl; try done.

Section ObjLoop.
Context `{FloatOps}.

(** A face line either returns 1 at once or triangulates into the
    active target. *)
Lemma AnalyzeObj_line_face (st : ObjParser) line :
  directive line = "f" ->
  AnalyzeObj_line st line =
    match pFace st with
    | None =>
        Ok (Return 1
              {| object := object st; pFace := pFace st;
                 object_name := object_name st;
                 cout := cout st ++
                         [object_name st +:+ " has no material assigned."] |})
    | Some p =>
        result ← ParseFaceLine line (object st);
        o ← push_fan p result (object st);
        Ok (Continue (with_object st o))
    end.
Proof.
  unfold directive, AnalyzeObj_line.
  destruct (skipped line); [done|].
  destruct (extract_word line) as [[w rest]|]; [|done].
  intros ->. reflexivity.
Qed.

(** The only [return] inside the loop is the one of a face line
    without a target. *)
Lemma AnalyzeObj_line_Return (st st' : ObjParser) line code :
  AnalyzeObj_line st line = Ok (Return code st') ->
  code = 1%Z /\ directive line = "f" /\ pFace st = None.
Proof.
  unfold directive, AnalyzeObj_line.
  destruct (skipped line); [done|].
  destruct (extract_word line) as [[w rest]|]; [|done].
  intros Hline. by_directive w; unfold select_material in *; run_line Hline.
Qed.


Lemma AnalyzeObj_loop_app (pre rest : list string) (st st1 : ObjParser) :
  AnalyzeObj_loop pre st = Ok (0%Z, st1) ->
  AnalyzeObj_loop (pre ++ rest) st = AnalyzeObj_loop rest st1.
Proof.
  revert st. induction pre as [|line pre IH]; intros st Hpre; simpl in *.
  - by simplify_eq.
  - destruct (AnalyzeObj_line st line) as [[st'|code st']|] eqn:Hline;
      simpl in *; [by apply IH| |done].
    apply AnalyzeObj_line_Return in Hline as [-> _]. done.
Qed.


(** C3.  A face line with [k >= 3] corner tokens, parsed while a face
    target is active: the target receives exactly [k - 2] new
    triangles after the ones it had, the [i]-th made of corners [0],
    [i + 1] and [i + 2] of the corner list, which lists the corners in
    token order; four corners give the triangles (0,1,2) and (0,2,3).
    Nothing else in the object changes. *)
Theorem face_line_fan (st : ObjParser) (line : string) (p : face_target)
    (old : list Face) (corners : list FaceIndex) :
  directive line = "f" ->
  pFace st = Some p ->
  target_faces p (object st) = Some old ->
  Forall2 (fun token corner => parse_token (object st) token = Ok corner)
          (face_tokens line) corners ->
  3 <= length (face_tokens line) ->
  exists st' tris,
    AnalyzeObj_line st line = Ok (Continue st')
    /\ target_faces p (object st') = Some (old ++ tris)
    /\ length tris = length (face_tokens line) - 2
    /\ (forall i, i < length (face_tokens line) - 2 ->
          exists c0 c1 c2,
            corners !! 0 = Some c0 /\ corners !! (i + 1) = Some c1
            /\ corners !! (i + 2) = Some c2
            /\ tris !! i = Some {| faceIndices := (c0, c1, c2) |})
    /\ (forall c0 c1 c2 c3, corners = [c0; c1; c2; c3] ->
          tris = [{| faceIndices := (c0, c1, c2) |};
                  {| faceIndices := (c0, c2, c3) |}])
    /\ (forall q, q <> p ->
          target_faces q (object st') = target_faces q (object st))
    /\ same_arrays (object st) (object st')
    /\ pFace st' = pFace st.
Proof.
  intros Hdir Hp Hold Hcorners Hk.
  pose proof (Forall2_length _ _ _ Hcorners) as Hlen.
  rewrite (AnalyzeObj_line_face _ _ Hdir), Hp.
  rewrite (ParseFaceLine_corners _ _ _ Hcorners). simpl.
  unfold push_fan. destruct (Nat.ltb_spec (length corners) 2); [lia|].
  destruct (push_fan_loop p corners (length corners - 2) 0 (object st) old
              ltac:(lia) Hold) as (o' & -> & Hfaces & Hother & Hsame & _).
  simpl. eexists _, (fan_face corners <$> seq 0 (length corners - 2)).
  split; [done|]. split; [done|].
  split; [by rewrite length_fmap, length_seq, Hlen|].
  split; [|split; [|split; [done|split; [done|done]]]].
  - intros i Hi. exists (corners !!! 0), (corners !!! (i + 1)),
      (corners !!! (i + 2)).
    rewrite !list_lookup_lookup_total_lt by lia.
    repeat split. rewrite list_lookup_fmap, lookup_seq_lt by lia. done.
  - by intros c0 c1 c2 c3 ->.
Qed.
End ObjLoop.

Section NoMaterial.
Context `{FloatOps} `{!DirectXMath} `{Platform}.

End NoMaterial.

Section TargetValid.
Context `{FloatOps}.

Lemma select_material_valid (st st' : ObjParser) iss :
  select_material st iss = Ok st' -> target_valid st'.
Proof.
  unfold select_material, target_valid.
  destruct (last (meshes (object st))) as [mesh|] eqn:Hlast; [|done].
  intros [= <-] p [= <-]. unfold target_faces. simpl.
  assert (length (meshes (object st)) <> 0).
  { destruct (meshes (object st)); [done | simpl; lia]. }
  rewrite list_lookup_insert_eq by lia. simpl.
  rewrite lookup_app_r by lia. rewrite Nat.sub_diag. simpl. done.
Qed.

Lemma push_fan_valid (o o' : Object) p result :
  is_Some (target_faces p o) -> push_fan p result o = Ok o' ->
  is_Some (target_faces p o').
Proof.
  intros [old Hold]. unfold push_fan.
  destruct (Nat.ltb_spec (length result) 2); [done|].
  destruct (push_fan_loop p result (length result - 2) 0 o old
              ltac:(lia) Hold) as (o1 & -> & Hfaces & _).
  intros [= <-]. by rewrite Hfaces.
Qed.

Lemma AnalyzeObj_line_valid (st st' : ObjParser) line :
  target_valid st -> AnalyzeObj_line st line = Ok (Continue st') ->
  target_valid st'.
Proof.
  intros Hvalid. unfold AnalyzeObj_line.
  destruct (skipped line); [by intros [= <-]|].
  destruct (extract_word line) as [[w rest]|]; [|by intros [= <-]].
  intros Hline. by_directive w; run_line Hline.
  all: try (intros q Hq; simpl in *; simplify_eq; by apply Hvalid).
  all: try by eapply select_material_valid.
  intros q Hq. simpl in *. simplify_eq.
  eapply push_fan_valid; [|done]. by apply Hvalid.
Qed.

Lemma AnalyzeObj_loop_valid (object0 : Object) pre st :
  AnalyzeObj_loop pre (AnalyzeObj_start object0) = Ok (0%Z, st) ->
  target_valid st.
Proof.
  assert (Hstart : target_valid (AnalyzeObj_start object0)) by done.
  revert Hstart. generalize (AnalyzeObj_start object0) as st0.
  induction pre as [|line pre IH]; intros st0 Hvalid Hrun; simpl in Hrun.
  - by simplify_eq.
  - destruct (AnalyzeObj_line st0 line) as [[st1|code st1]|] eqn:Hline;
      simpl in Hrun; [| |done].
    + eapply IH; [|done]. by eapply AnalyzeObj_line_valid.
    + apply AnalyzeObj_line_Return in Hline as [-> _]. done.
Qed.
End TargetValid.

(** ** Loops that consume a list of lists *)

(** [R g s] relates the state to the items consumed so far; a body that
    extends the relation by the items of its element makes the loop
    extend it by the items of all elements. *)
Lemma for_each_ghost {A G S} (R : list G -> S -> Prop)
    (body : S -> A -> outcome S) (items : A -> list G) :
  (forall g s x s', R g s -> body s x = Ok s' -> R (g ++ items x) s') ->
  forall l g s s', R g s -> for_each body l s = Ok s' ->
    R (g ++ mjoin (items <$> l)) s'.
Proof.
  intros Hbody. induction l as [|x l IH]; intros g s s' HR Hrun; simpl in *.
  - simplify_eq. by rewrite app_nil_r.
  - apply bind_Ok in Hrun as (s1 & H1 & Hrun).
    rewrite app_assoc. eapply IH; [|done]. eauto.
Qed.

(** ** First-seen keys *)

Lemma first_seen_snoc cs c : first_seen (cs ++ [c]) = see (first_seen cs) c.
Proof. unfold first_seen. by rewrite foldl_app. Qed.

Lemma first_seen_NoDup cs : NoDup (first_seen cs).
Proof.
  induction cs as [|c cs IH] using rev_ind; [constructor|].
  rewrite first_seen_snoc. unfold see. case_decide; [done|].
  apply NoDup_app. split; [done|]. split; [|apply NoDup_singleton].
  intros k Hk ->%list_elem_of_singleton. done.
Qed.

Lemma first_seen_elem_of cs k : k ∈ first_seen cs <-> k ∈ cs.
Proof.
  induction cs as [|c cs IH] using rev_ind; [done|].
  rewrite first_seen_snoc. unfold see. rewrite elem_of_app, list_elem_of_singleton.
  case_decide as Hc.
  - split; [intros ?; left; by apply IH|].
    intros [?| ->]; [by apply IH | done].
  - by rewrite elem_of_app, list_elem_of_singleton, IH.
Qed.

Lemma first_seen_length cs : length (first_seen cs) <= length cs.
Proof.
  induction cs as [|c cs IH] using rev_ind; [done|].
  rewrite first_seen_snoc, length_app. unfold see. simpl.
  case_decide; [|rewrite length_app; simpl]; lia.
Qed.

(** ** The vertex consolidator *)

Section ConsolidatorFacts.
Context `{FloatOps} `{!DirectXMath}.

Lemma add_corner_consolidated (object : Object) cs st c st' :
  consolidated object cs st ->
  add_corner object st c = Ok st' ->
  consolidated object (cs ++ [c]) st'.
Proof.
  unfold consolidated. rewrite first_seen_snoc.
  pose proof (first_seen_NoDup cs) as Hnodup.
  generalize dependent (first_seen cs). intros keys Hnodup.
  intros (Hlen & Hmap & Hvb & Hib). unfold add_corner, see.
  destruct (indexMap st !! c) as [i|] eqn:Hc.
  - intros [= <-]. simpl.
    apply Hmap in Hc as Hj. destruct Hj as (j & Hj & ->).
    rewrite decide_True by (by eapply list_elem_of_lookup_2).
    repeat split; try done; try apply Hmap.
    apply Forall2_app; [done|]. repeat constructor. eauto.
  - intros Hrun. apply bind_Ok in Hrun as (vertex & Hvertex & [= <-]).
    simpl.
    assert (Hnew : c ∉ keys).
    { intros (j & Hj)%list_elem_of_lookup_1.
      assert (indexMap st !! c = Some (to_uint32 (Z.of_nat j)))
        by (apply Hmap; eauto). congruence. }
    rewrite decide_False by done.
    split; [by rewrite !length_app, Hlen|]. split; [|split].
    + intros k i. destruct (decide (c = k)) as [<-|Hne].
      * rewrite lookup_insert_eq. split.
        -- intros [= <-]. exists (length keys).
           rewrite lookup_app_r, Nat.sub_diag by lia. by rewrite Hlen.
        -- intros (j & Hj & ->). f_equal.
           apply lookup_app_Some in Hj as [Hj|[Hge Hj]].
           ++ by apply list_elem_of_lookup_2 in Hj.
           ++ apply list_lookup_singleton_Some in Hj as [Hj _].
              rewrite Hlen. do 2 f_equal. lia.
      * rewrite lookup_insert_ne by done. rewrite Hmap.
        split; intros (j & Hj & ->); exists j; split; try done.
        -- by apply lookup_app_l_Some.
        -- apply lookup_app_Some in Hj as [Hj|[_ Hj]]; [done|].
           apply list_lookup_singleton_Some in Hj as [_ ?]. done.
    + intros j k Hj. apply lookup_app_Some in Hj as [Hj|[Hge Hj]].
      * destruct (Hvb j k Hj) as (vx & Hvx & Hmk). exists vx.
        split; [by apply lookup_app_l_Some | done].
      * apply list_lookup_singleton_Some in Hj as [Hj <-].
        exists vertex. split; [|done].
        rewrite lookup_app_r by lia. rewrite Hlen.
        replace (j - length keys) with 0 by lia. done.
    + apply Forall2_app.
      * eapply Forall2_impl; [done|]. simpl.
        intros c' i (j & Hj & ->). exists j. split; [|done].
        by apply lookup_app_l_Some.
      * repeat constructor. exists (length keys).
        rewrite lookup_app_r, Nat.sub_diag by lia. by rewrite Hlen.
Qed.
End ConsolidatorFacts.

Lemma for_each_ghost_each {A S} (R : list A -> S -> Prop)
    (body : S -> A -> outcome S) :
  (forall g s x s', R g s -> body s x = Ok s' -> R (g ++ [x]) s') ->
  forall l g s s', R g s -> for_each body l s = Ok s' -> R (g ++ l) s'.
Proof.
  intros Hbody l g s s' HR Hrun.
  pose proof (for_each_ghost R body (fun x => [x]) Hbody l g s s' HR Hrun)
    as Hg.
  assert (Hl : mjoin ((fun x : A => [x]) <$> l) = l)
    by (clear; induction l as [|x l IH]; simpl; [done | f_equal; apply IH]).
  by rewrite Hl in Hg.
Qed.

Section ConsolidatorRun.
Context `{FloatOps} `{!DirectXMath}.

Lemma add_corner_frame (object : Object) st c st' :
  add_corner object st c = Ok st' ->
  meshInfo st' = meshInfo st
  /\ length (indexBuffer st') = S (length (indexBuffer st)).
Proof.
  unfold add_corner. destruct (indexMap st !! c).
  - intros [= <-]. simpl. rewrite length_app. simpl. split; [done | lia].
  - intros Hrun. apply bind_Ok in Hrun as (vertex & _ & [= <-]). simpl.
    rewrite length_app. simpl. split; [done | lia].
Qed.

Lemma add_face_frame (object : Object) st face st' :
  add_face object st face = Ok st' ->
  meshInfo st' = meshInfo st
  /\ length (indexBuffer st') = length (indexBuffer st) + 3.
Proof.
  unfold add_face, face_corners. destruct (faceIndices face) as [[a b] c].
  simpl. intros Hrun.
  apply bind_Ok in Hrun as (s1 & (M1 & L1)%add_corner_frame & Hrun).
  apply bind_Ok in Hrun as (s2 & (M2 & L2)%add_corner_frame & Hrun).
  apply bind_Ok in Hrun as (s3 & (M3 & L3)%add_corner_frame & [= <-]).
  split; [congruence | lia].
Qed.

Lemma add_faces_frame (object : Object) fs st st' :
  for_each (add_face object) fs st = Ok st' ->
  meshInfo st' = meshInfo st
  /\ length (indexBuffer st') = length (indexBuffer st) + 3 * length fs.
Proof.
  revert st. induction fs as [|face fs IH]; intros st Hrun; simpl in *.
  - simplify_eq. split; [done | lia].
  - apply bind_Ok in Hrun as (s1 & (M1 & L1)%add_face_frame & Hrun).
    apply IH in Hrun as [M2 L2]. split; [congruence | lia].
Qed.

Lemma add_face_consolidated (object : Object) cs st face st' :
  consolidated object cs st ->
  add_face object st face = Ok st' ->
  consolidated object (cs ++ face_corners face) st'.
Proof.
  unfold add_face.
  apply (for_each_ghost_each (consolidated object) (add_corner object)).
  apply add_corner_consolidated.
Qed.

Lemma add_subMesh_consolidated (object : Object) materialIndexMap cs st
    subMesh st' :
  consolidated object cs st ->
  add_subMesh object materialIndexMap st subMesh = Ok st' ->
  consolidated object (cs ++ subMesh_corners subMesh) st'.
Proof.
  unfold add_subMesh. intros Hcs.
  destruct (materialIndexMap !! material subMesh); [|done].
  apply (for_each_ghost (consolidated object) (add_face object) face_corners);
    [apply add_face_consolidated | exact Hcs].
Qed.

Lemma add_mesh_consolidated (object : Object) materialIndexMap cs st
    mesh st' :
  consolidated object cs st ->
  add_mesh object materialIndexMap st mesh = Ok st' ->
  consolidated object (cs ++ mesh_corners mesh) st'.
Proof.
  apply (for_each_ghost (consolidated object)
           (add_subMesh object materialIndexMap) subMesh_corners).
  apply add_subMesh_consolidated.
Qed.

Lemma CreateBufferData_run_consolidated (object : Object) materialIndexMap
    meshInfo0 st :
  CreateBufferData_run object materialIndexMap meshInfo0 [] [] = Ok st ->
  consolidated object (corners_of object) st.
Proof.
  unfold CreateBufferData_run. intros Hrun.
  apply (for_each_ghost (consolidated object)
           (add_mesh object materialIndexMap) mesh_corners
           (add_mesh_consolidated object materialIndexMap)
           _ [] _ _) in Hrun; [done|].
  unfold consolidated. simpl. split; [done|]. split; [|split].
  - intros k i. rewrite lookup_empty. split; [done|].
    by intros (j & Hj & _).
  - by intros j k Hj.
  - constructor.
Qed.

(** C1.  Consolidation of any scene, started on empty buffers as
    [wmain] does, with at most 2^32 distinct composite keys so that
    every vertex position fits the 32-bit index type.  With [keys] the
    distinct keys of the face corners in first-seen order: the vertex
    buffer has exactly one slot per key, slot [j] holding the vertex
    made from key [j]; the map sends a key to [j] exactly when it is
    key [j], so it is one-to-one from the keys onto the positions of
    the vertex buffer; the index buffer holds, for every corner
    occurrence in draw order, the slot of its key; and the vertex
    buffer is no longer than the number of corner occurrences. *)
Theorem CreateBufferData_consolidates (object : Object)
    (materialIndexMap : gmap string Z) (st : Consolidator) :
  CreateBufferData_run object materialIndexMap [] [] [] = Ok st ->
  (Z.of_nat (length (first_seen (corners_of object))) <= 2 ^ 32)%Z ->
  let corners := corners_of object in
  let keys := first_seen corners in
  NoDup keys
  /\ (forall k, k ∈ keys <-> k ∈ corners)
  /\ length (vertexBuffer st) = length keys
  /\ (forall j k, keys !! j = Some k ->
        exists vertex, vertexBuffer st !! j = Some vertex
                       /\ MakeVertex object k = Ok vertex)
  /\ (forall k j, indexMap st !! k = Some (Z.of_nat j) <-> keys !! j = Some k)
  /\ (forall k i, indexMap st !! k = Some i ->
        exists j, i = Z.of_nat j /\ j < length (vertexBuffer st))
  /\ (forall k1 k2 i, indexMap st !! k1 = Some i ->
        indexMap st !! k2 = Some i -> k1 = k2)
  /\ (forall j, j < length (vertexBuffer st) ->
        exists k, indexMap st !! k = Some (Z.of_nat j))
  /\ Forall2 (fun c i => indexMap st !! c = Some i) corners (indexBuffer st)
  /\ length (vertexBuffer st) <= length corners.
Proof.
  intros Hrun Hbound corners keys.
  apply CreateBufferData_run_consolidated in Hrun
    as (Hlen & Hmap & Hvb & Hib).
  fold corners in Hlen, Hmap, Hvb, Hib. fold keys in Hlen, Hmap, Hvb, Hib.
  pose proof (first_seen_NoDup corners) as Hnodup. fold keys in Hnodup.
  assert (Hsmall : forall j k, keys !! j = Some k ->
            to_uint32 (Z.of_nat j) = Z.of_nat j).
  { intros j k Hj%lookup_lt_Some. apply to_uint32_small.
    unfold is_uint32. fold corners keys in Hbound. lia. }
  assert (Hpos : forall k j,
            indexMap st !! k = Some (Z.of_nat j) <-> keys !! j = Some k).
  { intros k j. rewrite Hmap. split.
    - intros (j' & Hj' & Heq). rewrite (Hsmall _ _ Hj') in Heq.
      by apply Nat2Z.inj in Heq as ->.
    - intros Hj. exists j. by rewrite (Hsmall _ _ Hj). }
  assert (Hrange : forall k i, indexMap st !! k = Some i ->
            exists j, i = Z.of_nat j /\ j < length (vertexBuffer st)).
  { intros k i (j & Hj & ->)%Hmap. exists j.
    rewrite (Hsmall _ _ Hj), Hlen. split; [done|].
    by apply lookup_lt_Some in Hj. }
  split; [done|]. split; [apply first_seen_elem_of|].
  split; [done|]. split; [done|]. split; [done|]. split; [done|].
  split; [|split; [|split]].
  - intros k1 k2 i H1 H2.
    destruct (Hrange _ _ H1) as (j & -> & _).
    apply Hpos in H1, H2. congruence.
  - intros j Hj. rewrite Hlen in Hj.
    apply lookup_lt_is_Some in Hj as [k Hk]. exists k. by apply Hpos.
  - eapply Forall2_impl; [done|]. simpl. intros c i Hci. by apply Hmap.
  - rewrite Hlen. apply first_seen_length.
Qed.
End ConsolidatorRun.

(** A loop whose body succeeds on every element succeeds. *)
Lemma for_each_total {A S} (body : S -> A -> outcome S) l :
  (forall s x, x ∈ l -> exists s', body s x = Ok s') ->
  forall s, exists s', for_each body l s = Ok s'.
Proof.
  induction l as [|x l IH]; intros Hbody s; simpl; [eauto|].
  destruct (Hbody s x) as [s1 ->]; [by left|]. simpl.
  apply IH. intros s2 y Hy. apply Hbody. by right.
Qed.

Section ConsolidatorTotal.
Context `{FloatOps} `{!DirectXMath}.

Lemma at_int_in_range {A} (vec : list A) (i : Z) :
  (0 <= i < Z.of_nat (length vec))%Z -> exists x, at_int vec i = Ok x.
Proof.
  intros Hi. unfold at_int, at_index.
  destruct (Z.ltb_spec i 0); [lia|].
  destruct (lookup_lt_is_Some_2 vec (Z.to_nat i)) as [x ->]; [lia | eauto].
Qed.

Lemma MakeVertex_in_bounds (object : Object) corner :
  in_bounds object corner -> exists vertex, MakeVertex object corner = Ok vertex.
Proof.
  intros (Hv & Hvn & Hvt). unfold MakeVertex.
  destruct (at_int_in_range (positions object) (v corner) Hv) as [pos ->].
  simpl.
  destruct (Z.geb_spec (vn corner) 0).
  - destruct (at_int_in_range (normals object) (vn corner)) as [n ->]; [lia|].
    simpl. destruct (Z.geb_spec (vt corner) 0); [|simpl; eauto].
    destruct (at_int_in_range (texcoords object) (vt corner)) as [t ->];
      [lia|]. simpl. eauto.
  - simpl. destruct (Z.geb_spec (vt corner) 0); [|simpl; eauto].
    destruct (at_int_in_range (texcoords object) (vt corner)) as [t ->];
      [lia|]. simpl. eauto.
Qed.

(** Consolidation returns whenever every submesh names a known
    material and every corner stays inside the arrays. *)
Lemma CreateBufferData_run_total (object : Object) materialIndexMap
    meshInfo0 vertexBuffer0 indexBuffer0 :
  (forall subMesh, subMesh ∈ subMeshes_of object ->
     is_Some (materialIndexMap !! material subMesh)) ->
  (forall corner, corner ∈ corners_of object -> in_bounds object corner) ->
  exists st, CreateBufferData_run object materialIndexMap meshInfo0
               vertexBuffer0 indexBuffer0 = Ok st.
Proof.
  intros Hmat Hin. unfold CreateBufferData_run.
  apply for_each_total. intros st mesh Hmesh.
  apply for_each_total. intros st1 subMesh HsubMesh.
  unfold add_subMesh.
  destruct (Hmat subMesh) as [index ->].
  { apply list_elem_of_join. exists (subMeshs mesh).
    split; [done | by apply list_elem_of_fmap_2]. }
  apply for_each_total. intros st2 face Hface.
  apply for_each_total. intros st3 corner Hcorner.
  unfold add_corner. destruct (indexMap st3 !! corner); [eauto|].
  destruct (MakeVertex_in_bounds object corner) as [vertex ->]; [|simpl; eauto].
  apply Hin. apply list_elem_of_join. exists (mesh_corners mesh).
  split; [|by apply list_elem_of_fmap_2].
  apply list_elem_of_join. exists (subMesh_corners subMesh).
  split; [|by apply list_elem_of_fmap_2].
  apply list_elem_of_join. exists (face_corners face).
  split; [done | by apply list_elem_of_fmap_2].
Qed.
End ConsolidatorTotal.

(** ** The material table *)

Section MaterialFacts.
Context `{FloatOps} `{Platform}.

Lemma update_back_length (st st' : MtlParser) f :
  update_back st f = Ok st' ->
  length (materials st') = length (materials st)
  /\ materialIndexMap st' = materialIndexMap st
  /\ m_index st' = m_index st.
Proof.
  unfold update_back. destruct (last (materials st)); [|done].
  intros [= <-]. simpl. by rewrite length_insert.
Qed.

Lemma update_back_in_table (st st' : MtlParser) f :
  indices_in_table st -> update_back st f = Ok st' -> indices_in_table st'.
Proof.
  unfold indices_in_table.
  intros Hst (Hlen & Hmap & Hidx)%update_back_length.
  by rewrite Hlen, Hmap, Hidx.
Qed.

Lemma declare_material_in_table (st : MtlParser) iss :
  indices_in_table st -> indices_in_table (declare_material st iss).
Proof.
  unfold indices_in_table, declare_material. intros [Hidx Hmap]. simpl.
  rewrite length_app. simpl. split.
  - pose proof (to_uint32_range (m_index st + 1)) as Hr.
    pose proof (to_uint32_le (m_index st + 1)). unfold is_uint32 in Hr. lia.
  - intros name index Hname.
    apply lookup_insert_Some in Hname as [[_ <-]|[_ Hname]]; [lia|].
    apply Hmap in Hname. lia.
Qed.

Lemma map_texture_in_table path type assign (st st' : MtlParser) iss code :
  indices_in_table st ->
  (map_texture path type assign st iss = Ok (Continue st')
   \/ map_texture path type assign st iss = Ok (Return code st')) ->
  indices_in_table st'.
Proof.
  intros Hst. unfold map_texture.
  destruct (materials st) eqn:Hm; [intros [?|?]; by simplify_eq|].
  rewrite <- Hm. clear Hm.
  destruct (ExtractTextureFilename iss) as [|a name];
    [intros [?|?]; by simplify_eq|].
  set (p := String a name).
  destruct (fs_exists p).
  - destruct (RegisterTexture _ _ _ _) as [[index ts] tm].
    destruct (update_back _ _) as [st1|] eqn:Hupd;
      [|intros [?|?]; done].
    apply update_back_in_table in Hupd; [|done].
    simpl. intros [?|?]; by simplify_eq.
  - destruct (fs_exists _).
    + destruct (RegisterTexture _ _ _ _) as [[index ts] tm].
      destruct (update_back _ _) as [st1|] eqn:Hupd;
        [|intros [?|?]; done].
      apply update_back_in_table in Hupd; [|done].
      simpl. intros [?|?]; by simplify_eq.
    + intros [?|?]; by simplify_eq.
Qed.

Lemma AnalyzeMtl_line_in_table path (st st' : MtlParser) line code :
  indices_in_table st ->
  (AnalyzeMtl_line path st line = Ok (Continue st')
   \/ AnalyzeMtl_line path st line = Ok (Return code st')) ->
  indices_in_table st'.
Proof.
  intros Hst. unfold AnalyzeMtl_line.
  destruct (skipped line); [intros [?|?]; by simplify_eq|].
  destruct (extract_word line) as [[w rest]|];
    [|simpl; intros [?|?]; by simplify_eq].
  by_directive w.
  all: try (intros [?|?]; by simplify_eq).
  all: try (by apply map_texture_in_table).
  all: try (destruct (update_back _ _) as [st1|] eqn:Hupd;
            [|intros [?|?]; done];
            apply update_back_in_table in Hupd; [|done];
            simpl; intros [?|?]; by simplify_eq).
  intros [?|?]; simplify_eq. by apply declare_material_in_table.
Qed.

Lemma AnalyzeMtl_loop_in_table path lines (st st' : MtlParser) code :
  indices_in_table st ->
  AnalyzeMtl_loop path lines st = Ok (code, st') ->
  indices_in_table st'.
Proof.
  revert st. induction lines as [|line lines IH]; intros st Hst Hrun;
    simpl in Hrun.
  - by simplify_eq.
  - destruct (AnalyzeMtl_line path st line) as [[st1|code1 st1]|] eqn:Hline;
      simpl in Hrun; [| |done].
    + eapply IH; [|done].
      eapply (AnalyzeMtl_line_in_table _ _ _ _ 0%Z); eauto.
    + simplify_eq. eapply AnalyzeMtl_line_in_table; eauto.
Qed.

(** Started on empty tables, as [wmain] does, [AnalyzeMtl] leaves a
    name map whose indices all point into the material table. *)
Lemma AnalyzeMtl_in_table file path code (st : MtlParser) :
  AnalyzeMtl file path [] ∅ [] = Ok (code, st) ->
  forall name index, materialIndexMap st !! name = Some index ->
    (0 <= index < Z.of_nat (length (materials st)))%Z.
Proof.
  unfold AnalyzeMtl. destruct file as [lines|].
  - intros Hrun. eapply AnalyzeMtl_loop_in_table in Hrun; [apply Hrun|].
    split; simpl; [lia | by intros ? ?].
  - intros [= <- <-]. simpl. by intros ? ?.
Qed.
End MaterialFacts.

(** ** Mesh records *)

Section MeshRecords.
Context `{FloatOps} `{!DirectXMath}.

Lemma add_subMesh_recorded (object : Object) materialIndexMap subs st
    subMesh st' :
  recorded materialIndexMap subs st ->
  add_subMesh object materialIndexMap st subMesh = Ok st' ->
  recorded materialIndexMap (subs ++ [subMesh]) st'.
Proof.
  unfold recorded, add_subMesh. intros [Hrec Hbuf].
  destruct (materialIndexMap !! material subMesh) as [index|] eqn:Hindex;
    [|done].
  intros [Hinfo Hlen]%add_faces_frame. simpl in Hinfo, Hlen.
  rewrite Hinfo, Hlen. split.
  - apply Forall2_app; [done|]. by repeat constructor.
  - apply Forall_app. split.
    + eapply Forall_impl; [done|]. unfold record_in_buffer. simpl. lia.
    + repeat constructor; simpl.
      * apply to_uint32_range.
      * apply to_uint32_range.
      * pose proof (to_uint32_le (Z.of_nat (length (indexBuffer st)))).
        pose proof (to_uint32_le (Z.of_nat (length (faces subMesh)))).
        lia.
Qed.

Lemma CreateBufferData_run_recorded (object : Object) materialIndexMap st :
  CreateBufferData_run object materialIndexMap [] [] [] = Ok st ->
  recorded materialIndexMap (subMeshes_of object) st.
Proof.
  unfold CreateBufferData_run. intros Hrun.
  apply (for_each_ghost (recorded materialIndexMap)
           (add_mesh object materialIndexMap) subMeshs) with (g := [])
    in Hrun; [done| |by split; constructor].
  intros subs s mesh s'.
  apply (for_each_ghost_each (recorded materialIndexMap)
           (add_subMesh object materialIndexMap)).
  apply add_subMesh_recorded.
Qed.
End MeshRecords.

Section MeshRecordsOfConversion.
Context `{FloatOps} `{!DirectXMath} `{Platform}.

(** C9.  After the consolidation [wmain] runs, on the name map that
    [AnalyzeMtl] built from empty tables: there is one mesh record per
    submesh, in encounter order, carrying the index the map gives the
    submesh's material and its triangle count; for every record
    [startIndex + primCount * 3] is at most the length of the index
    buffer, and [materialIndex] is a position of the material
    table. *)
Theorem CreateBufferData_meshInfo (object : Object)
    (file : option (list string)) (path : string) (code : Z)
    (mats : MtlParser) (meshInfo : list MeshInfo)
    (vertexBuffer : list VertexPositionNormalTextureTangent)
    (indexBuffer : list Z) :
  AnalyzeMtl file path [] ∅ [] = Ok (code, mats) ->
  CreateBufferData object (materialIndexMap mats) [] [] [] =
    Ok (meshInfo, vertexBuffer, indexBuffer) ->
  Forall2 (fun subMesh r =>
             materialIndexMap mats !! material subMesh = Some (materialIndex r)
             /\ primCount r = to_uint32 (Z.of_nat (length (faces subMesh))))
          (subMeshes_of object) meshInfo
  /\ Forall (fun r =>
               (startIndex r + primCount r * 3
                <= Z.of_nat (length indexBuffer))%Z
               /\ (0 <= materialIndex r
                   < Z.of_nat (length (materials mats)))%Z)
            meshInfo.
Proof.
  intros Hmtl Hrun. unfold CreateBufferData in Hrun.
  apply bind_Ok in Hrun as (st & Hst & [= <- <- <-]).
  apply CreateBufferData_run_recorded in Hst as [Hrec Hbuf].
  split; [done|].
  apply Forall_forall. intros r Hr. split.
  - rewrite Forall_forall in Hbuf. by apply Hbuf in Hr as (_ & _ & ?).
  - apply list_elem_of_lookup_1 in Hr as [i Hi].
    destruct (Forall2_lookup_r _ _ _ _ _ Hrec Hi) as (sub & _ & Hsub & _).
    by eapply AnalyzeMtl_in_table.
Qed.
End MeshRecordsOfConversion.

(** ** Tangent accumulation *)

Section TangentFacts.
Context `{FloatOps} `{!DirectXMath}.

Lemma set_spec (acc : Accum) n (idx : Z) t b :
  accum_sized n acc -> Z.to_nat idx < n ->
  exists acc', set acc idx t b = Ok acc'
    /\ accum_sized n acc'
    /\ tanAccum acc' = <[Z.to_nat idx := t]> (tanAccum acc)
    /\ bitanAccum acc' = <[Z.to_nat idx := b]> (bitanAccum acc).
Proof.
  intros [Ht Hb] Hidx. unfold set, at_index.
  destruct (lookup_lt_is_Some_2 (tanAccum acc) (Z.to_nat idx)) as [ta ->];
    [lia|].
  destruct (lookup_lt_is_Some_2 (bitanAccum acc) (Z.to_nat idx)) as [ba ->];
    [lia|].
  simpl. eexists. split; [done|]. split; [|done].
  split; simpl; by rewrite length_insert.
Qed.

Lemma add_spec (acc : Accum) n (idx : Z) t b :
  accum_sized n acc -> Z.to_nat idx < n ->
  exists acc', add acc idx t b = Ok acc'
    /\ accum_sized n acc'
    /\ tanAccum acc' =
         alter (fun a => v_add a t) (Z.to_nat idx) (tanAccum acc)
    /\ bitanAccum acc' =
         alter (fun a => v_add a b) (Z.to_nat idx) (bitanAccum acc).
Proof.
  intros [Ht Hb] Hidx. unfold add, at_index.
  destruct (lookup_lt_is_Some_2 (tanAccum acc) (Z.to_nat idx)) as [ta Hta];
    [lia|].
  destruct (lookup_lt_is_Some_2 (bitanAccum acc) (Z.to_nat idx)) as [ba Hba];
    [lia|].
  rewrite Hta, Hba. simpl. eexists. split; [done|].
  split; [split; simpl; by rewrite length_insert|].
  split; simpl; apply list_eq; intros j;
    (destruct (decide (j = Z.to_nat idx)) as [->|Hne];
     [rewrite list_lookup_insert_eq, list_lookup_alter_eq by lia;
      by first [rewrite Hta | rewrite Hba]
     |by rewrite list_lookup_insert_ne, list_lookup_alter_ne by done]).
Qed.
End TangentFacts.

Section TriangleStep.
Context `{FloatOps} `{!DirectXMath}.



Lemma isFlatFace_at (vertices : list Vertex) i0 i1 i2 v0 v1 v2 :
  vertices !! Z.to_nat i0 = Some v0 ->
  vertices !! Z.to_nat i1 = Some v1 ->
  vertices !! Z.to_nat i2 = Some v2 ->
  isFlatFace vertices i0 i1 i2 = Ok (flat_normals v0 v1 v2).
Proof. intros E0 E1 E2. unfold isFlatFace, at_index. by rewrite E0, E1, E2. Qed.

(** The three cases of the loop body, as equations on the
    accumulators. *)
Lemma triangle_cases (vertices : list Vertex) (acc : Accum)
    (i0 i1 i2 : Z) (v0 v1 v2 : Vertex) :
  vertices !! Z.to_nat i0 = Some v0 ->
  vertices !! Z.to_nat i1 = Some v1 ->
  vertices !! Z.to_nat i2 = Some v2 ->
  accum_sized (length vertices) acc ->
  let t := raw_tangent v0 v1 v2 in
  let b := raw_bitangent v0 v1 v2 in
  exists acc',
    triangle vertices acc i0 i1 i2 = Ok acc'
    /\ accum_sized (length vertices) acc'
    /\ (degenerate v0 v1 v2 = true -> acc' = acc)
    /\ (degenerate v0 v1 v2 = false -> flat_normals v0 v1 v2 = true ->
        tanAccum acc' =
          <[Z.to_nat i2 := t]>
            (<[Z.to_nat i1 := t]> (<[Z.to_nat i0 := t]> (tanAccum acc)))
        /\ bitanAccum acc' =
             <[Z.to_nat i2 := b]>
               (<[Z.to_nat i1 := b]> (<[Z.to_nat i0 := b]> (bitanAccum acc))))
    /\ (degenerate v0 v1 v2 = false -> flat_normals v0 v1 v2 = false ->
        tanAccum acc' =
          alter (fun a => v_add a t) (Z.to_nat i2)
            (alter (fun a => v_add a t) (Z.to_nat i1)
               (alter (fun a => v_add a t) (Z.to_nat i0) (tanAccum acc)))
        /\ bitanAccum acc' =
             alter (fun a => v_add a b) (Z.to_nat i2)
               (alter (fun a => v_add a b) (Z.to_nat i1)
                  (alter (fun a => v_add a b) (Z.to_nat i0)
                     (bitanAccum acc)))).
Proof.
  intros E0 E1 E2 Hsized t b.
  pose proof (lookup_lt_Some _ _ _ E0) as L0.
  pose proof (lookup_lt_Some _ _ _ E1) as L1.
  pose proof (lookup_lt_Some _ _ _ E2) as L2.
  unfold triangle, at_index. rewrite E0, E1, E2. simpl.
  destruct (degenerate v0 v1 v2) eqn:Hskip.
  { exists acc. split; [done|]. split; [done|]. split; [done|].
    split; intros; done. }
  rewrite (isFlatFace_at _ _ _ _ _ _ _ E0 E1 E2). simpl.
  fold t b. destruct (flat_normals v0 v1 v2) eqn:Hflat.
  - destruct (set_spec acc _ i0 t b Hsized L0) as (a1 & -> & S1 & T1 & B1).
    simpl.
    destruct (set_spec a1 _ i1 t b S1 L1) as (a2 & -> & S2 & T2 & B2).
    simpl.
    destruct (set_spec a2 _ i2 t b S2 L2) as (a3 & -> & S3 & T3 & B3).
    exists a3. split; [done|]. split; [done|]. split; [done|].
    split; [|done]. intros _ _. by rewrite T3, T2, T1, B3, B2, B1.
  - destruct (add_spec acc _ i0 t b Hsized L0) as (a1 & -> & S1 & T1 & B1).
    simpl.
    destruct (add_spec a1 _ i1 t b S1 L1) as (a2 & -> & S2 & T2 & B2).
    simpl.
    destruct (add_spec a2 _ i2 t b S2 L2) as (a3 & -> & S3 & T3 & B3).
    exists a3. split; [done|]. split; [done|]. split; [done|].
    split; [done|]. intros _ _. by rewrite T3, T2, T1, B3, B2, B1.
Qed.

End TriangleStep.

(** ** The two loops of [GenerateTangents] *)

(** Induction that follows a loop taking three elements at a time. *)
Lemma triples_ind {A} (P : list A -> Prop) :
  P [] -> (forall a, P [a]) -> (forall a b, P [a; b]) ->
  (forall a b c l, P l -> P (a :: b :: c :: l)) ->
  forall l, P l.
Proof.
  intros H0 H1 H2 H3. fix IH 1. intros [|a [|b [|c l]]].
  - exact H0.
  - apply H1.
  - apply H2.
  - apply H3, IH.
Qed.

Section TangentLoops.
Context `{FloatOps} `{!DirectXMath}.

Lemma triangle_Ok (vs : list Vertex) (acc acc' : Accum) i0 i1 i2 :
  triangle vs acc i0 i1 i2 = Ok acc' ->
  exists v0 v1 v2, vs !! Z.to_nat i0 = Some v0
    /\ vs !! Z.to_nat i1 = Some v1 /\ vs !! Z.to_nat i2 = Some v2.
Proof.
  unfold triangle, at_index.
  destruct (vs !! Z.to_nat i0) as [v0|]; [|done].
  destruct (vs !! Z.to_nat i1) as [v1|]; [|done].
  destruct (vs !! Z.to_nat i2) as [v2|]; [|done]. eauto 7.
Qed.

(** A triangle keeps the accumulators sized and leaves the entries of
    the vertices it does not touch. *)
Lemma triangle_frame (vs : list Vertex) (acc acc' : Accum) i0 i1 i2 :
  accum_sized (length vs) acc ->
  triangle vs acc i0 i1 i2 = Ok acc' ->
  accum_sized (length vs) acc'
  /\ forall j, Z.to_nat i0 <> j -> Z.to_nat i1 <> j -> Z.to_nat i2 <> j ->
       tanAccum acc' !! j = tanAccum acc !! j
       /\ bitanAccum acc' !! j = bitanAccum acc !! j.
Proof.
  intros Hsized Hrun.
  destruct (triangle_Ok _ _ _ _ _ _ Hrun) as (v0 & v1 & v2 & E0 & E1 & E2).
  destruct (triangle_cases vs acc i0 i1 i2 v0 v1 v2 E0 E1 E2 Hsized)
    as (acc1 & Hrun1 & Hsized' & Hskip & Hflat & Hsmooth).
  assert (acc1 = acc') as -> by congruence.
  split; [done|]. intros j N0 N1 N2.
  destruct (degenerate v0 v1 v2); [by rewrite Hskip|].
  destruct (flat_normals v0 v1 v2).
  - destruct Hflat as [-> ->]; [done..|].
    by rewrite !list_lookup_insert_ne.
  - destruct Hsmooth as [-> ->]; [done..|].
    by rewrite !list_lookup_alter_ne.
Qed.

Lemma triangles_frame (vs : list Vertex) indices :
  forall acc acc',
  accum_sized (length vs) acc ->
  triangles vs indices acc = Ok acc' ->
  accum_sized (length vs) acc'
  /\ forall j, (forall i, i ∈ indices -> Z.to_nat i <> j) ->
       tanAccum acc' !! j = tanAccum acc !! j
       /\ bitanAccum acc' !! j = bitanAccum acc !! j.
Proof.
  induction indices as [|a|a b|i0 i1 i2 rest IH] using triples_ind;
    intros acc acc' Hsized Hrun; simpl in Hrun.
  1-3: by simplify_eq.
  apply bind_Ok in Hrun as (acc1 & Hstep & Hrun).
  destruct (triangle_frame _ _ _ _ _ _ Hsized Hstep) as [Hsized1 Hframe1].
  destruct (IH _ _ Hsized1 Hrun) as [Hsized' Hframe'].
  split; [done|]. intros j Hj.
  destruct (Hframe' j) as [-> ->].
  { intros i Hi. apply Hj. by do 3 right. }
  apply Hframe1; apply Hj;
    [by left | by right; left | by do 2 right; left].
Qed.

Lemma triangles_total (vs : list Vertex) indices :
  (forall i, i ∈ indices -> Z.to_nat i < length vs) ->
  forall acc, accum_sized (length vs) acc ->
  exists acc', triangles vs indices acc = Ok acc'.
Proof.
  induction indices as [|a|a b|i0 i1 i2 rest IH] using triples_ind;
    intros Hin acc Hsized; simpl; eauto.
  destruct (lookup_lt_is_Some_2 vs (Z.to_nat i0)) as [v0 E0];
    [apply Hin; by left|].
  destruct (lookup_lt_is_Some_2 vs (Z.to_nat i1)) as [v1 E1];
    [apply Hin; by right; left|].
  destruct (lookup_lt_is_Some_2 vs (Z.to_nat i2)) as [v2 E2];
    [apply Hin; by do 2 right; left|].
  destruct (triangle_cases vs acc i0 i1 i2 v0 v1 v2 E0 E1 E2 Hsized)
    as (acc1 & -> & Hsized1 & _).
  simpl. apply IH; [|done]. intros i Hi. apply Hin. by do 3 right.
Qed.

Lemma finish_vertex_at (acc : Accum) (st : TangentStore) i vertex T B :
  vertices st !! i = Some vertex ->
  tanAccum acc !! i = Some T -> bitanAccum acc !! i = Some B ->
  finish_vertex acc st i =
    Ok {| vertices := <[i := finished acc i vertex]> (vertices st);
          tangent_writes := tangent_writes st ++ [i] |}.
Proof.
  intros Ev ET EB. unfold finish_vertex, finished, at_index.
  by rewrite Ev, ET, EB.
Qed.

(** The second loop from position [a] on, for [n] vertices. *)
Lemma finish_loop (acc : Accum) n :
  forall a (st : TangentStore),
  a + n <= length (vertices st) ->
  accum_sized (length (vertices st)) acc ->
  exists st',
    for_each (finish_vertex acc) (seq a n) st = Ok st'
    /\ length (vertices st') = length (vertices st)
    /\ tangent_writes st' = tangent_writes st ++ seq a n
    /\ forall j,
         vertices st' !! j =
           if decide (a <= j < a + n)
           then finished acc j <$> vertices st !! j
           else vertices st !! j.
Proof.
  induction n as [|n IH]; intros a st Hlen Hsized.
  - exists st. simpl. rewrite app_nil_r. repeat split.
    intros j. rewrite decide_False by lia. done.
  - simpl. destruct Hsized as [Ht Hb].
    destruct (lookup_lt_is_Some_2 (vertices st) a) as [vertex Ev]; [lia|].
    destruct (lookup_lt_is_Some_2 (tanAccum acc) a) as [T ET]; [lia|].
    destruct (lookup_lt_is_Some_2 (bitanAccum acc) a) as [B EB]; [lia|].
    rewrite (finish_vertex_at _ _ _ _ _ _ Ev ET EB). simpl.
    edestruct (IH (S a)) as (st' & -> & Hlen' & Hwrites & Hvs).
    { simpl. rewrite length_insert. lia. }
    { simpl. by rewrite length_insert. }
    simpl in *. rewrite length_insert in Hlen'.
    exists st'. split; [done|]. split; [done|].
    split; [by rewrite Hwrites, <- app_assoc|].
    intros j. rewrite Hvs.
    destruct (decide (j = a)) as [->|Hne].
    + rewrite decide_False, decide_True by lia.
      rewrite list_lookup_insert_eq by lia. by rewrite Ev.
    + rewrite list_lookup_insert_ne by lia.
      repeat case_decide; try lia; done.
Qed.

Lemma replicate_sized n :
  accum_sized n {| tanAccum := replicate n zero3;
                   bitanAccum := replicate n zero3 |}.
Proof. split; simpl; apply length_replicate. Qed.

(** What [GenerateTangents] returns, in terms of the accumulators its
    first loop ends with. *)
Lemma GenerateTangents_Ok (vs : list Vertex) indices st :
  GenerateTangents vs indices = Ok st ->
  exists acc,
    triangles vs indices
      {| tanAccum := replicate (length vs) zero3;
         bitanAccum := replicate (length vs) zero3 |} = Ok acc
    /\ accum_sized (length vs) acc
    /\ length (vertices st) = length vs
    /\ tangent_writes st = seq 0 (length vs)
    /\ forall j, vertices st !! j = finished acc j <$> vs !! j.
Proof.
  unfold GenerateTangents. intros Hrun.
  apply bind_Ok in Hrun as (acc & Hacc & Hrun).
  destruct (triangles_frame _ _ _ _ (replicate_sized _) Hacc) as [Hsized _].
  destruct (finish_loop acc (length vs) 0
              {| vertices := vs; tangent_writes := [] |})
    as (st' & Hrun' & Hlen & Hwrites & Hvs); [simpl; lia | done |].
  assert (st' = st) as -> by congruence.
  exists acc. split; [done|]. split; [done|]. split; [done|].
  split; [done|]. intros j. rewrite Hvs. simpl.
  case_decide as Hj; [done|].
  rewrite lookup_ge_None_2 by lia. done.
Qed.

(** C10.  [GenerateTangents] returns whenever every index designates
    a vertex, and when it returns: the vertex buffer has the length
    it had; the vertex at every position has the position, normal and
    texture coordinate it had, and as tangent the value computed from
    its normal and its two accumulators; the assignments to a tangent
    field were made at positions 0, 1, ..., one per vertex and none
    twice; and the accumulators of a vertex that no index designates
    are still zero at that time.  The index buffer is passed as a
    reference to const and is not part of what the function leaves
    behind. *)
Theorem GenerateTangents_frame (vs : list Vertex) (indices : list Z) :
  ((forall i, i ∈ indices -> Z.to_nat i < length vs) ->
   exists st, GenerateTangents vs indices = Ok st)
  /\ forall st, GenerateTangents vs indices = Ok st ->
     exists acc,
       triangles vs indices
         {| tanAccum := replicate (length vs) zero3;
            bitanAccum := replicate (length vs) zero3 |} = Ok acc
       /\ length (vertices st) = length vs
       /\ (forall j old, vs !! j = Some old ->
             exists new T B,
               vertices st !! j = Some new
               /\ tanAccum acc !! j = Some T
               /\ bitanAccum acc !! j = Some B
               /\ position new = position old
               /\ normal new = normal old
               /\ texcoord new = texcoord old
               /\ tangent new = final_tangent (normal old) T B)
       /\ tangent_writes st = seq 0 (length vs)
       /\ NoDup (tangent_writes st)
       /\ (forall j, j ∈ tangent_writes st <-> j < length vs)
       /\ (forall j, j < length vs ->
             (forall i, i ∈ indices -> Z.to_nat i <> j) ->
             tanAccum acc !! j = Some zero3
             /\ bitanAccum acc !! j = Some zero3).
Proof.
  split.
  - intros Hin. unfold GenerateTangents.
    destruct (triangles_total vs indices Hin _ (replicate_sized _))
      as [acc Hacc].
    rewrite Hacc. simpl.
    destruct (triangles_frame _ _ _ _ (replicate_sized _) Hacc) as [Hsized _].
    destruct (finish_loop acc (length vs) 0
                {| vertices := vs; tangent_writes := [] |})
      as (st & Hrun & _); [simpl; lia | done |]. eauto.
  - intros st Hrun.
    destruct (GenerateTangents_Ok _ _ _ Hrun)
      as (acc & Hacc & [Ht Hb] & Hlen & Hwrites & Hvs).
    exists acc. split; [done|]. split; [done|]. split; [|split; [done|]].
    + intros j old Hold. apply lookup_lt_Some in Hold as Hj.
      destruct (lookup_lt_is_Some_2 (tanAccum acc) j) as [T ET]; [lia|].
      destruct (lookup_lt_is_Some_2 (bitanAccum acc) j) as [B EB]; [lia|].
      exists (finished acc j old), T, B. rewrite Hvs, Hold.
      unfold finished. rewrite ET, EB. by repeat split.
    + rewrite Hwrites. split; [apply NoDup_seq|]. split.
      * intros j. rewrite elem_of_seq. lia.
      * intros j Hj Hunused.
        destruct (triangles_frame _ _ _ _ (replicate_sized _) Hacc)
          as [_ Hframe].
        destruct (Hframe j Hunused) as [-> ->]. simpl.
        by rewrite !lookup_replicate_2.
Qed.
End TangentLoops.

(** ** Bytes and 32-bit words *)

Lemma Z_of_byte_of_Z z : Z_of_byte (byte_of_Z z) = (z mod 256)%Z.
Proof.
  unfold Z_of_byte, byte_of_Z.
  assert (Hr : (0 <= z mod 256 < 256)%Z) by (apply Z.mod_pos_bound; lia).
  destruct (Byte.of_N (Z.to_N (z mod 256))) as [b|] eqn:Hb.
  - apply Byte.to_of_N in Hb. simpl. rewrite Hb. lia.
  - apply Byte.of_N_None_iff in Hb. lia.
Qed.

Lemma Z_of_byte_range b : (0 <= Z_of_byte b < 256)%Z.
Proof.
  unfold Z_of_byte. pose proof (Byte.to_N_bounded b). lia.
Qed.

Lemma length_le32 z : length (le32 z) = 4.
Proof. reflexivity. Qed.

Lemma le_value_le32 z : le_value (le32 z) = to_uint32 z.
Proof.
  unfold le32, le_value, to_uint32. rewrite !Z_of_byte_of_Z.
  change (2 ^ 32)%Z with (256 * (256 * (256 * 256)))%Z.
  rewrite !Z.rem_mul_r by lia.
  change (2 ^ 8)%Z with 256%Z.
  change (2 ^ 16)%Z with (256 * 256)%Z.
  change (2 ^ 24)%Z with (256 * 256 * 256)%Z.
  rewrite <- !Z.div_div by lia. lia.
Qed.

Lemma take_le32 z rest : take 4 (le32 z ++ rest) = le32 z.
Proof. reflexivity. Qed.

Lemma drop_le32 z rest : drop 4 (le32 z ++ rest) = rest.
Proof. reflexivity. Qed.

Lemma le_value_range bs : (0 <= le_value bs < 256 ^ Z.of_nat (length bs))%Z.
Proof.
  induction bs as [|b bs IH]; simpl length; [simpl; lia|].
  rewrite Nat2Z.inj_succ, Z.pow_succ_r by lia.
  cbn [le_value]. pose proof (Z_of_byte_range b). lia.
Qed.

(** ** Reading chunks *)

Lemma WriteChunk_app ofs type data :
  WriteChunk ofs type data = ofs ++ chunk_bytes type data.
Proof. unfold WriteChunk, chunk_bytes, ChunkHeader_bytes. simpl. done. Qed.

Lemma length_chunk_bytes type data :
  length (chunk_bytes type data) = 8 + length data.
Proof. unfold chunk_bytes. rewrite !length_app, !length_le32. lia. Qed.

Lemma length_ChunkHeader_bytes header : length (ChunkHeader_bytes header) = 8.
Proof. reflexivity. Qed.



Lemma ifs_read_enough bytes n dest :
  n <= length bytes -> length dest = n ->
  ifs_read (stream_of bytes) n dest = (stream_of (drop n bytes), take n bytes).
Proof.
  intros Hn Hdest. unfold ifs_read, stream_of. simpl.
  destruct (Nat.leb_spec n (length bytes)); [|lia].
  rewrite (drop_ge dest) by lia. by rewrite app_nil_r.
Qed.

Lemma length_resize buffer n : length (resize buffer n) = n.
Proof.
  unfold resize. rewrite length_app, length_take, length_replicate. lia.
Qed.



Lemma header_of_front bytes :
  8 <= length bytes ->
  header_size (ChunkHeader_of_bytes (take 8 bytes))
  = le_value (take 4 (drop 4 bytes)).
Proof.
  intros Hlen. unfold ChunkHeader_of_bytes. simpl.
  by rewrite skipn_firstn_comm, take_take.
Qed.


Lemma ReadChunk_complete bytes header buffer :
  8 <= length bytes ->
  declared_size bytes <= length bytes - 8 ->
  ReadChunk (stream_of bytes) header buffer =
    (true, stream_of (drop (8 + declared_size bytes) bytes),
     ChunkHeader_of_bytes (take 8 bytes),
     take (declared_size bytes) (drop 8 bytes)).
Proof.
  intros Hlen Hfull. unfold ReadChunk.
  rewrite ifs_read_enough by (done || apply length_ChunkHeader_bytes).
  cbv beta iota zeta. rewrite header_of_front by done. fold (declared_size bytes).
  fold (stream_of (drop 8 bytes)).
  rewrite ifs_read_enough
    by (rewrite ?length_drop, ?length_resize; lia).
  simpl. by rewrite drop_drop.
Qed.

(** A chunk as written, followed by anything, reads back whole. *)
Lemma ReadChunk_chunk_bytes type data rest header buffer :
  is_uint32 type -> (Z.of_nat (length data) < 2 ^ 32)%Z ->
  ReadChunk (stream_of (chunk_bytes type data ++ rest)) header buffer =
    (true, stream_of rest,
     {| header_type := type; header_size := Z.of_nat (length data) |}, data).
Proof.
  intros Htype Hdata.
  assert (Hsize : declared_size (chunk_bytes type data ++ rest) = length data).
  { unfold declared_size, chunk_bytes. rewrite <- !app_assoc.
    rewrite drop_le32, take_le32, le_value_le32.
    rewrite !(to_uint32_small (Z.of_nat (length data)))
      by (unfold is_uint32; lia). lia. }
  rewrite ReadChunk_complete.
  - rewrite Hsize. f_equal; [f_equal; [f_equal|]|].
    + rewrite <- length_chunk_bytes with (type := type).
      by rewrite drop_app_length.
    + unfold ChunkHeader_of_bytes, chunk_bytes. rewrite <- !app_assoc.
      change (take 8 (le32 type ++ ?r)) with (le32 type ++ take 4 r).
      rewrite take_le32, drop_le32, !take_le32, !le_value_le32.
      rewrite !(to_uint32_small (Z.of_nat (length data)))
        by (unfold is_uint32; lia).
      change (take 4 (le32 ?z)) with (le32 z).
      rewrite le_value_le32.
      rewrite (to_uint32_small (Z.of_nat (length data)))
        by (unfold is_uint32; lia).
      by rewrite (to_uint32_small type).
    + unfold chunk_bytes. rewrite <- !app_assoc.
      change (drop 8 (le32 type ++ ?r)) with (drop 4 r).
      rewrite drop_le32. by rewrite take_app_length.
  - rewrite length_app, length_chunk_bytes. lia.
  - rewrite Hsize, length_app, length_chunk_bytes. lia.
Qed.


(** ** Sequences of chunks *)

Lemma encode_chunks_cons type data chunks :
  encode_chunks ((type, data) :: chunks)
  = chunk_bytes type data ++ encode_chunks chunks.
Proof. reflexivity. Qed.

Lemma read_chunks_encoded chunks rest :
  Forall chunk_fits chunks ->
  read_chunks (length chunks) (stream_of (encode_chunks chunks ++ rest)) =
    (Some (decoded_chunks chunks), stream_of rest).
Proof.
  induction 1 as [|[type data] chunks [Htype Hdata] _ IH]; [done|].
  cbn [length read_chunks]. rewrite encode_chunks_cons, <- app_assoc.
  rewrite ReadChunk_chunk_bytes by done. rewrite IH. done.
Qed.


Lemma tags_are_uint32 :
  is_uint32 CHUNK_TEXTURE /\ is_uint32 CHUNK_MATERIAL /\ is_uint32 CHUNK_MESH
  /\ is_uint32 CHUNK_VERTEX /\ is_uint32 CHUNK_INDEX.
Proof. unfold is_uint32. vm_compute. intuition congruence. Qed.

Section ContainerFacts.
Context `{FloatOps}.

Lemma OutputImdl_bytes materials meshInfo textures vertexBuffer indexBuffer :
  OutputImdl true materials meshInfo textures vertexBuffer indexBuffer =
    (0%Z,
     Some (FileHeader_bytes
             {| magic := multichar "I" "M" "D" "L"; version := 1;
                chunkCount := 5 |}
           ++ encode_chunks
                (container_chunks materials meshInfo textures vertexBuffer
                   indexBuffer))).
Proof.
  unfold OutputImdl. cbn [negb]. rewrite !WriteChunk_app.
  unfold container_chunks. rewrite !encode_chunks_cons.
  change (encode_chunks []) with (@nil byte).
  by rewrite app_nil_r, <- !app_assoc.
Qed.

Lemma container_chunks_fit materials meshInfo textures vertexBuffer
    indexBuffer :
  Forall (fun c => (Z.of_nat (length c.2) < 2 ^ 32)%Z)
         (container_chunks materials meshInfo textures vertexBuffer
            indexBuffer) ->
  Forall chunk_fits
         (container_chunks materials meshInfo textures vertexBuffer
            indexBuffer).
Proof.
  pose proof tags_are_uint32 as (? & ? & ? & ? & ?).
  unfold container_chunks. rewrite !Forall_cons. unfold chunk_fits.
  simpl. intuition.
Qed.
End ContainerFacts.


Section Container.
Context `{FloatOps}.

(** C5.  The file [OutputImdl] writes once the output is open, when
    each of the five payloads is shorter than 2^32 bytes so that its
    length fits the size field.  It starts with the twelve bytes of
    the file header: the magic, whose value is the ASCII text "IMDL"
    read as a big-endian number, then version 1 and chunk count 5,
    each stored as a 32-bit word.  What follows is exactly five
    chunks: reading them with [ReadChunk] gives, in this order, the
    texture, material, mesh, vertex and index chunk, each with its
    type tag, a size field equal to the length of its payload and the
    payload itself, and leaves no byte unread. *)
Theorem OutputImdl_layout (materials : list MaterialInfo)
    (meshInfo : list MeshInfo) (textures : list TextureEntry)
    (vertexBuffer : list Vertex) (indexBuffer : list Z) :
  Forall (fun c => (Z.of_nat (length c.2) < 2 ^ 32)%Z)
         (container_chunks materials meshInfo textures vertexBuffer
            indexBuffer) ->
  exists file,
    OutputImdl true materials meshInfo textures vertexBuffer indexBuffer
      = (0%Z, Some file)
    /\ le_value (take 4 file) = be_value (list_byte_of_string "IMDL")
    /\ le_value (take 4 (drop 4 file)) = 1%Z
    /\ le_value (take 4 (drop 8 file)) = 5%Z
    /\ drop 12 file =
         encode_chunks
           (container_chunks materials meshInfo textures vertexBuffer
              indexBuffer)
    /\ read_chunks 5 (stream_of (drop 12 file)) =
         (Some
            [({| header_type := CHUNK_TEXTURE;
                 header_size :=
                   Z.of_nat (length (BuildTextureChunk textures)) |},
              BuildTextureChunk textures);
             ({| header_type := CHUNK_MATERIAL;
                 header_size :=
                   Z.of_nat (length (BuildMaterialChunk materials)) |},
              BuildMaterialChunk materials);
             ({| header_type := CHUNK_MESH;
                 header_size :=
                   Z.of_nat (length (BuildMeshChunk meshInfo)) |},
              BuildMeshChunk meshInfo);
             ({| header_type := CHUNK_VERTEX;
                 header_size :=
                   Z.of_nat (length (BuildVertexChunk vertexBuffer)) |},
              BuildVertexChunk vertexBuffer);
             ({| header_type := CHUNK_INDEX;
                 header_size :=
                   Z.of_nat (length (BuildIndexChunk indexBuffer)) |},
              BuildIndexChunk indexBuffer)],
          stream_of []).
Proof.
  intros Hfit%container_chunks_fit. eexists.
  split; [apply OutputImdl_bytes|].
  split; [by vm_compute|]. split; [by vm_compute|]. split; [by vm_compute|].
  split; [done|].
  change (drop 12 (FileHeader_bytes ?h ++ ?r)) with r.
  rewrite <- (app_nil_r (encode_chunks _)).
  apply (read_chunks_encoded _ [] Hfit).
Qed.

End Container.

(** ** The worked examples, evaluated *)

Lemma returned_ok {A} (default : A) (r : outcome A) :
  is_ok r = true -> r = Ok (returned default r).
Proof. destruct r; [reflexivity | discriminate]. Qed.

Lemma returned_pair {A B} (default : A * B) (r : outcome (A * B)) (a : A) :
  is_ok r = true -> (returned default r).1 = a ->
  r = Ok (a, (returned default r).2).
Proof. destruct r as [[x y]|]; simpl; [by intros _ <- | discriminate]. Qed.

Section FanExample.
Import Examples.
#[local] Existing Instance Exact.ops.
#[local] Existing Instance Exact.math.
#[local] Existing Instance fan_platform.

Lemma fixIndex_resolution_witness :
  literal Position "-1/2/1" = Some "-1"
  /\ stoi "-1" = Ok (-1)%Z
  /\ (Z.of_nat (array_length Position fan_object) < 2 ^ 31)%Z
  /\ parse_token fan_object "-1/2/1" = Ok {| v := 4; vt := 1; vn := 0 |}
  /\ (forall idx, parse_token fan_object "-1/2/1" = Ok idx ->
        field Position idx = 4%Z).
Proof.
  split; [reflexivity|]. split; [reflexivity|].
  split; [vm_compute; reflexivity|]. split; [vm_compute; reflexivity|].
  intros idx Hidx.
  destruct (fixIndex_resolution fan_object Position "-1/2/1" "-1" (-1)
              eq_refl eq_refl eq_refl) as (_ & _ & _ & Hok & _).
  destruct (Hok idx Hidx) as (_ & _ & _ & Hlast). exact (Hlast eq_refl).
Defined.

Lemma face_line_fan_witness :
  directive "f 2 3 4 5" = "f"
  /\ pFace before_faces = Some (0, 0)
  /\ target_faces (0, 0) (object before_faces) = Some []
  /\ 3 <= length (face_tokens "f 2 3 4 5")
  /\ exists st' tris,
       AnalyzeObj_line before_faces "f 2 3 4 5" = Ok (Continue st')
       /\ target_faces (0, 0) (object st') = Some ([] ++ tris)
       /\ tris =
            [{| faceIndices := ({| v := 1; vt := -1; vn := -1 |},
                                {| v := 2; vt := -1; vn := -1 |},
                                {| v := 3; vt := -1; vn := -1 |}) |};
             {| faceIndices := ({| v := 1; vt := -1; vn := -1 |},
                                {| v := 3; vt := -1; vn := -1 |},
                                {| v := 4; vt := -1; vn := -1 |}) |}].
Proof.
  assert (Hdir : directive "f 2 3 4 5" = "f") by (vm_compute; reflexivity).
  assert (Hp : pFace before_faces = Some (0, 0))
    by (vm_compute; reflexivity).
  assert (Hold : target_faces (0, 0) (object before_faces) = Some [])
    by (vm_compute; reflexivity).
  assert (Hk : 3 <= length (face_tokens "f 2 3 4 5"))
    by (vm_compute; lia).
  assert (Htok : Forall2
            (fun token corner =>
               parse_token (object before_faces) token = Ok corner)
            (face_tokens "f 2 3 4 5") quad_corners)
    by (repeat constructor; vm_compute; reflexivity).
  split; [exact Hdir|]. split; [exact Hp|]. split; [exact Hold|].
  split; [exact Hk|].
  destruct (face_line_fan before_faces "f 2 3 4 5" (0, 0) [] quad_corners
              Hdir Hp Hold Htok Hk)
    as (st' & tris & Hrun & Hfaces & _ & _ & Hquad & _).
  exists st', tris. split; [exact Hrun|]. split; [exact Hfaces|].
  exact (Hquad _ _ _ _ eq_refl).
Defined.


Lemma fan_consolidated :
  CreateBufferData_run fan_object (materialIndexMap fan_materials) [] [] []
    = Ok fan_consolidator.
Proof. apply returned_ok. vm_compute. reflexivity. Defined.

Lemma CreateBufferData_consolidates_witness :
  CreateBufferData_run fan_object (materialIndexMap fan_materials) [] [] []
    = Ok fan_consolidator
  /\ (Z.of_nat (length (first_seen (corners_of fan_object))) <= 2 ^ 32)%Z
  /\ length (corners_of fan_object) = 12
  /\ length (vertexBuffer fan_consolidator) = 9
  /\ indexBuffer fan_consolidator
      = [0; 1; 2; 0; 3; 4; 0; 5; 6; 0; 7; 8]%Z
  /\ length (vertexBuffer fan_consolidator)
      = length (first_seen (corners_of fan_object))
  /\ Forall2 (fun c i => indexMap fan_consolidator !! c = Some i)
             (corners_of fan_object) (indexBuffer fan_consolidator)
  /\ length (vertexBuffer fan_consolidator) <= length (corners_of fan_object).
Proof.
  assert (Hbound : (Z.of_nat (length (first_seen (corners_of fan_object)))
                    <= 2 ^ 32)%Z) by (vm_compute; discriminate).
  split; [exact fan_consolidated|]. split; [exact Hbound|].
  split; [vm_compute; reflexivity|]. split; [vm_compute; reflexivity|].
  split; [vm_compute; reflexivity|].
  destruct (CreateBufferData_consolidates fan_object
              (materialIndexMap fan_materials) fan_consolidator
              fan_consolidated Hbound)
    as (_ & _ & Hlen & _ & _ & _ & _ & _ & Hib & Hle).
  split; [exact Hlen|]. split; [exact Hib | exact Hle].
Defined.

Lemma fan_materials_parsed :
  AnalyzeMtl (Some fan_mtl) "fan.mtl" [] ∅ [] = Ok (0%Z, fan_materials).
Proof. apply returned_pair; vm_compute; reflexivity. Defined.

Lemma fan_buffers :
  CreateBufferData fan_object (materialIndexMap fan_materials) [] [] []
    = Ok (meshInfo fan_consolidator, vertexBuffer fan_consolidator,
          indexBuffer fan_consolidator).
Proof. unfold CreateBufferData. rewrite fan_consolidated. reflexivity. Defined.

Lemma CreateBufferData_meshInfo_witness :
  AnalyzeMtl (Some fan_mtl) "fan.mtl" [] ∅ [] = Ok (0%Z, fan_materials)
  /\ CreateBufferData fan_object (materialIndexMap fan_materials) [] [] []
      = Ok (meshInfo fan_consolidator, vertexBuffer fan_consolidator,
            indexBuffer fan_consolidator)
  /\ meshInfo fan_consolidator
      = [{| startIndex := 0; primCount := 4; materialIndex := 0 |}]
  /\ Forall (fun r =>
               (startIndex r + primCount r * 3
                <= Z.of_nat (length (indexBuffer fan_consolidator)))%Z
               /\ (0 <= materialIndex r
                   < Z.of_nat (length (materials fan_materials)))%Z)
            (meshInfo fan_consolidator).
Proof.
  split; [exact fan_materials_parsed|]. split; [exact fan_buffers|].
  split; [vm_compute; reflexivity|].
  exact (proj2 (CreateBufferData_meshInfo fan_object (Some fan_mtl) "fan.mtl"
                  0%Z fan_materials _ _ _ fan_materials_parsed fan_buffers)).
Defined.


Lemma fan_tangents_generated :
  GenerateTangents (vertexBuffer fan_consolidator)
    (indexBuffer fan_consolidator) = Ok fan_tangents.
Proof. apply returned_ok. vm_compute. reflexivity. Defined.

Lemma GenerateTangents_frame_witness :
  GenerateTangents (vertexBuffer fan_consolidator)
    (indexBuffer fan_consolidator) = Ok fan_tangents
  /\ tangent_writes fan_tangents = [0; 1; 2; 3; 4; 5; 6; 7; 8]
  /\ length (vertices fan_tangents) = length (vertexBuffer fan_consolidator)
  /\ NoDup (tangent_writes fan_tangents)
  /\ (forall j old, vertexBuffer fan_consolidator !! j = Some old ->
        exists new, vertices fan_tangents !! j = Some new
          /\ position new = position old /\ normal new = normal old
          /\ texcoord new = texcoord old).
Proof.
  split; [exact fan_tangents_generated|].
  split; [vm_compute; reflexivity|].
  destruct (GenerateTangents_frame (vertexBuffer fan_consolidator)
              (indexBuffer fan_consolidator)) as [_ Hframe].
  destruct (Hframe fan_tangents fan_tangents_generated)
    as (acc & _ & Hlen & Hfields & _ & Hnodup & _).
  split; [exact Hlen|]. split; [exact Hnodup|].
  intros j old Hold.
  destruct (Hfields j old Hold)
    as (new & T & B & Hnew & _ & _ & Hp & Hn & Ht & _).
  exists new. split; [exact Hnew|]. split; [exact Hp|].
  split; [exact Hn | exact Ht].
Defined.

Lemma fan_chunks_fit :
  Forall (fun c => (Z.of_nat (length c.2) < 2 ^ 32)%Z) fan_chunks.
Proof.
  unfold fan_chunks, container_chunks.
  repeat (constructor; [vm_compute; reflexivity|]). constructor.
Defined.


Lemma OutputImdl_layout_witness :
  Forall (fun c => (Z.of_nat (length c.2) < 2 ^ 32)%Z) fan_chunks
  /\ take 12 fan_file
      = [Byte.x4c; Byte.x44; Byte.x4d; Byte.x49;
         Byte.x01; Byte.x00; Byte.x00; Byte.x00;
         Byte.x05; Byte.x00; Byte.x00; Byte.x00]
  /\ exists file,
       OutputImdl true (materials fan_materials) (meshInfo fan_consolidator)
         (textures fan_materials) (vertices fan_tangents)
         (indexBuffer fan_consolidator) = (0%Z, Some file)
       /\ le_value (take 4 file) = be_value (list_byte_of_string "IMDL")
       /\ (read_chunks 5 (stream_of (drop 12 file))).2 = stream_of [].
Proof.
  split; [exact fan_chunks_fit|]. split; [vm_compute; reflexivity|].
  destruct (OutputImdl_layout (materials fan_materials)
              (meshInfo fan_consolidator) (textures fan_materials)
              (vertices fan_tangents) (indexBuffer fan_consolidator)
              fan_chunks_fit)
    as (file & Hfile & Hmagic & _ & _ & _ & Hread).
  exists file. split; [exact Hfile|]. split; [exact Hmagic|].
  exact (f_equal snd Hread).
Defined.

End FanExample.

(** ** What a codec failure does to a material line *)

Section CodecFailure.
Context `{FloatOps} `{Platform}.

Lemma RegisterTexture_codec_failure p type textures textureIndexMap :
  textureIndexMap !! (p, type) = None ->
  codec_fails p type ->
  RegisterTexture p type textures textureIndexMap
    = ((-1)%Z, textures, textureIndexMap).
Proof.
  intros Hfresh Hfails. unfold RegisterTexture. rewrite Hfresh.
  destruct Hfails as [-> | (image & -> & ->)]; reflexivity.
Qed.

(** A "map_Kd" or "map_Bump" line whose file exists and is refused by
    the codec is not an error for [AnalyzeMtl]: the loop goes on, with
    -1 assigned to the slot of the current material and the texture
    tables as they were. *)
Lemma map_texture_codec_failure path type assign (st : MtlParser) iss m :
  last (materials st) = Some m ->
  ExtractTextureFilename iss <> EmptyString ->
  fs_exists (ExtractTextureFilename iss) = true ->
  textureIndexMap st !! (ExtractTextureFilename iss, type) = None ->
  codec_fails (ExtractTextureFilename iss) type ->
  map_texture path type assign st iss =
    Ok (Continue
          (with_materials st
             (<[(length (materials st) - 1)%nat := assign m (-1)%Z]>
                (materials st)))).
Proof.
  intros Hlast Hname Hexists Hfresh Hfails. unfold map_texture.
  destruct (materials st) as [|m0 ms] eqn:Hms; [done|].
  rewrite <- Hms in *. clear Hms.
  destruct (ExtractTextureFilename iss) as [|c name] eqn:Hn; [done|].
  rewrite Hexists.
  rewrite (RegisterTexture_codec_failure _ _ _ _ Hfresh Hfails).
  unfold update_back. cbn [materials]. rewrite Hlast. reflexivity.
Qed.
End CodecFailure.

Section WoodExample.
Import Examples.
#[local] Existing Instance Exact.ops.
#[local] Existing Instance Exact.math.

(** C6 (the code departs from it).  A material whose "map_Kd" names
    a file that exists but that [LoadFromWICFile] cannot read:
    [RegisterTexture] returns -1, [AnalyzeMtl] stores that -1, the
    value of an absent slot, in the material, goes on and returns 0;
    no texture is registered, and [wmain] writes the container and
    exits with 0.  When the file is missing instead, [AnalyzeMtl]
    returns -1 and [wmain] exits with 1 without writing a file. *)
Theorem map_Kd_codec_failure_is_silent :
  (@fs_exists wood_platform "wood.tga" = true
   /\ @LoadFromWICFile wood_platform "wood.tga" = None
   /\ @RegisterTexture wood_platform "wood.tga" BaseColor [] ∅
      = ((-1)%Z, [], ∅)
   /\ (exists st,
         @AnalyzeMtl Exact.ops wood_platform (Some wood_mtl) "fan.mtl" [] ∅ []
           = Ok (0%Z, st)
         /\ baseColorTexIndex <$> materials st = [(-1)%Z]
         /\ textures st = [])
   /\ exists file,
        @wmain Exact.ops Exact.math wood_platform "fan.obj" "fan.imdl"
          = Ok (0%Z, Some file))
  /\ (@fs_exists lost_platform "wood.tga" = false
      /\ (exists st,
            @AnalyzeMtl Exact.ops lost_platform (Some wood_mtl) "fan.mtl"
              [] ∅ [] = Ok ((-1)%Z, st))
      /\ @wmain Exact.ops Exact.math lost_platform "fan.obj" "fan.imdl"
         = Ok (1%Z, None)).
Proof.
  split.
  - split; [reflexivity|]. split; [reflexivity|].
    split; [vm_compute; reflexivity|]. split.
    + eexists. split; [apply (returned_pair (0%Z, MtlParser_empty));
                       vm_compute; reflexivity|].
      split; vm_compute; reflexivity.
    + eexists. vm_compute. reflexivity.
  - split; [reflexivity|]. split.
    + eexists. apply (returned_pair (0%Z, MtlParser_empty));
        vm_compute; reflexivity.
    + vm_compute. reflexivity.
Qed.
End WoodExample.

(* ===================================================================== *)
(** * Further properties of the code *)
(* ===================================================================== *)

(** ** Further properties of [AnalyzeObj] *)

Section ObjLines.
Context `{FloatOps}.

Lemma AnalyzeObj_line_other (st : ObjParser) line :
  acts_on line = false -> AnalyzeObj_line st line = Ok (Continue st).
Proof.
  unfold acts_on, directive, AnalyzeObj_line, obj_directives.
  destruct (skipped line); [done|].
  destruct (extract_word line) as [[w rest]|]; [|done].
  intros Hno. apply bool_decide_eq_false in Hno.
  rewrite !not_elem_of_cons in Hno.
  by_directive w; try done; intuition congruence.
Qed.

(** X1.  Lines that carry none of the seven directives the parser
    looks for (comments, blank lines, "g", "s" and anything else)
    have no effect at all: parsing a file gives the same result,
    return code included, as parsing it with those lines removed. *)
Theorem AnalyzeObj_other_lines_ignored (lines : list string) (st : ObjParser) :
  AnalyzeObj_loop (filter (fun line => acts_on line = true) lines) st
  = AnalyzeObj_loop lines st.
Proof.
  revert st. induction lines as [|line lines IH]; intros st; [done|].
  rewrite filter_cons. destruct (decide (acts_on line = true)) as [Hon|Hoff].
  - simpl. destruct (AnalyzeObj_line st line) as [[st'|code st']|]; simpl;
      [apply IH | done..].
  - apply not_true_is_false in Hoff. simpl.
    rewrite (AnalyzeObj_line_other _ _ Hoff). simpl. apply IH.
Qed.
End ObjLines.

Section ObjArrays.
Context `{FloatOps}.

Lemma push_fan_arrays (p : face_target) result (o o' : Object) :
  push_fan p result o = Ok o' ->
  same_arrays o o' /\ length (meshes o') = length (meshes o).
Proof.
  unfold push_fan. destruct (length result <? 2); [done|].
  apply (for_each_invariant
           (fun o1 => same_arrays o o1
                      /\ length (meshes o1) = length (meshes o))).
  - intros o1 i o2 [Hsame Hlen] Hstep. unfold fan_step, push_face in Hstep.
    run_line Hstep. rewrite length_insert. split; [|done].
    destruct Hsame as (?&?&?&?). by repeat split.
  - by repeat split.
Qed.

(** What one line that does not return does to the three arrays and to
    the number of meshes. *)
Lemma AnalyzeObj_line_arrays (st st' : ObjParser) line :
  AnalyzeObj_line st line = Ok (Continue st') ->
  let grown (d : string) := if decide (directive line = d) then 1 else 0 in
  (exists ps, positions (object st') = positions (object st) ++ ps
              /\ length ps = grown "v")
  /\ (exists ns, normals (object st') = normals (object st) ++ ns
                 /\ length ns = grown "vn")
  /\ (exists ts, texcoords (object st') = texcoords (object st) ++ ts
                 /\ length ts = grown "vt")
  /\ length (meshes (object st')) = length (meshes (object st)) + grown "o".
Proof.
  unfold directive, AnalyzeObj_line.
  destruct (skipped line).
  { intros [= <-]. simpl. repeat split; try (exists []; by rewrite app_nil_r).
    lia. }
  destruct (extract_word line) as [[w rest]|].
  2:{ intros [= <-]. simpl.
      repeat split; try (exists []; by rewrite app_nil_r). lia. }
  intros Hline. cbv zeta.
  by_directive w.
  all: try (injection Hline as <-; simpl;
            repeat split;
            first [ by eexists [_] | by (exists []; rewrite app_nil_r)
                  | by rewrite ?length_app; simpl; lia ]).
  - (* f *)
    destruct (pFace st) as [p|]; [|done].
    destruct (ParseFaceLine _ _) as [result|]; [|done]. simpl in Hline.
    destruct (push_fan p result (object st)) as [o|] eqn:Hfan; [|done].
    injection Hline as <-. simpl.
    apply push_fan_arrays in Hfan as [(_ & Hp & Hn & Ht) Hm].
    rewrite Hp, Hn, Ht, Hm.
    repeat split; try (exists []; by rewrite app_nil_r). lia.
  - (* usemtl *)
    unfold select_material in Hline.
    destruct (last (meshes (object st))); [|done].
    injection Hline as <-. simpl. rewrite length_insert.
    repeat split; try (exists []; by rewrite app_nil_r). lia.
  - injection Hline as <-. rewrite !decide_False by done.
    repeat split; try (exists []; by rewrite app_nil_r). lia.
Qed.

(** X2.  The parser only ever appends to the position, normal and
    texture-coordinate arrays: what a run of lines leaves behind
    starts with what was there before, so an index resolved earlier
    keeps designating the same element.  When the run reaches the end
    of the lines, every "v", "vn" and "vt" line has appended exactly
    one element, whatever follows the directive on the line, and
    every "o" line one mesh. *)
Theorem AnalyzeObj_arrays_grow (lines : list string) (st st' : ObjParser)
    (code : Z) :
  AnalyzeObj_loop lines st = Ok (code, st') ->
  positions (object st) `prefix_of` positions (object st')
  /\ normals (object st) `prefix_of` normals (object st')
  /\ texcoords (object st) `prefix_of` texcoords (object st')
  /\ (code = 0%Z ->
      length (positions (object st'))
        = length (positions (object st)) + count_directive "v" lines
      /\ length (normals (object st'))
         = length (normals (object st)) + count_directive "vn" lines
      /\ length (texcoords (object st'))
         = length (texcoords (object st)) + count_directive "vt" lines
      /\ length (meshes (object st'))
         = length (meshes (object st)) + count_directive "o" lines).
Proof.
  revert st. induction lines as [|line lines IH]; intros st Hrun;
    simpl in Hrun.
  - injection Hrun as <- <-. unfold count_directive. simpl.
    repeat split; try done; lia.
  - destruct (AnalyzeObj_line st line) as [[st1|code1 st1]|] eqn:Hline;
      simpl in Hrun; [| |done].
    + destruct (IH _ Hrun) as (Hp & Hn & Ht & Hcount).
      destruct (AnalyzeObj_line_arrays _ _ _ Hline)
        as ((ps & Hps & Hlp) & (ns & Hns & Hln) & (ts & Hts & Hlt) & Hm).
      split; [etrans; [|exact Hp]; rewrite Hps; by apply prefix_app_r|].
      split; [etrans; [|exact Hn]; rewrite Hns; by apply prefix_app_r|].
      split; [etrans; [|exact Ht]; rewrite Hts; by apply prefix_app_r|].
      intros Hcode. destruct (Hcount Hcode) as (Cp & Cn & Ct & Cm).
      rewrite Cp, Cn, Ct, Cm, Hps, Hns, Hts, Hm, !length_app, Hlp, Hln, Hlt.
      unfold count_directive. rewrite !filter_cons.
      repeat split; repeat case_decide; simpl; first [lia | done].
    + injection Hrun as <- <-.
      apply AnalyzeObj_line_Return in Hline as Hret.
      destruct Hret as (-> & Hdir & Hnone).
      rewrite (AnalyzeObj_line_face _ _ Hdir), Hnone in Hline.
      injection Hline as <-. simpl. by repeat split.
Qed.
End ObjArrays.

Section ObjEdges.
Context `{FloatOps}.

(** Without an "o" line the object has no mesh. *)
Lemma AnalyzeObj_line_no_mesh (st st' : ObjParser) line :
  AnalyzeObj_line st line = Ok (Continue st') ->
  directive line <> "o" ->
  meshes (object st) = [] -> meshes (object st') = [].
Proof.
  intros Hline Hdir Hempty.
  destruct (AnalyzeObj_line_arrays _ _ _ Hline) as (_ & _ & _ & Hm).
  cbv zeta in Hm. rewrite decide_False, Hempty in Hm by done.
  by apply nil_length_inv.
Qed.

Lemma AnalyzeObj_loop_no_mesh (pre : list string) (st st' : ObjParser) :
  AnalyzeObj_loop pre st = Ok (0%Z, st') ->
  Forall (fun line => directive line <> "o") pre ->
  meshes (object st) = [] -> meshes (object st') = [].
Proof.
  revert st. induction pre as [|line pre IH]; intros st Hrun Hall Hempty;
    simpl in Hrun.
  - by simplify_eq.
  - apply Forall_cons in Hall as [Hdir Hall].
    destruct (AnalyzeObj_line st line) as [[st1|code st1]|] eqn:Hline;
      simpl in Hrun; [| |done].
    + eapply IH; [done..|]. by eapply AnalyzeObj_line_no_mesh.
    + apply AnalyzeObj_line_Return in Hline as [-> _]. done.
Qed.

(** X3.  A "usemtl" line that no "o" line precedes: the object has no
    mesh yet, [object.meshes.back()] is called on an empty vector, and
    the behaviour of [AnalyzeObj] is undefined. *)
Theorem usemtl_before_object (object0 : Object) (fname : string)
    (pre post : list string) (line : string) (st : ObjParser) :
  meshes object0 = [] ->
  AnalyzeObj_loop pre (AnalyzeObj_start object0) = Ok (0%Z, st) ->
  Forall (fun l => directive l <> "o") pre ->
  directive line = "usemtl" ->
  AnalyzeObj (Some (pre ++ line :: post)) fname object0
    = Fail undefined_behaviour.
Proof.
  intros Hempty Hpre Hall Hdir. unfold AnalyzeObj.
  rewrite (AnalyzeObj_loop_app _ _ _ _ Hpre). simpl.
  apply AnalyzeObj_loop_no_mesh in Hpre; [|done..].
  revert Hdir. unfold directive, AnalyzeObj_line.
  destruct (skipped line); [done|].
  destruct (extract_word line) as [[w rest]|]; [|done].
  intros ->. simpl. unfold select_material. by rewrite Hpre.
Qed.

(** X4.  A face line with fewer than three corners, met while a face
    target is active and with corner tokens that parse.  With exactly
    two corners the triangulation loop runs zero times: the line adds
    no face and changes nothing, and is not reported.  With one
    corner or none, [result.size() - 2] wraps around in [size_t] and
    the first iteration reads [result] past its end: the behaviour is
    undefined. *)
Theorem face_line_short (st : ObjParser) (line : string) (p : face_target)
    (corners : list FaceIndex) :
  directive line = "f" ->
  pFace st = Some p ->
  Forall2 (fun token corner => parse_token (object st) token = Ok corner)
          (face_tokens line) corners ->
  (length (face_tokens line) = 2 ->
     AnalyzeObj_line st line = Ok (Continue st))
  /\ (length (face_tokens line) < 2 ->
        AnalyzeObj_line st line = Fail undefined_behaviour).
Proof.
  intros Hdir Hp Htok.
  rewrite (AnalyzeObj_line_face _ _ Hdir), Hp.
  rewrite (ParseFaceLine_corners _ _ _ Htok). simpl.
  apply Forall2_length in Htok as Hlen. unfold push_fan.
  split; intros Hk.
  - destruct (Nat.ltb_spec (length corners) 2); [lia|].
    replace (length corners - 2) with 0 by lia. simpl.
    by destruct st.
  - destruct (Nat.ltb_spec (length corners) 2); [done | lia].
Qed.
End ObjEdges.

Section CornerShapes.
Context `{FloatOps}.

(** X5.  A component a corner token does not carry (the token stops
    before its field, as in "7" or "7/2", or leaves the field empty,
    as in "7//3") is stored as [-1] in the corner that is produced,
    whatever the lengths of the arrays. *)
Theorem absent_component (object : Object) (token : string)
    (idx : FaceIndex) (c : component) :
  parse_token object token = Ok idx ->
  literal c token = None ->
  field c idx = (-1)%Z.
Proof.
  unfold parse_token. intros Hparse Hlit.
  destruct (getline_delim "/" token) as [[s1 t1]|] eqn:H1.
  2:{ injection Hparse as <-. by destruct c. }
  apply bind_Ok in Hparse as (iv & Hiv & Hparse).
  destruct (getline_delim "/" t1) as [[s2 t2]|] eqn:H2.
  - apply bind_Ok in Hparse as (ivt & Hivt & Hparse).
    apply fix_optional_Ok in Hivt.
    destruct (getline_delim "/" t2) as [[s3 t3]|] eqn:H3.
    + apply bind_Ok in Hparse as (ivn & Hivn & Hparse).
      apply fix_optional_Ok in Hivn.
      injection Hparse as <-.
      destruct c; simpl in Hlit; step_literal Hlit.
      * done.
      * by destruct s2.
      * by destruct s3.
    + injection Hparse as <-.
      destruct c; simpl in Hlit; step_literal Hlit.
      * done.
      * by destruct s2.
      * done.
  - injection Hparse as <-.
    destruct c; simpl in Hlit; step_literal Hlit; done.
Qed.
End CornerShapes.

(** ** When the consolidator returns *)

Lemma for_each_Fail {A S} (body : S -> A -> outcome S) l s f :
  for_each body l s = Fail f ->
  exists x s1, x ∈ l /\ body s1 x = Fail f.
Proof.
  revert s. induction l as [|x l IH]; intros s Hrun; simpl in Hrun; [done|].
  destruct (body s x) as [s1|g] eqn:Hbody; simpl in Hrun.
  - destruct (IH _ Hrun) as (y & s2 & Hy & Hfail).
    exists y, s2. split; [by right | done].
  - injection Hrun as ->. exists x, s. split; [by left | done].
Qed.

Section ConsolidatorReturns.
Context `{FloatOps} `{!DirectXMath}.

Lemma at_int_cases {A} (vec : list A) (i : Z) :
  match at_int vec i with
  | Ok _ => (0 <= i < Z.of_nat (length vec))%Z
  | Fail f => f = undefined_behaviour
              /\ ~ (0 <= i < Z.of_nat (length vec))%Z
  end.
Proof.
  unfold at_int, at_index. destruct (Z.ltb_spec i 0); [split; [done | lia]|].
  destruct (vec !! Z.to_nat i) eqn:Hi.
  - apply lookup_lt_Some in Hi. lia.
  - apply lookup_ge_None in Hi. split; [done | lia].
Qed.

Lemma MakeVertex_cases (object : Object) corner :
  match MakeVertex object corner with
  | Ok _ => in_bounds object corner
  | Fail f => f = undefined_behaviour /\ ~ in_bounds object corner
  end.
Proof.
  unfold MakeVertex, in_bounds.
  pose proof (at_int_cases (positions object) (v corner)) as Hv.
  pose proof (at_int_cases (normals object) (vn corner)) as Hvn.
  pose proof (at_int_cases (texcoords object) (vt corner)) as Hvt.
  destruct (at_int (positions object) (v corner)); simpl;
    [|split; [tauto | lia]].
  destruct (Z.geb_spec (vn corner) 0); simpl.
  - destruct (at_int (normals object) (vn corner)); simpl;
      [|split; [tauto | lia]].
    destruct (Z.geb_spec (vt corner) 0); simpl; [|lia].
    destruct (at_int (texcoords object) (vt corner)); simpl;
      [lia | split; [tauto | lia]].
  - destruct (Z.geb_spec (vt corner) 0); simpl; [|lia].
    destruct (at_int (texcoords object) (vt corner)); simpl;
      [lia | split; [tauto | lia]].
Qed.

Lemma corner_of_face (object : Object) mesh subMesh face corner :
  mesh ∈ meshes object -> subMesh ∈ subMeshs mesh ->
  face ∈ faces subMesh -> corner ∈ face_corners face ->
  corner ∈ corners_of object.
Proof.
  intros Hmesh HsubMesh Hface Hcorner.
  apply list_elem_of_join. exists (mesh_corners mesh).
  split; [|by apply list_elem_of_fmap_2].
  apply list_elem_of_join. exists (subMesh_corners subMesh).
  split; [|by apply list_elem_of_fmap_2].
  apply list_elem_of_join. exists (face_corners face).
  split; [done | by apply list_elem_of_fmap_2].
Qed.

Lemma CreateBufferData_run_Fail (object : Object) materialIndexMap
    meshInfo0 vertexBuffer0 indexBuffer0 f :
  CreateBufferData_run object materialIndexMap meshInfo0 vertexBuffer0
    indexBuffer0 = Fail f ->
  (f = undefined_behaviour
   /\ exists corner, corner ∈ corners_of object /\ ~ in_bounds object corner)
  \/ (exists subMesh, subMesh ∈ subMeshes_of object
        /\ materialIndexMap !! material subMesh = None
        /\ f = runtime_error ("Material not found: " +:+ material subMesh)).
Proof.
  unfold CreateBufferData_run. intros Hrun.
  apply for_each_Fail in Hrun as (mesh & s1 & Hmesh & Hrun).
  apply for_each_Fail in Hrun as (subMesh & s2 & HsubMesh & Hrun).
  unfold add_subMesh in Hrun.
  destruct (materialIndexMap !! material subMesh) as [index|] eqn:Hindex.
  - left.
    apply for_each_Fail in Hrun as (face & s3 & Hface & Hrun).
    apply for_each_Fail in Hrun as (corner & s4 & Hcorner & Hrun).
    unfold add_corner in Hrun.
    destruct (indexMap s4 !! corner); [done|].
    pose proof (MakeVertex_cases object corner) as Hcases.
    destruct (MakeVertex object corner); [done|]. injection Hrun as ->.
    destruct Hcases as [-> Hout]. split; [done|].
    exists corner. split; [by eapply corner_of_face | done].
  - right. injection Hrun as <-. exists subMesh.
    split; [|done]. apply list_elem_of_join. exists (subMeshs mesh).
    split; [done | by apply list_elem_of_fmap_2].
Qed.

(** X6.  [CreateBufferData], called on empty buffers, returns exactly
    when every submesh names a material of the index map and every
    corner designates an existing position and, where its normal or
    texture-coordinate index is not negative, an existing normal or
    texture coordinate.  Otherwise it either throws the runtime error
    "Material not found: " followed by the name of a submesh material
    the map lacks, or reads an array past its end for some corner,
    which is undefined behaviour. *)
Theorem CreateBufferData_returns_iff (object : Object)
    (materialIndexMap : gmap string Z) :
  ((exists out, CreateBufferData object materialIndexMap [] [] [] = Ok out)
   <-> (forall subMesh, subMesh ∈ subMeshes_of object ->
          is_Some (materialIndexMap !! material subMesh))
       /\ (forall corner, corner ∈ corners_of object ->
             in_bounds object corner))
  /\ (forall f, CreateBufferData object materialIndexMap [] [] [] = Fail f ->
        (f = undefined_behaviour
         /\ exists corner, corner ∈ corners_of object
                           /\ ~ in_bounds object corner)
        \/ (exists subMesh, subMesh ∈ subMeshes_of object
              /\ materialIndexMap !! material subMesh = None
              /\ f = runtime_error
                       ("Material not found: " +:+ material subMesh))).
Proof.
  unfold CreateBufferData. split; [split|].
  - intros [out Hout].
    destruct (CreateBufferData_run object materialIndexMap [] [] [])
      as [st|] eqn:Hrun; [|done].
    split.
    + intros subMesh HsubMesh.
      apply CreateBufferData_run_recorded in Hrun as [Hrec _].
      apply list_elem_of_lookup in HsubMesh as [i Hi].
      destruct (Forall2_lookup_l _ _ _ _ _ Hrec Hi) as (r & _ & Hr & _).
      by rewrite Hr.
    + intros corner Hcorner.
      apply CreateBufferData_run_consolidated in Hrun
        as (_ & _ & Hmade & _).
      apply first_seen_elem_of, list_elem_of_lookup in Hcorner as [j Hj].
      destruct (Hmade j corner Hj) as (vertex & _ & Hvertex).
      pose proof (MakeVertex_cases object corner) as Hcases.
      by rewrite Hvertex in Hcases.
  - intros [Hmat Hin].
    destruct (CreateBufferData_run_total object materialIndexMap [] [] []
                Hmat Hin) as [st ->]. simpl. eauto.
  - intros f Hfail.
    destruct (CreateBufferData_run object materialIndexMap [] [] [])
      as [st|g] eqn:Hrun; [done|]. injection Hfail as <-.
    by eapply CreateBufferData_run_Fail.
Qed.
End ConsolidatorReturns.

(** ** Further properties of the material parser *)

Section TextureTable.
Context `{Platform}.

(** X7.  Registering a texture that is not in the table yet and that
    the codec accepts, while the table has fewer than 2^31 entries:
    the entry, with the requested type and the converted data, is
    appended, its position is returned and recorded under the key
    (path, type), and no other key changes.  Registering the same
    path with the same type again returns the same index and leaves
    both tables as they are: an image is converted once. *)
Theorem RegisterTexture_registers_once (path : string) (type : TextureType)
    (textures : list TextureEntry)
    (textureIndexMap : gmap (string * TextureType) Z)
    (image : ScratchImage) (dds : list byte) :
  textureIndexMap !! (path, type) = None ->
  LoadFromWICFile path = Some image ->
  ConvertToDDSMemory image type = Some dds ->
  (Z.of_nat (length textures) < 2 ^ 31)%Z ->
  let index := Z.of_nat (length textures) in
  let textures' :=
    textures ++ [{| entry_type := type; entry_data := dds |}] in
  let textureIndexMap' := <[(path, type) := index]> textureIndexMap in
  RegisterTexture path type textures textureIndexMap
    = (index, textures', textureIndexMap')
  /\ textures' !! Z.to_nat index
     = Some {| entry_type := type; entry_data := dds |}
  /\ (forall key, key <> (path, type) ->
        textureIndexMap' !! key = textureIndexMap !! key)
  /\ RegisterTexture path type textures' textureIndexMap'
     = (index, textures', textureIndexMap').
Proof.
  intros Hfresh Hload Hconv Hlen index textures' textureIndexMap'.
  split; [|split; [|split]].
  - unfold RegisterTexture. rewrite Hfresh, Hload, Hconv.
    rewrite to_int_small; [done|]. unfold is_int. lia.
  - subst index textures'. rewrite Nat2Z.id.
    rewrite lookup_app_r by lia. by rewrite Nat.sub_diag.
  - intros key Hkey. subst textureIndexMap'.
    by rewrite lookup_insert_ne.
  - unfold RegisterTexture. subst textureIndexMap'.
    by rewrite lookup_insert_eq.
Qed.
End TextureTable.

Section MaterialEdges.
Context `{FloatOps} `{Platform}.

(** X8.  Material files whose first effective line is not "newmtl".
    A "Kd", "Ks", "Ns" or "Ke" line met while the material table is
    empty calls [materials.back()] on an empty vector: the behaviour
    is undefined.  A "map_Kd" or "map_Bump" line met then is skipped
    without any effect, whatever file it names. *)
Theorem property_before_newmtl (path : string) (line : string)
    (rest : list string) (materialIndexMap : gmap string Z)
    (textures : list TextureEntry) :
  (directive line ∈ ["Kd"; "Ks"; "Ns"; "Ke"] ->
     AnalyzeMtl (Some (line :: rest)) path [] materialIndexMap textures
       = Fail undefined_behaviour)
  /\ (directive line ∈ ["map_Kd"; "map_Bump"] ->
        AnalyzeMtl (Some (line :: rest)) path [] materialIndexMap textures
          = AnalyzeMtl (Some rest) path [] materialIndexMap textures).
Proof.
  unfold AnalyzeMtl, directive. simpl. unfold AnalyzeMtl_line.
  destruct (skipped line);
    [split; intros Hin; rewrite !elem_of_cons, elem_of_nil in Hin;
     intuition congruence|].
  destruct (extract_word line) as [[w iss]|];
    [|split; intros Hin; rewrite !elem_of_cons, elem_of_nil in Hin;
      intuition congruence].
  split; intros Hin; rewrite !elem_of_cons, elem_of_nil in Hin.
  - by_directive w; try done; intuition congruence.
  - by_directive w; try done; intuition congruence.
Qed.

(** X9.  A "map_Kd" or "map_Bump" line of a material, when no file
    name is left once the options are removed, or when the named file
    exists neither as written nor, under its file name, in the
    directory of the material file: [AnalyzeMtl] returns -1 at once,
    the remaining lines are not read, and the materials, the name map
    and the texture table stay as they were.  In the second case the
    message names the path in the directory of the material file. *)
Theorem texture_file_not_found (path : string) (st : MtlParser)
    (line : string) (rest : list string) :
  directive line = "map_Kd" \/ directive line = "map_Bump" ->
  materials st <> [] ->
  let name := ExtractTextureFilename (operands line) in
  let fallback := path_append (parent_path path) (path_filename name) in
  (name = EmptyString ->
     AnalyzeMtl_loop path (line :: rest) st = Ok ((-1)%Z, st))
  /\ (name <> EmptyString ->
      fs_exists name = false -> fs_exists fallback = false ->
      AnalyzeMtl_loop path (line :: rest) st =
        Ok ((-1)%Z,
            {| materials := materials st;
               materialIndexMap := materialIndexMap st;
               textures := textures st;
               textureIndexMap := textureIndexMap st;
               m_index := m_index st;
               wcerr := wcerr st ++ ["Texture not found: " +:+ fallback] |})).
Proof.
  intros Hdir Hne name fallback. subst name fallback.
  unfold operands. revert Hdir. simpl.
  unfold directive, AnalyzeMtl_line.
  destruct (skipped line); [by intros [?|?]|].
  destruct (extract_word line) as [[w iss]|]; [|by intros [?|?]].
  intros [-> | ->]; simpl; unfold map_texture;
    (destruct (materials st) as [|m ms] eqn:Hm; [done|]);
    rewrite <- Hm; clear Hm;
    (split; [intros ->; done|]);
    intros Hname Hmiss Hmiss';
    (destruct (ExtractTextureFilename iss) as [|a name]; [done|]);
    rewrite Hmiss, Hmiss'; done.
Qed.
End MaterialEdges.

Section TextureSlots.
Context `{FloatOps} `{Platform}.

Lemma slot_in_table_app textures more type i :
  slot_in_table textures type i -> slot_in_table (textures ++ more) type i.
Proof.
  intros [->|[Hi (e & He & Htype)]]; [by left|].
  right. split; [done|]. exists e. split; [|done].
  by apply lookup_app_l_Some.
Qed.

Lemma material_slots_app textures more (m : MaterialInfo) :
  material_slots textures m -> material_slots (textures ++ more) m.
Proof.
  intros (Hb & Hn & Hm & He).
  repeat split; try done; by apply slot_in_table_app.
Qed.

(** What [RegisterTexture] does to consistent tables. *)
Lemma RegisterTexture_slot path type textures textureIndexMap
    index textures' textureIndexMap' :
  (forall p t i, textureIndexMap !! (p, t) = Some i ->
     slot_in_table textures t i /\ i <> (-1)%Z) ->
  (Z.of_nat (length textures) < 2 ^ 31)%Z ->
  RegisterTexture path type textures textureIndexMap
    = (index, textures', textureIndexMap') ->
  (exists more, textures' = textures ++ more /\ length more <= 1)
  /\ (forall p t i, textureIndexMap' !! (p, t) = Some i ->
        slot_in_table textures' t i /\ i <> (-1)%Z)
  /\ slot_in_table textures' type index.
Proof.
  intros Hmap Hlen. unfold RegisterTexture.
  destruct (textureIndexMap !! (path, type)) as [i|] eqn:Hkey.
  { intros [= <- <- <-].
    split; [exists []; rewrite app_nil_r; split; [done | simpl; lia]|].
    split; [done|]. by apply Hmap in Hkey as [? _]. }
  destruct (LoadFromWICFile path) as [image|].
  2:{ intros [= <- <- <-].
      split; [exists []; rewrite app_nil_r; split; [done | simpl; lia]|].
      split; [done | by left]. }
  destruct (ConvertToDDSMemory image type) as [dds|].
  2:{ intros [= <- <- <-].
      split; [exists []; rewrite app_nil_r; split; [done | simpl; lia]|].
      split; [done | by left]. }
  rewrite to_int_small by (unfold is_int; lia).
  intros [= <- <- <-].
  assert (Hnew : slot_in_table
            (textures ++ [{| entry_type := type; entry_data := dds |}])
            type (Z.of_nat (length textures))).
  { right. split; [lia|].
    exists {| entry_type := type; entry_data := dds |}. split; [|done].
    rewrite Nat2Z.id, lookup_app_r by lia. by rewrite Nat.sub_diag. }
  split; [eexists; split; [done | simpl; lia]|].
  split; [|done].
  intros p t i Hi. apply lookup_insert_Some in Hi as [[[= <- <-] <-]|[_ Hi]].
  - split; [done | lia].
  - apply Hmap in Hi as [Hslot Hne].
    split; [by apply slot_in_table_app | done].
Qed.

Lemma update_back_slots (st st' : MtlParser) f :
  Forall (material_slots (textures st)) (materials st) ->
  (forall m, material_slots (textures st) m ->
             material_slots (textures st) (f m)) ->
  update_back st f = Ok st' ->
  Forall (material_slots (textures st')) (materials st')
  /\ textures st' = textures st
  /\ textureIndexMap st' = textureIndexMap st.
Proof.
  intros Hall Hf. unfold update_back.
  destruct (last (materials st)) as [m|] eqn:Hlast; [|done].
  intros [= <-]. simpl. split; [|done].
  apply Forall_insert; [done|]. apply Hf.
  rewrite Forall_forall in Hall. apply Hall.
  rewrite last_lookup in Hlast. by eapply list_elem_of_lookup_2.
Qed.

Lemma map_texture_slots path type assign (st st' : MtlParser) iss code :
  ((type = BaseColor /\ assign = set_baseColorTexIndex)
   \/ (type = Normal /\ assign = set_normalTexIndex)) ->
  textures_consistent st ->
  (Z.of_nat (length (textures st)) < 2 ^ 31)%Z ->
  (map_texture path type assign st iss = Ok (Continue st')
   \/ map_texture path type assign st iss = Ok (Return code st')) ->
  textures_consistent st'
  /\ length (textures st') <= length (textures st) + 1.
Proof.
  intros Hassign Hst Hlen. unfold map_texture.
  destruct (materials st) eqn:Hm;
    [intros [?|?]; simplify_eq; (split; [done | lia])|].
  rewrite <- Hm. clear Hm.
  destruct (ExtractTextureFilename iss) as [|a name];
    [intros [?|?]; simplify_eq; (split; [done | lia])|].
  destruct Hst as [Hmap Hmats].
  set (p := String a name).
  assert (Hreg : forall q,
    (let '(index, textures', textureIndexMap') :=
       RegisterTexture q type (textures st) (textureIndexMap st) in
     st1 ← update_back
             {| materials := materials st;
                materialIndexMap := materialIndexMap st;
                textures := textures';
                textureIndexMap := textureIndexMap';
                m_index := m_index st;
                wcerr := wcerr st |}
             (fun m => assign m index);
     Ok (Continue st1)) = Ok (Continue st')
    \/ (let '(index, textures', textureIndexMap') :=
          RegisterTexture q type (textures st) (textureIndexMap st) in
        st1 ← update_back
                {| materials := materials st;
                   materialIndexMap := materialIndexMap st;
                   textures := textures';
                   textureIndexMap := textureIndexMap';
                   m_index := m_index st;
                   wcerr := wcerr st |}
                (fun m => assign m index);
        Ok (Continue st1)) = Ok (Return code st') ->
    textures_consistent st'
    /\ length (textures st') <= length (textures st) + 1).
  { intros q.
    destruct (RegisterTexture q type (textures st) (textureIndexMap st))
      as [[index ts] tm] eqn:Hrt.
    destruct (RegisterTexture_slot _ _ _ _ _ _ _ Hmap Hlen Hrt)
      as ((more & -> & Hmore) & Hmap' & Hslot).
    destruct (update_back _ _) as [st1|] eqn:Hupd; [|intros [?|?]; done].
    apply update_back_slots in Hupd as (Hall & Hts & Htm); simpl in *.
    - intros [Heq|Heq]; [|done]. injection Heq as ->. split; [split|].
      + by rewrite Hts, Htm.
      + done.
      + rewrite Hts, length_app. lia.
    - eapply Forall_impl; [done|]. intros m1. apply material_slots_app.
    - intros m1 (Hb & Hn & Hmr & He).
      destruct Hassign as [[-> ->]|[-> ->]]; by repeat split. }
  destruct (fs_exists p); [apply Hreg|].
  destruct (fs_exists _); [apply Hreg|].
  intros [?|?]; simplify_eq. split; [by split | simpl; lia].
Qed.

Lemma AnalyzeMtl_line_slots path (st st' : MtlParser) line code :
  textures_consistent st ->
  (Z.of_nat (length (textures st)) < 2 ^ 31)%Z ->
  (AnalyzeMtl_line path st line = Ok (Continue st')
   \/ AnalyzeMtl_line path st line = Ok (Return code st')) ->
  textures_consistent st'
  /\ length (textures st') <= length (textures st) + 1.
Proof.
  intros Hst Hlen. unfold AnalyzeMtl_line.
  destruct (skipped line); [intros [?|?]; simplify_eq; (split; [done | lia])|].
  destruct (extract_word line) as [[w rest]|];
    [|simpl; intros [?|?]; simplify_eq; (split; [done | lia])].
  by_directive w.
  all: try (intros [?|?]; simplify_eq; (split; [done | lia])).
  all: try (apply map_texture_slots; [tauto | done..]).
  all: try (destruct Hst as [Hmap Hmats];
            destruct (update_back _ _) as [st1|] eqn:Hupd;
            [|intros [?|?]; done];
            apply update_back_slots in Hupd as (Hall & Hts & Htm);
            [|done|by intros m (?&?&?&?)];
            simpl; intros [?|?]; simplify_eq;
            (split; [split; [by rewrite Hts, Htm | done] | rewrite Hts; lia])).
  intros [?|?]; simplify_eq. destruct Hst as [Hmap Hmats].
  split; [|simpl; lia]. split; [done|]. simpl.
  apply Forall_app. split; [done|]. repeat constructor.
Qed.

Lemma AnalyzeMtl_loop_slots path lines (st st' : MtlParser) code :
  textures_consistent st ->
  (Z.of_nat (length (textures st) + length lines) < 2 ^ 31)%Z ->
  AnalyzeMtl_loop path lines st = Ok (code, st') ->
  textures_consistent st'.
Proof.
  revert st. induction lines as [|line lines IH]; intros st Hst Hlen Hrun;
    simpl in Hrun.
  - by simplify_eq.
  - simpl in Hlen.
    destruct (AnalyzeMtl_line path st line) as [[st1|code1 st1]|] eqn:Hline;
      simpl in Hrun; [| |done].
    + destruct (AnalyzeMtl_line_slots path st st1 line 0%Z Hst)
        as [Hst1 Hlen1]; [lia | by left|].
      eapply IH; [done | lia | done].
    + simplify_eq.
      destruct (AnalyzeMtl_line_slots path st st' line code Hst)
        as [Hst1 _]; [lia | by right | done].
Qed.

(** X10.  The material table [AnalyzeMtl] builds from empty tables, as
    [wmain] calls it, for a material file of fewer than 2^31 lines,
    whatever code it returns: in every material the base colour slot
    is [-1] or the position of a base colour texture of the texture
    table, the normal slot is [-1] or the position of a normal
    texture, and the metal-roughness and emissive slots are [-1], as
    no directive assigns them. *)
Theorem AnalyzeMtl_texture_slots (lines : list string) (path : string)
    (code : Z) (st : MtlParser) :
  AnalyzeMtl (Some lines) path [] ∅ [] = Ok (code, st) ->
  (Z.of_nat (length lines) < 2 ^ 31)%Z ->
  Forall (fun m =>
            slot_in_table (textures st) BaseColor (baseColorTexIndex m)
            /\ slot_in_table (textures st) Normal (normalTexIndex m)
            /\ metalRoughTexIndex m = (-1)%Z
            /\ emissiveTexIndex m = (-1)%Z)
         (materials st).
Proof.
  unfold AnalyzeMtl. intros Hrun Hlen.
  apply AnalyzeMtl_loop_slots in Hrun as [_ Hmats]; [done| |simpl; lia].
  split; [|constructor]. intros p t i. simpl. by rewrite lookup_empty.
Qed.
End TextureSlots.

Section MaterialNames.
Context `{FloatOps} `{Platform}.

Lemma map_texture_names path type assign (st st' : MtlParser) iss :
  map_texture path type assign st iss = Ok (Continue st') ->
  length (materials st') = length (materials st)
  /\ materialIndexMap st' = materialIndexMap st
  /\ m_index st' = m_index st.
Proof.
  unfold map_texture.
  destruct (materials st) eqn:Hm; [intros [= <-]; by rewrite Hm|].
  rewrite <- Hm. clear Hm.
  destruct (ExtractTextureFilename iss) as [|a name]; [done|].
  assert (Hreg : forall q,
    (let '(index, textures', textureIndexMap') :=
       RegisterTexture q type (textures st) (textureIndexMap st) in
     st1 ← update_back
             {| materials := materials st;
                materialIndexMap := materialIndexMap st;
                textures := textures';
                textureIndexMap := textureIndexMap';
                m_index := m_index st;
                wcerr := wcerr st |}
             (fun m => assign m index);
     Ok (Continue st1)) = Ok (Continue st') ->
    length (materials st') = length (materials st)
    /\ materialIndexMap st' = materialIndexMap st
    /\ m_index st' = m_index st).
  { intros q. destruct (RegisterTexture _ _ _ _) as [[index ts] tm].
    destruct (update_back _ _) as [st1|] eqn:Hupd; [|done].
    intros [= <-]. by apply update_back_length in Hupd. }
  destruct (fs_exists _); [apply Hreg|].
  destruct (fs_exists _); [apply Hreg | done].
Qed.

(** The only code a line of a material file returns is -1. *)
Lemma AnalyzeMtl_line_Return path (st st' : MtlParser) line code :
  AnalyzeMtl_line path st line = Ok (Return code st') -> code = (-1)%Z.
Proof.
  assert (Hmap : forall type assign iss,
            map_texture path type assign st iss = Ok (Return code st') ->
            code = (-1)%Z).
  { intros type assign iss. unfold map_texture.
    destruct (materials st); [done|].
    destruct (ExtractTextureFilename iss); [by intros [= <- _]|].
    destruct (fs_exists _).
    { destruct (RegisterTexture _ _ _ _) as [[? ?] ?].
      by destruct (update_back _ _). }
    destruct (fs_exists _); [|by intros [= <- _]].
    destruct (RegisterTexture _ _ _ _) as [[? ?] ?].
    by destruct (update_back _ _). }
  unfold AnalyzeMtl_line. destruct (skipped line); [done|].
  destruct (extract_word line) as [[w rest]|]; [|done].
  by_directive w; try done; try apply Hmap.
  all: by destruct (update_back _ _).
Qed.

(** A line that is not a declaration keeps the number of materials, the
    name map and the next index. *)
Lemma AnalyzeMtl_line_names path (st st' : MtlParser) line :
  AnalyzeMtl_line path st line = Ok (Continue st') ->
  if decide (directive line = "newmtl")
  then st' = declare_material st (operands line)
  else length (materials st') = length (materials st)
       /\ materialIndexMap st' = materialIndexMap st
       /\ m_index st' = m_index st.
Proof.
  unfold directive, operands, AnalyzeMtl_line.
  destruct (skipped line); [by intros [= <-]|].
  destruct (extract_word line) as [[w rest]|]; [|by intros [= <-]].
  by_directive w.
  all: try (rewrite decide_False by done).
  all: try (by intros [= <-]).
  all: try (apply map_texture_names).
  all: try (destruct (update_back _ _) as [st1|] eqn:Hupd; [|done];
            intros [= <-]; by apply update_back_length in Hupd).
Qed.

Lemma declare_material_names names (st : MtlParser) iss name :
  names_indexed names st ->
  (Z.of_nat (length names) + 1 < 2 ^ 32)%Z ->
  name = match extract_word iss with
         | Some (w, _) => w
         | None => EmptyString
         end ->
  names_indexed (names ++ [name]) (declare_material st iss).
Proof.
  intros (Hlen & Hidx & Hmap) Hbound ->. unfold names_indexed, declare_material.
  simpl. set (name := match extract_word iss with
                      | Some (w, _) => w
                      | None => EmptyString
                      end).
  rewrite !length_app. simpl. split; [lia|]. split.
  { rewrite Hidx, to_uint32_small; [lia|]. unfold is_uint32. lia. }
  intros name' i. rewrite lookup_insert_Some. split.
  - intros [[<- <-]|[Hne Hi]].
    + exists (length names). split; [by rewrite Hidx|]. split.
      * rewrite lookup_app_r by lia. by rewrite Nat.sub_diag.
      * intros k Hk. rewrite lookup_ge_None_2; [done|].
        rewrite length_app. simpl. lia.
    + apply Hmap in Hi as (j & -> & Hj & Hlast).
      exists j. split; [done|]. split; [by apply lookup_app_l_Some|].
      intros k Hk. destruct (decide (k < length names)).
      * rewrite lookup_app_l by done. by apply Hlast.
      * destruct (decide (k = length names)) as [->|].
        -- rewrite lookup_app_r by lia. rewrite Nat.sub_diag. simpl.
           congruence.
        -- rewrite lookup_ge_None_2; [done|]. rewrite length_app. simpl. lia.
  - intros (j & -> & Hj & Hlast).
    destruct (decide (j < length names)) as [Hlt|Hge].
    + rewrite lookup_app_l in Hj by done.
      assert (name <> name') as Hne.
      { intros <-. apply (Hlast (length names)); [done|].
        rewrite lookup_app_r by lia. by rewrite Nat.sub_diag. }
      right. split; [done|]. apply Hmap. exists j. split; [done|].
      split; [done|]. intros k Hk Hnk.
      apply (Hlast k Hk). by apply lookup_app_l_Some.
    + apply lookup_lt_Some in Hj as Hj'. rewrite length_app in Hj'.
      simpl in Hj'. assert (j = length names) as -> by lia.
      rewrite lookup_app_r in Hj by lia. rewrite Nat.sub_diag in Hj.
      simpl in Hj. left. split; [congruence | by rewrite Hidx].
Qed.

Lemma AnalyzeMtl_loop_names path lines names (st st' : MtlParser) :
  names_indexed names st ->
  (Z.of_nat (length names + length (declared_materials lines)) < 2 ^ 32)%Z ->
  AnalyzeMtl_loop path lines st = Ok (0%Z, st') ->
  names_indexed (names ++ declared_materials lines) st'.
Proof.
  revert names st.
  induction lines as [|line lines IH]; intros names st Hst Hbound Hrun;
    simpl in Hrun.
  - simplify_eq. unfold declared_materials. simpl. by rewrite app_nil_r.
  - destruct (AnalyzeMtl_line path st line) as [[st1|code1 st1]|] eqn:Hline;
      simpl in Hrun; [| |done].
    2:{ apply AnalyzeMtl_line_Return in Hline. by simplify_eq. }
    apply AnalyzeMtl_line_names in Hline.
    unfold declared_materials in *. rewrite filter_cons in *.
    destruct (decide (directive line = "newmtl")) as [Hdir|Hdir].
    + rewrite fmap_cons in *. simpl in Hbound.
      rewrite cons_middle, app_assoc. apply (IH _ st1);
        [|rewrite length_app; simpl in *; lia|done].
      subst st1. apply declare_material_names; [done | lia | done].
    + apply (IH _ st1); [|done..].
      destruct Hline as (Hlen & Hmap & Hidx), Hst as (Hl & Hi & Hm).
      unfold names_indexed. by rewrite Hlen, Hmap, Hidx.
Qed.

(** X11.  The material table and the name map that [AnalyzeMtl] builds
    from empty tables when it reads the whole file (it returns 0),
    with fewer than 2^32 "newmtl" lines in the file: there is one
    material per "newmtl" line, in file order, and a name is mapped
    to the position of the last line that declares it.  A name that
    is declared twice thus designates the later material, and the
    earlier one stays in the table, out of reach of every "usemtl". *)
Theorem last_declaration_wins (lines : list string) (path : string)
    (st : MtlParser) :
  AnalyzeMtl (Some lines) path [] ∅ [] = Ok (0%Z, st) ->
  (Z.of_nat (length (declared_materials lines)) < 2 ^ 32)%Z ->
  let names := declared_materials lines in
  length (materials st) = length names
  /\ (forall name j,
        materialIndexMap st !! name = Some (Z.of_nat j)
        <-> names !! j = Some name
            /\ forall k, j < k -> names !! k <> Some name)
  /\ (forall name i, materialIndexMap st !! name = Some i ->
        exists j, i = Z.of_nat j /\ j < length names).
Proof.
  intros Hrun Hbound names. subst names. unfold AnalyzeMtl in Hrun.
  apply (AnalyzeMtl_loop_names path lines []) in Hrun
    as (Hlen & _ & Hmap); [|split; [done|split; [done|]]|simpl; lia].
  2:{ intros name i. simpl. rewrite lookup_empty. split; [done|].
      by intros (j & _ & Hj & _). }
  simpl in Hlen, Hmap. split; [done|]. split.
  - intros name j. rewrite Hmap. split.
    + intros (j' & Hjj & Hlast). by apply Nat2Z.inj in Hjj as <-.
    + intros Hlast. by exists j.
  - intros name i Hi. apply Hmap in Hi as (j & -> & Hj & _).
    exists j. split; [done|]. by apply lookup_lt_Some in Hj.
Qed.
End MaterialNames.

(** ** When the tangent generator returns *)

Lemma whole_triangles_cons a b c l :
  whole_triangles (a :: b :: c :: l) = a :: b :: c :: whole_triangles l.
Proof.
  unfold whole_triangles. cbn [length].
  replace (S (S (S (length l))) / 3) with (S (length l / 3)).
  - replace (3 * S (length l / 3)) with (S (S (S (3 * (length l / 3)))))
      by lia. done.
  - change (S (S (S (length l)))) with (3 + length l).
    rewrite (Nat.add_comm 3).
    replace (length l + 3) with (length l + 1 * 3) by lia.
    rewrite Nat.div_add by lia. lia.
Qed.

Section TangentReturns.
Context `{FloatOps} `{!DirectXMath}.

Lemma at_index_Fail {A} (vec : list A) i f :
  at_index vec i = Fail f -> f = undefined_behaviour.
Proof. unfold at_index. destruct (vec !! i); congruence. Qed.

Lemma set_Fail (acc : Accum) idx t b f :
  set acc idx t b = Fail f -> f = undefined_behaviour.
Proof.
  unfold set, at_index.
  destruct (tanAccum acc !! _); simpl; [|congruence].
  destruct (bitanAccum acc !! _); simpl; congruence.
Qed.

Lemma add_Fail (acc : Accum) idx t b f :
  add acc idx t b = Fail f -> f = undefined_behaviour.
Proof.
  unfold add, at_index.
  destruct (tanAccum acc !! _); simpl; [|congruence].
  destruct (bitanAccum acc !! _); simpl; congruence.
Qed.

Lemma triangle_Fail (vs : list Vertex) (acc : Accum) i0 i1 i2 f :
  triangle vs acc i0 i1 i2 = Fail f -> f = undefined_behaviour.
Proof.
  unfold triangle, isFlatFace.
  destruct (at_index vs (Z.to_nat i0)) eqn:E0; simpl;
    [|intros [= <-]; by eapply at_index_Fail].
  destruct (at_index vs (Z.to_nat i1)) eqn:E1; simpl;
    [|intros [= <-]; by eapply at_index_Fail].
  destruct (at_index vs (Z.to_nat i2)) eqn:E2; simpl;
    [|intros [= <-]; by eapply at_index_Fail].
  destruct (degenerate _ _ _); [done|].
  destruct (_ && _).
  - destruct (set acc i0 _ _) as [acc1|] eqn:S0; simpl;
      [|intros [= <-]; by eapply set_Fail].
    destruct (set acc1 i1 _ _) as [acc2|] eqn:S1; simpl;
      [|intros [= <-]; by eapply set_Fail].
    apply set_Fail.
  - destruct (add acc i0 _ _) as [acc1|] eqn:S0; simpl;
      [|intros [= <-]; by eapply add_Fail].
    destruct (add acc1 i1 _ _) as [acc2|] eqn:S1; simpl;
      [|intros [= <-]; by eapply add_Fail].
    apply add_Fail.
Qed.

Lemma triangles_whole (vs : list Vertex) indices :
  forall acc,
  triangles vs indices acc = triangles vs (whole_triangles indices) acc.
Proof.
  induction indices as [|a|a b|i0 i1 i2 rest IH] using triples_ind;
    intros acc; [done..|].
  rewrite whole_triangles_cons. simpl.
  destruct (triangle vs acc i0 i1 i2); simpl; [apply IH | done].
Qed.

Lemma triangles_Fail (vs : list Vertex) indices :
  forall acc f, triangles vs indices acc = Fail f -> f = undefined_behaviour.
Proof.
  induction indices as [|a|a b|i0 i1 i2 rest IH] using triples_ind;
    intros acc f Hrun; simpl in Hrun; [done..|].
  destruct (triangle vs acc i0 i1 i2) as [acc1|g] eqn:Hstep; simpl in Hrun.
  - by eapply IH.
  - injection Hrun as <-. by eapply triangle_Fail.
Qed.

Lemma triangles_in_range (vs : list Vertex) indices :
  forall acc acc', triangles vs indices acc = Ok acc' ->
  forall i, i ∈ whole_triangles indices -> Z.to_nat i < length vs.
Proof.
  induction indices as [|a|a b|i0 i1 i2 rest IH] using triples_ind;
    intros acc acc' Hrun i Hi.
  1-3: by apply elem_of_nil in Hi.
  rewrite whole_triangles_cons in Hi. simpl in Hrun.
  apply bind_Ok in Hrun as (acc1 & Hstep & Hrun).
  apply triangle_Ok in Hstep as (v0 & v1 & v2 & E0 & E1 & E2).
  rewrite !elem_of_cons in Hi.
  destruct Hi as [->|[->|[->|Hi]]];
    [by eapply lookup_lt_Some..|].
  by eapply IH.
Qed.

(** X12.  [GenerateTangents] reads the index buffer three indices at a
    time: one or two indices left over at its end are never read, so
    that the result is that of the buffer cut back to whole
    triangles.  The function returns exactly when every index of a
    whole triangle designates a vertex, also for a triangle that is
    skipped for its degenerate UV mapping; otherwise it reads the
    vertex buffer past its end, which is undefined behaviour. *)
Theorem GenerateTangents_returns_iff (vs : list Vertex) (indices : list Z) :
  GenerateTangents vs indices = GenerateTangents vs (whole_triangles indices)
  /\ ((exists st, GenerateTangents vs indices = Ok st)
      <-> forall i, i ∈ whole_triangles indices -> Z.to_nat i < length vs)
  /\ (forall f, GenerateTangents vs indices = Fail f ->
        f = undefined_behaviour).
Proof.
  split; [|split; [split|]].
  - unfold GenerateTangents. by rewrite triangles_whole.
  - intros [st Hrun]. unfold GenerateTangents in Hrun.
    apply bind_Ok in Hrun as (acc & Hacc & _).
    by eapply triangles_in_range.
  - intros Hin. unfold GenerateTangents. rewrite triangles_whole.
    destruct (triangles_total vs (whole_triangles indices) Hin _
                (replicate_sized (length vs))) as [acc Hacc].
    rewrite Hacc. simpl.
    apply triangles_frame in Hacc as [Hsized _]; [|apply replicate_sized].
    destruct (finish_loop acc (length vs) 0
                {| vertices := vs; tangent_writes := [] |})
      as (st & -> & _); [simpl; lia | done | eauto].
  - intros f. unfold GenerateTangents.
    destruct (triangles vs indices _) as [acc|g] eqn:Hacc; simpl.
    + apply triangles_frame in Hacc as [Hsized _]; [|apply replicate_sized].
      destruct (finish_loop acc (length vs) 0
                  {| vertices := vs; tangent_writes := [] |})
        as (st & -> & _); [simpl; lia | done | done].
    + intros [= <-]. by eapply triangles_Fail.
Qed.
End TangentReturns.

(** ** The layout of the payloads *)

Lemma mjoin_cons {A} (x : list A) (l : list (list A)) :
  mjoin (x :: l) = x ++ mjoin l.
Proof. done. Qed.

(** A loop that only appends to its writer. *)
Lemma foldl_writer {A} (f : list byte -> A -> list byte)
    (g : A -> list byte) (l : list A) :
  (forall w x, f w x = w ++ g x) ->
  forall init, foldl f init l = init ++ mjoin (g <$> l).
Proof.
  intros Hf. induction l as [|x l IH]; intros init.
  - simpl. by rewrite app_nil_r.
  - rewrite fmap_cons, mjoin_cons. cbn [foldl].
    by rewrite IH, Hf, <- app_assoc.
Qed.

Lemma length_mjoin_with {A} (g : A -> list byte) (l : list A) :
  length (mjoin (g <$> l)) = sum_list_with (fun x => length (g x)) l.
Proof.
  induction l as [|x l IH]; [done|].
  rewrite fmap_cons, mjoin_cons, length_app, IH. done.
Qed.

Lemma sum_list_with_const {A} (l : list A) k :
  sum_list_with (fun _ => k) l = k * length l.
Proof. induction l as [|x l IH]; simpl; lia. Qed.

(** The record at position [i] of a sequence of records of [k] bytes
    starts at offset [k * i]. *)
Lemma drop_mjoin_fixed {A} (g : A -> list byte) k (l : list A) :
  (forall x, length (g x) = k) ->
  forall i x, l !! i = Some x ->
  drop (k * i) (mjoin (g <$> l)) = g x ++ mjoin (g <$> drop (S i) l).
Proof.
  intros Hk. induction l as [|y l IH]; intros i x Hi; [done|].
  rewrite fmap_cons, mjoin_cons. destruct i as [|i]; simpl in Hi.
  - injection Hi as ->. by rewrite Nat.mul_0_r.
  - replace (k * S i) with (length (g y) + k * i) by (rewrite Hk; lia).
    rewrite drop_app_add'; [|done]. by apply IH.
Qed.

Lemma le_value_word z rest : le_value (take 4 (le32 z ++ rest)) = to_uint32 z.
Proof. by rewrite take_le32, le_value_le32. Qed.

Section PayloadLayout.
Context `{FloatOps}.

Lemma BuildTextureChunk_records textures :
  BuildTextureChunk textures
  = le32 (to_uint32 (Z.of_nat (length textures)))
    ++ mjoin (texture_record <$> textures).
Proof.
  unfold BuildTextureChunk. apply foldl_writer. intros w tex.
  unfold WriteBytes, WriteUInt32, WriteRaw, texture_record.
  by rewrite <- !app_assoc.
Qed.

Lemma SerializeMaterial_app w (m : MaterialInfo) :
  SerializeMaterial w m = w ++ SerializeMaterial [] m.
Proof.
  unfold SerializeMaterial, WriteFloat, WriteInt32, WriteRaw.
  by rewrite <- !app_assoc.
Qed.

Lemma SerializeMesh_app w (m : MeshInfo) :
  SerializeMesh w m = w ++ SerializeMesh [] m.
Proof.
  unfold SerializeMesh, WriteUInt32, WriteRaw. by rewrite <- !app_assoc.
Qed.

Lemma SerializeVertex_app w (vertex : Vertex) :
  SerializeVertex w vertex = w ++ SerializeVertex [] vertex.
Proof.
  unfold SerializeVertex, WriteFloat, WriteRaw. by rewrite <- !app_assoc.
Qed.

Lemma BuildIndexChunk_words indices :
  BuildIndexChunk indices
  = le32 (to_uint32 (Z.of_nat (length indices))) ++ mjoin (le32 <$> indices).
Proof.
  unfold BuildIndexChunk, WriteVector, WriteUInt32, WriteRaw.
  destruct indices; [by rewrite app_nil_r | done].
Qed.
End PayloadLayout.

Lemma to_int_to_uint32 z : is_int z -> to_int (to_uint32 z) = z.
Proof.
  unfold is_int, to_int, to_uint32. intros Hz.
  destruct (Z.neg_nonneg_cases z).
  - replace (z mod 2 ^ 32)%Z with (z + 2 ^ 32)%Z.
    + replace (z + 2 ^ 32 + 2 ^ 31)%Z with (z + 2 ^ 31 + 1 * 2 ^ 32)%Z by lia.
      rewrite Z.mod_add by lia. rewrite Z.mod_small; lia.
    + apply Z.mod_unique with (q := (-1)%Z); lia.
  - rewrite (Z.mod_small z) by lia. rewrite Z.mod_small; lia.
Qed.

Section PayloadSizes.
Context `{FloatOps}.

(** X13.  The sizes of what [OutputImdl] writes, byte for byte.  The
    material, mesh, vertex and index payloads are a 4-byte count
    followed by records of 52, 12, 48 and 4 bytes; the texture
    payload is a 4-byte count followed, for each texture, by 8 bytes
    and its data.  The file is the 12-byte file header, five 8-byte
    chunk headers and the five payloads, with no padding anywhere. *)
Theorem container_size (materials : list MaterialInfo)
    (meshInfo : list MeshInfo) (textures : list TextureEntry)
    (vertexBuffer : list Vertex) (indexBuffer : list Z) :
  length (BuildTextureChunk textures)
    = 4 + sum_list_with (fun tex => 8 + length (entry_data tex)) textures
  /\ length (BuildMaterialChunk materials) = 4 + 52 * length materials
  /\ length (BuildMeshChunk meshInfo) = 4 + 12 * length meshInfo
  /\ length (BuildVertexChunk vertexBuffer) = 4 + 48 * length vertexBuffer
  /\ length (BuildIndexChunk indexBuffer) = 4 + 4 * length indexBuffer
  /\ exists file,
       OutputImdl true materials meshInfo textures vertexBuffer indexBuffer
         = (0%Z, Some file)
       /\ length file
          = 72 + sum_list_with (fun tex => 8 + length (entry_data tex)) textures
            + 52 * length materials + 12 * length meshInfo
            + 48 * length vertexBuffer + 4 * length indexBuffer.
Proof.
  assert (Ht : length (BuildTextureChunk textures)
    = 4 + sum_list_with (fun tex => 8 + length (entry_data tex)) textures).
  { rewrite BuildTextureChunk_records, length_app, length_le32.
    by rewrite length_mjoin_with. }
  assert (Hm : length (BuildMaterialChunk materials)
               = 4 + 52 * length materials).
  { unfold BuildMaterialChunk.
    rewrite (foldl_writer _ _ _ SerializeMaterial_app).
    rewrite length_app, length_mjoin_with.
    rewrite <- (sum_list_with_const materials 52). reflexivity. }
  assert (Hi : length (BuildMeshChunk meshInfo) = 4 + 12 * length meshInfo).
  { unfold BuildMeshChunk. rewrite (foldl_writer _ _ _ SerializeMesh_app).
    rewrite length_app, length_mjoin_with.
    rewrite <- (sum_list_with_const meshInfo 12). reflexivity. }
  assert (Hv : length (BuildVertexChunk vertexBuffer)
               = 4 + 48 * length vertexBuffer).
  { unfold BuildVertexChunk.
    rewrite (foldl_writer _ _ _ SerializeVertex_app).
    rewrite length_app, length_mjoin_with.
    rewrite <- (sum_list_with_const vertexBuffer 48). reflexivity. }
  assert (Hx : length (BuildIndexChunk indexBuffer)
               = 4 + 4 * length indexBuffer).
  { rewrite BuildIndexChunk_words, length_app, length_mjoin_with.
    rewrite <- (sum_list_with_const indexBuffer 4). reflexivity. }
  do 5 (split; [done|]).
  eexists. split; [apply OutputImdl_bytes|].
  unfold container_chunks. rewrite !encode_chunks_cons.
  rewrite !length_app, !length_chunk_bytes, Ht, Hm, Hi, Hv, Hx.
  change (length (FileHeader_bytes _)) with 12.
  change (length (encode_chunks [])) with 0. lia.
Qed.

(** X14.  The index payload read back: its first word is the number
    of indices and the word at byte offset [4 + 4 * i] is index [i],
    for a buffer of fewer than 2^32 indices, each a 32-bit value. *)
Theorem BuildIndexChunk_decodes (indices : list Z) :
  Forall is_uint32 indices ->
  (Z.of_nat (length indices) < 2 ^ 32)%Z ->
  le_value (take 4 (BuildIndexChunk indices)) = Z.of_nat (length indices)
  /\ forall i x, indices !! i = Some x ->
       le_value (take 4 (drop (4 + 4 * i) (BuildIndexChunk indices))) = x.
Proof.
  intros Hall Hlen. rewrite BuildIndexChunk_words. split.
  - rewrite le_value_word.
    by rewrite !(to_uint32_small (Z.of_nat (length indices)))
      by (unfold is_uint32; lia).
  - intros i x Hi. rewrite drop_app_add' by done.
    rewrite (drop_mjoin_fixed le32 4 indices length_le32 i x Hi).
    rewrite le_value_word. apply to_uint32_small.
    rewrite Forall_forall in Hall. apply Hall.
    by eapply list_elem_of_lookup_2.
Qed.

(** X15.  The mesh payload read back: its first word is the number of
    records, and record [i] starts at byte offset [4 + 12 * i] with
    its start index, followed by its primitive count and its
    material index, for fewer than 2^32 records of 32-bit fields. *)
Theorem BuildMeshChunk_decodes (meshInfo : list MeshInfo) :
  Forall (fun r => is_uint32 (startIndex r) /\ is_uint32 (primCount r)
                   /\ is_uint32 (materialIndex r)) meshInfo ->
  (Z.of_nat (length meshInfo) < 2 ^ 32)%Z ->
  le_value (take 4 (BuildMeshChunk meshInfo)) = Z.of_nat (length meshInfo)
  /\ forall i r, meshInfo !! i = Some r ->
       let word k :=
         le_value (take 4 (drop (4 + 12 * i + k) (BuildMeshChunk meshInfo))) in
       word 0 = startIndex r /\ word 4 = primCount r
       /\ word 8 = materialIndex r.
Proof.
  intros Hall Hlen. unfold BuildMeshChunk.
  rewrite (foldl_writer _ _ _ SerializeMesh_app). unfold WriteUInt32, WriteRaw.
  rewrite app_nil_l. split.
  - rewrite le_value_word.
    by rewrite !(to_uint32_small (Z.of_nat (length meshInfo)))
      by (unfold is_uint32; lia).
  - intros i r Hi. rewrite Forall_forall in Hall.
    destruct (Hall r) as (Hs & Hp & Hm); [by eapply list_elem_of_lookup_2|].
    rewrite <- !drop_drop, !drop_le32.
    rewrite (drop_mjoin_fixed (SerializeMesh []) 12 meshInfo
               (fun _ => eq_refl) i r Hi).
    unfold SerializeMesh at 1 3 5, WriteUInt32, WriteRaw.
    rewrite app_nil_l, <- !app_assoc.
    change (drop 0 ?l) with l.
    change (drop 8 (le32 ?a ++ ?l)) with (drop 4 (drop 4 (le32 a ++ l))).
    rewrite !drop_le32, !le_value_word.
    by rewrite !to_uint32_small.
Qed.

(** X16.  The texture slots of a material in the material payload:
    the four words at byte offsets 36, 40, 44 and 48 of record [i],
    which starts at offset [4 + 52 * i], hold the base colour,
    normal, metal-roughness and emissive slots as 32-bit two's
    complement numbers, so that an absent slot [-1] is stored as
    [0xFFFFFFFF] and every slot reads back as it was. *)
Theorem BuildMaterialChunk_slots (materials : list MaterialInfo) (i : nat)
    (m : MaterialInfo) :
  materials !! i = Some m ->
  is_int (baseColorTexIndex m) -> is_int (normalTexIndex m) ->
  is_int (metalRoughTexIndex m) -> is_int (emissiveTexIndex m) ->
  let word k :=
    le_value
      (take 4 (drop (4 + 52 * i + k) (BuildMaterialChunk materials))) in
  to_int (word 36) = baseColorTexIndex m
  /\ to_int (word 40) = normalTexIndex m
  /\ to_int (word 44) = metalRoughTexIndex m
  /\ to_int (word 48) = emissiveTexIndex m
  /\ (baseColorTexIndex m = (-1)%Z -> word 36 = 4294967295%Z).
Proof.
  intros Hi Hb Hn Hr He word.
  assert (Hword : forall k, word k
    = le_value (take 4 (drop k (SerializeMaterial [] m
                  ++ mjoin (SerializeMaterial [] <$> drop (S i) materials))))).
  { intros k. subst word. cbv beta. unfold BuildMaterialChunk.
    rewrite (foldl_writer _ _ _ SerializeMaterial_app).
    unfold WriteUInt32, WriteRaw. rewrite app_nil_l.
    rewrite <- !drop_drop, !drop_le32.
    by rewrite (drop_mjoin_fixed (SerializeMaterial []) 52 materials
                  (fun _ => eq_refl) i m Hi). }
  assert (Hslots : word 36 = to_uint32 (baseColorTexIndex m)
                   /\ word 40 = to_uint32 (normalTexIndex m)
                   /\ word 44 = to_uint32 (metalRoughTexIndex m)
                   /\ word 48 = to_uint32 (emissiveTexIndex m)).
  { rewrite !Hword. unfold SerializeMaterial, WriteFloat, WriteInt32, WriteRaw.
    rewrite app_nil_l, <- !app_assoc.
    change 48
      with (4 + (4 + (4 + (4 + (4 + (4 + (4 + (4 + (4 + (4 + (4 + 4))))))))))).
    change 44
      with (4 + (4 + (4 + (4 + (4 + (4 + (4 + (4 + (4 + (4 + 4)))))))))).
    change 40 with (4 + (4 + (4 + (4 + (4 + (4 + (4 + (4 + (4 + 4))))))))).
    change 36 with (4 + (4 + (4 + (4 + (4 + (4 + (4 + (4 + 4)))))))).
    by rewrite <- !drop_drop, !drop_le32, !le_value_word. }
  destruct Hslots as (-> & -> & -> & ->).
  rewrite !to_int_to_uint32 by done.
  repeat split. by intros ->.
Qed.
End PayloadSizes.

(** X17.  [ReadChunk] inverts [WriteChunk]: positioned where a chunk
    was written, with a type tag of 32 bits and a payload shorter
    than 2^32 bytes, it returns [true], leaves the type and the
    payload length in the header and the payload in the buffer,
    whatever the header and the buffer held before, and stops at the
    first byte behind the chunk, so that chunks written one after
    the other are read one after the other. *)
Theorem ReadChunk_inverts_WriteChunk (ofs rest : list byte) (type : Z)
    (data : list byte) (header : ChunkHeader) (buffer : list byte) :
  is_uint32 type ->
  (Z.of_nat (length data) < 2 ^ 32)%Z ->
  ReadChunk (stream_of (drop (length ofs) (WriteChunk ofs type data ++ rest)))
            header buffer
  = (true, stream_of rest,
     {| header_type := type; header_size := Z.of_nat (length data) |}, data).
Proof.
  intros Htype Hdata. rewrite WriteChunk_app, <- app_assoc.
  rewrite drop_app_length. by apply ReadChunk_chunk_bytes.
Qed.

(** ** The exit codes of the converter *)

Section ExitCodes.
Context `{FloatOps} `{!DirectXMath} `{Platform}.

(** X18.  Whenever [wmain] returns, its exit code is 0, 1 or -1, and
    it has written the output file exactly when the code is 0: no
    file is left behind by a failed conversion, and none is missing
    after a successful one.  The code is -1 exactly when the OBJ file
    was parsed to its end but names no material file, or one that
    does not exist; every other failure gives 1. *)
Theorem wmain_exit_codes (input output : string) (code : Z)
    (file : option (list byte)) :
  wmain input output = Ok (code, file) ->
  (code = 0%Z \/ code = 1%Z \/ code = (-1)%Z)
  /\ (code = 0%Z <-> is_Some file)
  /\ (code = (-1)%Z <->
      exists parsed,
        AnalyzeObj (open_text input) input Object_empty = Ok (0%Z, parsed)
        /\ GetMaterialPath input (mtllib (object parsed)) = None).
Proof.
  unfold wmain.
  destruct (AnalyzeObj (open_text input) input Object_empty)
    as [[code0 parsed]|] eqn:Hobj; [|done]. simpl.
  destruct (Z.eqb_spec code0 0) as [->|Hcode0]; simpl.
  2:{ intros [= <- <-]. split; [tauto|]. split.
      - split; [done | by intros [? ?]].
      - split; [done|]. intros (p & [= ? _] & _). done. }
  destruct (GetMaterialPath input (mtllib (object parsed))) as [mtl|] eqn:Hpath.
  2:{ intros [= <- <-]. split; [tauto|]. split.
      - split; [done | by intros [? ?]].
      - split; [|done]. intros _. by exists parsed. }
  assert (Hnot : forall c : Z, c <> (-1)%Z ->
            (c = (-1)%Z <->
             exists parsed0 : ObjParser,
               Ok (0%Z, parsed) = Ok (0%Z, parsed0)
               /\ GetMaterialPath input (mtllib (object parsed0)) = None)).
  { intros c Hc. split; [done|]. intros (p & [= <-] & Hp). congruence. }
  destruct (AnalyzeMtl (open_text mtl) mtl [] ∅ [])
    as [[code1 mats]|] eqn:Hmtl; [|done]. simpl.
  destruct (Z.eqb_spec code1 0) as [->|Hcode1]; simpl.
  2:{ intros [= <- <-]. split; [tauto|]. split; [|by apply Hnot].
      split; [done | by intros [? ?]]. }
  destruct (CreateBufferData _ _ _ _ _)
    as [[[meshInfo vertexBuffer] indexBuffer]|]; [|done]. simpl.
  destruct (GenerateTangents vertexBuffer indexBuffer) as [tangents|];
    [|done]. simpl.
  unfold OutputImdl. destruct (open_output output); simpl.
  - intros [= <- <-]. split; [tauto|]. split; [|by apply Hnot].
    split; [by eexists | done].
  - intros [= <- <-]. split; [tauto|]. split; [|by apply Hnot].
    split; [done | by intros [? ?]].
Qed.
End ExitCodes.

(** ** The file name of a texture line *)

Lemma length_append (a b : string) :
  String.length (a +:+ b) = String.length a + String.length b.
Proof. induction a as [|c a IH]; simpl; [done | by rewrite IH]. Qed.

Lemma skip_ws_lead lead s :
  all_space lead = true -> skip_ws (lead +:+ s) = skip_ws s.
Proof.
  induction lead as [|c lead IH]; simpl; [done|].
  intros [Hc Hlead]%andb_prop. rewrite Hc. by apply IH.
Qed.

Lemma span_word_app w t :
  no_space w = true -> blank_led t -> span_word (w +:+ t) = (w, t).
Proof.
  intros Hw Ht. induction w as [|c w IH]; simpl.
  - destruct t as [|c t]; simpl in *; [done | by rewrite Ht].
  - simpl in Hw. apply andb_prop in Hw as [Hc Hw].
    apply negb_true_iff in Hc. rewrite Hc, IH by done. done.
Qed.

Lemma extract_word_app lead w t :
  all_space lead = true -> is_word w -> blank_led t ->
  extract_word (lead +:+ (w +:+ t)) = Some (w, t).
Proof.
  intros Hlead [Hne Hw] Ht. unfold extract_word.
  rewrite skip_ws_lead by done.
  destruct w as [|c w]; [done|]. simpl in Hw.
  apply andb_prop in Hw as [Hc Hw]. apply negb_true_iff in Hc.
  simpl. rewrite !Hc.
  change (w +:+ t) with (w +:+ t).
  by rewrite (span_word_app w t Hw Ht).
Qed.

Lemma extract_word_blank lead :
  all_space lead = true -> extract_word lead = None.
Proof.
  intros Hlead. unfold extract_word.
  replace (skip_ws lead) with EmptyString; [done|].
  induction lead as [|c lead IH]; simpl in *; [done|].
  apply andb_prop in Hlead as [-> Hlead]. by apply IH.
Qed.

Lemma append_nil_r (s : string) : s +:+ EmptyString = s.
Proof.
  induction s as [|c s IH]; [done|].
  change (String c s +:+ EmptyString) with (String c (s +:+ EmptyString)).
  by rewrite IH.
Qed.

Lemma span_delim_no_newline s :
  no_newline s = true -> span_delim newline s = (s, EmptyString).
Proof.
  induction s as [|c s IH]; simpl; [done|].
  intros [Hc Hs]%andb_prop. apply negb_true_iff in Hc.
  by rewrite Hc, IH.
Qed.

Lemma no_space_no_newline w : no_space w = true -> no_newline w = true.
Proof.
  induction w as [|c w IH]; simpl; [done|].
  intros [Hc Hw]%andb_prop. rewrite IH by done.
  destruct (Ascii.eqb_spec c newline) as [->|]; [done | done].
Qed.

Lemma no_newline_app a b :
  no_newline a = true -> no_newline b = true -> no_newline (a +:+ b) = true.
Proof.
  intros Ha Hb. induction a as [|c a IH]; simpl in *; [done|].
  apply andb_prop in Ha as [-> Ha]. by apply IH.
Qed.

(** An option: a flag that starts with a dash, and its value. *)
Lemma with_options_shape opts first tail :
  Forall (fun o => is_word o.1 /\ starts_with_dash o.1 = true
                   /\ is_word o.2) opts ->
  is_word first -> no_newline tail = true ->
  no_newline (with_options opts (first +:+ tail)) = true
  /\ length opts < String.length (with_options opts (first +:+ tail))
  /\ exists c r, with_options opts (first +:+ tail) = String c r
                 /\ isspace c = false.
Proof.
  intros Hopts [Hne Hfirst] Htail.
  induction Hopts as [|[flag value] opts ([Hf0 Hf] & _ & [_ Hv]) _ IH].
  - simpl. split; [|split].
    + apply no_newline_app; [by apply no_space_no_newline | done].
    + rewrite length_append. destruct first; [done | simpl; lia].
    + destruct first as [|c first]; [done|]. simpl in Hfirst.
      apply andb_prop in Hfirst as [Hc _]. apply negb_true_iff in Hc.
      by exists c, (first +:+ tail).
  - destruct IH as (Hnl & Hlen & _). cbn [with_options foldr fst snd].
    fold (with_options opts (first +:+ tail)). split; [|split].
    + apply no_newline_app; [by apply no_space_no_newline|].
      cbn [no_newline]. apply andb_true_intro. split; [done|].
      apply no_newline_app; [by apply no_space_no_newline|].
      cbn [no_newline]. by apply andb_true_intro.
    + rewrite length_append. cbn [String.length]. rewrite length_append.
      cbn [String.length length]. lia.
    + destruct flag as [|c flag]; [done|]. simpl in Hf.
      apply andb_prop in Hf as [Hc _]. apply negb_true_iff in Hc.
      by eexists c, _.
Qed.

Lemma skip_options_run opts first tail :
  Forall (fun o => is_word o.1 /\ starts_with_dash o.1 = true
                   /\ is_word o.2) opts ->
  is_word first -> starts_with_dash first = false ->
  blank_led tail -> no_newline tail = true ->
  forall fuel lead, length opts < fuel -> all_space lead = true ->
  skip_options fuel (lead +:+ with_options opts (first +:+ tail))
  = first +:+ tail.
Proof.
  intros Hopts Hfirst Hdash Hled Htail.
  induction Hopts as [|[flag value] opts (Hflag & Hfd & Hvalue) _ IH];
    intros fuel lead Hfuel Hlead; simpl in *.
  - destruct fuel as [|fuel]; [simpl in Hfuel; lia|].
    cbn [with_options foldr skip_options].
    rewrite extract_word_app by done. rewrite Hdash.
    by rewrite span_delim_no_newline.
  - destruct fuel as [|fuel]; [simpl in Hfuel; lia|].
    cbn [with_options foldr skip_options fst snd].
    fold (with_options opts (first +:+ tail)).
    rewrite extract_word_app by done. rewrite Hfd.
    change (String " " (value +:+ ?t)) with (" " +:+ (value +:+ t)).
    rewrite extract_word_app by done.
    change (String " " ?t) with (" " +:+ t).
    apply IH; [simpl in Hfuel; lia | done].
Qed.

(** X19.  The file name of a "map_Kd" or "map_Bump" line.  Options in
    front of it, each a flag that starts with a dash and one value,
    are dropped, and what is left is returned from the first word that
    does not start with a dash up to the end of the line, blanks
    inside and behind it included, so that a file name with blanks is
    kept whole.  A word that starts with a dash is always taken for a
    flag, also when it is meant as the file name: on a line that ends
    with a flag, or with a flag and its value, no file name is found
    and the result is empty. *)
Theorem ExtractTextureFilename_options (lead : string)
    (opts : list (string * string)) (first tail : string) :
  all_space lead = true ->
  Forall (fun o => is_word o.1 /\ starts_with_dash o.1 = true
                   /\ is_word o.2) opts ->
  (is_word first -> starts_with_dash first = false ->
   blank_led tail -> no_newline tail = true ->
   ExtractTextureFilename (lead +:+ with_options opts (first +:+ tail))
   = first +:+ tail)
  /\ (forall flag, is_word flag -> starts_with_dash flag = true ->
        ExtractTextureFilename (lead +:+ flag) = EmptyString
        /\ forall value, is_word value ->
             ExtractTextureFilename (lead +:+ (flag +:+ String " " value))
             = EmptyString).
Proof.
  intros Hlead Hopts. split.
  - intros Hfirst Hdash Hled Htail. unfold ExtractTextureFilename.
    destruct (with_options_shape opts first tail Hopts Hfirst Htail)
      as (Hnl & Hlen & c & r & Hshape & Hc).
    rewrite skip_ws_lead by done.
    replace (skip_ws (with_options opts (first +:+ tail)))
      with (with_options opts (first +:+ tail))
      by (rewrite Hshape; simpl; by rewrite Hc).
    rewrite span_delim_no_newline by done. cbn [fst].
    pose proof (skip_options_run opts first tail Hopts Hfirst Hdash Hled
                  Htail _ EmptyString Hlen eq_refl) as Hrun.
    change (EmptyString +:+ ?x) with x in Hrun. rewrite Hrun.
    destruct Hfirst as [Hne Hw]. destruct first as [|a first]; [done|].
    simpl in Hw. apply andb_prop in Hw as [Ha _].
    apply negb_true_iff in Ha. simpl.
    destruct (Ascii.eqb_spec a " ") as [->|]; [done|].
    destruct (Ascii.eqb_spec a tab) as [->|]; [by vm_compute in Ha | done].
  - intros flag Hflag Hfd.
    assert (Hhead : forall t, no_newline t = true -> blank_led t ->
              exists fuel,
                ExtractTextureFilename (lead +:+ (flag +:+ t))
                = erase_leading_blanks
                    (skip_options (S fuel) (flag +:+ t))).
    { intros t Ht Hled. unfold ExtractTextureFilename.
      rewrite skip_ws_lead by done. destruct Hflag as [Hne Hw].
      destruct flag as [|a flag]; [done|]. simpl in Hw.
      apply andb_prop in Hw as [Ha Hw]. apply negb_true_iff in Ha.
      replace (skip_ws (String a flag +:+ t)) with (String a flag +:+ t)
        by (simpl; by rewrite Ha).
      rewrite span_delim_no_newline.
      - cbn [fst]. rewrite length_append. cbn [String.length]. eauto.
      - apply no_newline_app; [|done]. apply no_space_no_newline.
        simpl. by rewrite Ha, Hw. }
    split.
    + destruct (Hhead EmptyString eq_refl I) as [fuel Hrun].
      rewrite append_nil_r in Hrun. rewrite Hrun.
      pose proof (extract_word_app EmptyString flag EmptyString eq_refl
                    Hflag I) as Hword.
      change (EmptyString +:+ ?x) with x in Hword.
      rewrite append_nil_r in Hword.
      cbn [skip_options]. by rewrite Hword, Hfd.
    + intros value Hvalue.
      destruct (Hhead (String " " value)) as [fuel Hrun].
      { cbn [no_newline]. apply andb_true_intro. split; [done|].
        apply no_space_no_newline, Hvalue. }
      { done. }
      rewrite Hrun.
      pose proof (extract_word_app EmptyString flag (String " " value)
                    eq_refl Hflag eq_refl) as Hword.
      change (EmptyString +:+ ?x) with x in Hword.
      pose proof (extract_word_app " " value EmptyString eq_refl Hvalue I)
        as Hword'.
      change (" " +:+ ?x) with (String " " x) in Hword'.
      rewrite append_nil_r in Hword'.
      cbn [skip_options]. rewrite Hword, Hfd, Hword'.
      by destruct fuel.
Qed.

(** ** The container of a successful conversion *)

Section TextureGrowth.
Context `{FloatOps} `{Platform}.

Lemma RegisterTexture_grows path type textures textureIndexMap :
  textures `prefix_of`
    (RegisterTexture path type textures textureIndexMap).1.2.
Proof.
  unfold RegisterTexture. destruct (textureIndexMap !! _); [done|].
  destruct (LoadFromWICFile path); [|done].
  destruct (ConvertToDDSMemory _ _); [|done]. simpl. by apply prefix_app_r.
Qed.

Lemma AnalyzeMtl_line_grows path (st st' : MtlParser) line code :
  (AnalyzeMtl_line path st line = Ok (Continue st')
   \/ AnalyzeMtl_line path st line = Ok (Return code st')) ->
  textures st `prefix_of` textures st'.
Proof.
  assert (Hmap : forall type assign iss,
            (map_texture path type assign st iss = Ok (Continue st')
             \/ map_texture path type assign st iss = Ok (Return code st')) ->
            textures st `prefix_of` textures st').
  { intros type assign iss. unfold map_texture.
    destruct (materials st);
      [intros [?|?]; simplify_eq; reflexivity|].
    destruct (ExtractTextureFilename iss);
      [intros [?|?]; simplify_eq; reflexivity|].
    assert (Hreg : forall q,
      (let '(index, textures', textureIndexMap') :=
         RegisterTexture q type (textures st) (textureIndexMap st) in
       st1 ← update_back
               {| materials := m :: l;
                  materialIndexMap := materialIndexMap st;
                  textures := textures';
                  textureIndexMap := textureIndexMap';
                  m_index := m_index st;
                  wcerr := wcerr st |}
               (fun m => assign m index);
       Ok (Continue st1)) = Ok (Continue st')
      \/ (let '(index, textures', textureIndexMap') :=
            RegisterTexture q type (textures st) (textureIndexMap st) in
          st1 ← update_back
                  {| materials := m :: l;
                     materialIndexMap := materialIndexMap st;
                     textures := textures';
                     textureIndexMap := textureIndexMap';
                     m_index := m_index st;
                     wcerr := wcerr st |}
                  (fun m => assign m index);
          Ok (Continue st1)) = Ok (Return code st') ->
      textures st `prefix_of` textures st').
    { intros q.
      pose proof (RegisterTexture_grows q type (textures st)
                    (textureIndexMap st)) as Hgrow.
      destruct (RegisterTexture _ _ _ _) as [[index ts] tm]. simpl in Hgrow.
      unfold update_back. simpl.
      destruct (last (m :: l)); simpl; intros [?|?]; simplify_eq;
        first [done | reflexivity]. }
    destruct (fs_exists _); [apply Hreg|].
    destruct (fs_exists _); [apply Hreg|].
    intros [?|?]; simplify_eq; first [done | reflexivity]. }
  unfold AnalyzeMtl_line.
  destruct (skipped line); [intros [?|?]; simplify_eq; reflexivity|].
  destruct (extract_word line) as [[w rest]|];
    [|simpl; intros [?|?]; simplify_eq; reflexivity].
  by_directive w; try apply Hmap.
  all: try (intros [?|?]; simplify_eq; first [done | reflexivity]).
  all: unfold update_back; destruct (last (materials st)); simpl;
    intros [?|?]; simplify_eq; first [done | reflexivity].
Qed.

Lemma AnalyzeMtl_loop_grows path lines (st st' : MtlParser) code :
  AnalyzeMtl_loop path lines st = Ok (code, st') ->
  textures st `prefix_of` textures st'.
Proof.
  revert st. induction lines as [|line lines IH]; intros st Hrun;
    simpl in Hrun.
  - by simplify_eq.
  - destruct (AnalyzeMtl_line path st line) as [[st1|code1 st1]|] eqn:Hline;
      simpl in Hrun; [| |done].
    + etrans; [|by eapply IH].
      eapply (AnalyzeMtl_line_grows _ _ _ _ 0%Z); eauto.
    + simplify_eq. eapply AnalyzeMtl_line_grows; eauto.
Qed.

(** The texture tables stay consistent as long as the table that
    results has fewer than 2^31 entries. *)
Lemma AnalyzeMtl_loop_consistent path lines (st st' : MtlParser) code :
  textures_consistent st ->
  AnalyzeMtl_loop path lines st = Ok (code, st') ->
  (Z.of_nat (length (textures st')) < 2 ^ 31)%Z ->
  textures_consistent st'.
Proof.
  revert st. induction lines as [|line lines IH]; intros st Hst Hrun Hlen;
    simpl in Hrun.
  - by simplify_eq.
  - destruct (AnalyzeMtl_line path st line) as [[st1|code1 st1]|] eqn:Hline;
      simpl in Hrun; [| |done].
    + eapply IH; [|done..].
      apply AnalyzeMtl_loop_grows, prefix_length in Hrun.
      assert (Hpre : textures st `prefix_of` textures st1)
        by (eapply (AnalyzeMtl_line_grows _ _ _ _ 0%Z); eauto).
      apply prefix_length in Hpre.
      eapply (AnalyzeMtl_line_slots path st st1 line 0%Z); [done|lia|eauto].
    + simplify_eq.
      assert (Hpre : textures st `prefix_of` textures st')
        by (eapply AnalyzeMtl_line_grows; eauto).
      apply prefix_length in Hpre.
      eapply (AnalyzeMtl_line_slots path st st' line code); [done|lia|eauto].
Qed.
End TextureGrowth.

Section Conversion.
Context `{FloatOps} `{!DirectXMath} `{Platform}.

Lemma corners_in_threes (object : Object) :
  exists n, length (corners_of object) = 3 * n.
Proof.
  assert (Hsub : forall subMesh,
            length (subMesh_corners subMesh) = 3 * length (faces subMesh)).
  { intros subMesh. unfold subMesh_corners.
    induction (faces subMesh) as [|[[[a b] c]] fs IH]; [done|].
    rewrite fmap_cons, mjoin_cons, length_app, IH. simpl. lia. }
  assert (Hmesh : forall mesh, exists n, length (mesh_corners mesh) = 3 * n).
  { intros mesh. unfold mesh_corners.
    induction (subMeshs mesh) as [|s ss [n IH]]; [by exists 0|].
    exists (length (faces s) + n).
    rewrite fmap_cons, mjoin_cons, length_app, IH, Hsub. lia. }
  unfold corners_of.
  induction (meshes object) as [|m ms [n IH]]; [by exists 0|].
  destruct (Hmesh m) as [k Hk]. exists (k + n).
  rewrite fmap_cons, mjoin_cons, length_app, IH, Hk. lia.
Qed.

(** X20.  The tables in the container of a successful conversion fit
    together.  When [wmain] returns 0 the file is what [OutputImdl]
    writes for tables in which every mesh record designates a range
    of the index buffer and an existing material, the index buffer
    holds whole triangles, every index designates an existing vertex
    (for at most 2^32 vertices), and every texture slot of a material
    is either -1 or the position of a texture of its type (for fewer
    than 2^31 textures). *)
Theorem wmain_container_consistent (input output : string)
    (file : list byte) :
  wmain input output = Ok (0%Z, Some file) ->
  exists (materials : list MaterialInfo) (meshInfo : list MeshInfo)
         (textures : list TextureEntry) (vertexBuffer : list Vertex)
         (indexBuffer : list Z),
    OutputImdl true materials meshInfo textures vertexBuffer indexBuffer
      = (0%Z, Some file)
    /\ tables_consistent materials meshInfo textures vertexBuffer
         indexBuffer.
Proof.
  unfold wmain.
  destruct (AnalyzeObj (open_text input) input Object_empty)
    as [[code0 parsed]|]; [|done]. simpl.
  destruct (Z.eqb_spec code0 0) as [->|]; [|done]. simpl.
  destruct (GetMaterialPath input (mtllib (object parsed))) as [mtl|]; [|done].
  destruct (AnalyzeMtl (open_text mtl) mtl [] ∅ [])
    as [[code1 mats]|] eqn:Hmtl; [|done]. simpl.
  destruct (Z.eqb_spec code1 0) as [->|]; [|done]. simpl.
  destruct (CreateBufferData _ _ _ _ _)
    as [[[meshInfo vertexBuffer] indexBuffer]|] eqn:Hbuf; [|done]. simpl.
  destruct (GenerateTangents vertexBuffer indexBuffer) as [tangents|] eqn:Htan;
    [|done]. simpl.
  destruct (OutputImdl (open_output output) _ _ _ _ _) as [code2 out] eqn:Hout.
  destruct (Z.eqb_spec code2 0) as [->|]; [|done]. simpl.
  intros [= ->].
  assert (open_output output = true) as Hopen.
  { unfold OutputImdl in Hout. by destruct (open_output output). }
  rewrite Hopen in Hout.
  exists (materials mats), meshInfo, (textures mats), (vertices tangents),
    indexBuffer.
  split; [done|].
  unfold CreateBufferData in Hbuf.
  destruct (CreateBufferData_run _ _ _ _ _) as [st|] eqn:Hrun; [|done].
  injection Hbuf as <- <- <-.
  apply GenerateTangents_Ok in Htan as (_ & _ & _ & Hlen & _).
  pose proof (CreateBufferData_run_recorded _ _ _ Hrun) as [Hrec Hin].
  pose proof (CreateBufferData_run_consolidated _ _ _ _ Hrun)
    as (Hkeys & _ & _ & Hidx).
  unfold tables_consistent. split; [|split; [|split]].
  - apply Forall_forall. intros r Hr.
    rewrite Forall_forall in Hin. destruct (Hin r Hr) as (Hs & _ & He).
    split; [done|]. split; [done|].
    apply list_elem_of_lookup in Hr as [i Hi].
    destruct (Forall2_lookup_r _ _ _ _ _ Hrec Hi) as (s & _ & Hs' & _).
    by eapply AnalyzeMtl_in_table.
  - destruct (corners_in_threes (set_mtllib (object parsed) mtl)) as [n Hn].
    exists n. apply Forall2_length in Hidx. by rewrite <- Hidx.
  - intros Hfit. rewrite Hlen.
    apply Forall_forall. intros i Hi.
    apply list_elem_of_lookup in Hi as [k Hk].
    destruct (Forall2_lookup_r _ _ _ _ _ Hidx Hk) as (c & _ & j & Hj & ->).
    apply lookup_lt_Some in Hj. rewrite <- Hkeys in Hj.
    rewrite to_uint32_small; [lia|]. unfold is_uint32. lia.
  - intros Hfit. unfold AnalyzeMtl in Hmtl.
    destruct (open_text mtl) as [lines|]; [|by simplify_eq].
    apply AnalyzeMtl_loop_consistent in Hmtl as [_ Hmats]; [done| |done].
    split; [|constructor]. intros p t i. simpl. by rewrite lookup_empty.
Qed.
End Conversion.

(** ** How the mesh records divide the index buffer *)

Lemma face_count_app subs subs' :
  face_count (subs ++ subs') = face_count subs + face_count subs'.
Proof.
  unfold face_count. induction subs as [|s subs IH]; simpl; [done|].
  rewrite IH. lia.
Qed.

Section MeshRanges.
Context `{FloatOps} `{!DirectXMath}.

Lemma add_subMesh_tiled (object : Object) materialIndexMap subs st
    subMesh st' :
  tiled subs st ->
  add_subMesh object materialIndexMap st subMesh = Ok st' ->
  tiled (subs ++ [subMesh]) st'.
Proof.
  unfold tiled, add_subMesh. intros [Hlen Hrec].
  destruct (materialIndexMap !! material subMesh) as [index|]; [|done].
  intros [Hinfo Hlen']%add_faces_frame. simpl in Hinfo, Hlen'.
  rewrite face_count_app. unfold face_count at 2 4. simpl.
  split; [lia|]. intros Hfit.
  destruct Hrec as [Hn Hrec]; [lia|].
  rewrite Hinfo, !length_app, Hn. split; [done|].
  intros i r Hi.
  destruct (decide (i < length subs)) as [Hlt|Hge].
  - rewrite lookup_app_l in Hi by lia.
    destruct (Hrec i r Hi) as (s & Hs & Hstart & Hcount).
    exists s. split; [by apply lookup_app_l_Some|].
    rewrite take_app_le by lia. done.
  - apply lookup_lt_Some in Hi as Hi'. rewrite length_app in Hi'.
    simpl in Hi'. assert (i = length subs) as -> by lia.
    rewrite lookup_app_r in Hi by lia. rewrite Hn, Nat.sub_diag in Hi.
    injection Hi as <-. exists subMesh. simpl.
    split; [rewrite lookup_app_r by lia; by rewrite Nat.sub_diag|].
    rewrite take_app_length. split.
    + rewrite Hlen, to_uint32_small; [done|]. unfold is_uint32. lia.
    + rewrite to_uint32_small; [done|]. unfold is_uint32. lia.
Qed.

Lemma CreateBufferData_run_tiled (object : Object) materialIndexMap st :
  CreateBufferData_run object materialIndexMap [] [] [] = Ok st ->
  tiled (subMeshes_of object) st.
Proof.
  unfold CreateBufferData_run. intros Hrun.
  apply (for_each_ghost tiled (add_mesh object materialIndexMap) subMeshs)
    with (g := []) in Hrun; [done| |].
  - intros subs s mesh s'.
    apply (for_each_ghost_each tiled (add_subMesh object materialIndexMap)).
    apply add_subMesh_tiled.
  - split; [done|]. intros _. split; [done|]. by intros i r Hi.
Qed.

(** X21.  The mesh records [CreateBufferData] writes, called on empty
    buffers, divide the index buffer into consecutive ranges, for a
    scene of fewer than 2^32 / 3 triangles: record [i] starts at
    three times the number of triangles of the submeshes before
    submesh [i] and counts the triangles of submesh [i], so that the
    ranges follow one another without gap or overlap, a submesh
    without faces gets a record of zero primitives, and the index
    buffer ends where the last range ends. *)
Theorem mesh_records_tile (object : Object)
    (materialIndexMap : gmap string Z) (meshInfo : list MeshInfo)
    (vertexBuffer : list Vertex) (indexBuffer : list Z) :
  CreateBufferData object materialIndexMap [] [] []
    = Ok (meshInfo, vertexBuffer, indexBuffer) ->
  (Z.of_nat (3 * face_count (subMeshes_of object)) < 2 ^ 32)%Z ->
  length indexBuffer = 3 * face_count (subMeshes_of object)
  /\ length meshInfo = length (subMeshes_of object)
  /\ forall i r, meshInfo !! i = Some r ->
       exists s, subMeshes_of object !! i = Some s
         /\ startIndex r
            = Z.of_nat (3 * face_count (take i (subMeshes_of object)))
         /\ primCount r = Z.of_nat (length (faces s)).
Proof.
  unfold CreateBufferData. intros Hbuf Hfit.
  destruct (CreateBufferData_run _ _ _ _ _) as [st|] eqn:Hrun; [|done].
  injection Hbuf as <- <- <-.
  apply CreateBufferData_run_tiled in Hrun as [Hlen Hrec].
  split; [done|]. by apply Hrec.
Qed.
End MeshRanges.

(** ** The submeshes of a parsed scene *)

Section SubMeshes.
Context `{FloatOps}.

(** The material names of the submeshes, mesh by mesh. *)
Lemma materials_by_mesh (ms : list Mesh) :
  material <$> mjoin (subMeshs <$> ms)
  = mjoin ((fun m => material <$> subMeshs m) <$> ms).
Proof.
  induction ms as [|m ms IH]; [done|].
  rewrite !fmap_cons, !mjoin_cons, fmap_app, IH. done.
Qed.

Lemma push_face_materials (p : face_target) face (o o' : Object) :
  push_face p face o = Ok o' ->
  material <$> subMeshes_of o' = material <$> subMeshes_of o.
Proof.
  unfold push_face, at_index, subMeshes_of.
  destruct (meshes o !! p.1) as [mesh|] eqn:Hmesh; [|done]. simpl.
  destruct (subMeshs mesh !! p.2) as [sub|] eqn:Hsub; [|done]. simpl.
  intros [= <-]. simpl. rewrite !materials_by_mesh. f_equal.
  rewrite list_fmap_insert. simpl. rewrite list_fmap_insert. simpl.
  rewrite (list_insert_id (material <$> subMeshs mesh));
    [|by rewrite list_lookup_fmap, Hsub].
  apply list_insert_id. by rewrite list_lookup_fmap, Hmesh.
Qed.

Lemma push_fan_materials (p : face_target) result (o o' : Object) :
  push_fan p result o = Ok o' ->
  material <$> subMeshes_of o' = material <$> subMeshes_of o.
Proof.
  unfold push_fan. destruct (length result <? 2); [done|].
  apply (for_each_invariant
           (fun o1 => material <$> subMeshes_of o1
                      = material <$> subMeshes_of o)); [|done].
  intros o1 i o2 Ho1 Hstep. unfold fan_step in Hstep.
  destruct (at_index result 0); [|done]. simpl in Hstep.
  destruct (at_index result (i + 1)); [|done]. simpl in Hstep.
  destruct (at_index result (i + 2)); [|done]. simpl in Hstep.
  apply push_face_materials in Hstep. congruence.
Qed.

Lemma select_material_materials (st st' : ObjParser) iss :
  select_material st iss = Ok st' ->
  material <$> subMeshes_of (object st')
  = (material <$> subMeshes_of (object st))
    ++ [match extract_word iss with
        | Some (name, _) => name
        | None => EmptyString
        end].
Proof.
  unfold select_material, subMeshes_of.
  destruct (last (meshes (object st))) as [mesh|] eqn:Hlast; [|done].
  intros [= <-]. simpl.
  destruct (meshes (object st)) as [|m0 ms0] using rev_ind; [done|].
  clear IHms0. rewrite last_snoc in Hlast. injection Hlast as ->.
  rewrite length_app. simpl.
  replace (length ms0 + 1 - 1) with (length ms0 + 0) by lia.
  rewrite insert_app_r. simpl.
  rewrite !fmap_app, !join_app. simpl. rewrite !app_nil_r.
  by rewrite !fmap_app, app_assoc.
Qed.

Lemma AnalyzeObj_line_materials (st st' : ObjParser) line :
  AnalyzeObj_line st line = Ok (Continue st') ->
  material <$> subMeshes_of (object st')
  = (material <$> subMeshes_of (object st))
    ++ (if decide (directive line = "usemtl") then [first_operand line]
        else []).
Proof.
  unfold directive, first_operand, operands, AnalyzeObj_line.
  destruct (skipped line); [intros [= <-]; by rewrite app_nil_r|].
  destruct (extract_word line) as [[w rest]|];
    [|intros [= <-]; by rewrite app_nil_r].
  intros Hline. by_directive w.
  all: try (rewrite decide_False by done).
  all: try (injection Hline as <-; by rewrite app_nil_r).
  - (* f *)
    destruct (pFace st) as [p|]; [|done].
    destruct (ParseFaceLine _ _) as [result|]; [|done]. simpl in Hline.
    destruct (push_fan p result (object st)) as [o|] eqn:Hfan; [|done].
    injection Hline as <-. simpl. rewrite app_nil_r.
    by apply push_fan_materials in Hfan.
  - (* usemtl *)
    destruct (select_material st rest) as [st1|] eqn:Hsel; [|done].
    injection Hline as <-. by apply select_material_materials.
  - (* o *)
    injection Hline as <-. simpl. unfold subMeshes_of. simpl.
    by rewrite fmap_app, join_app, fmap_app, !app_nil_r.
Qed.

Lemma AnalyzeObj_loop_materials (lines : list string) (st st' : ObjParser) :
  AnalyzeObj_loop lines st = Ok (0%Z, st') ->
  material <$> subMeshes_of (object st')
  = (material <$> subMeshes_of (object st)) ++ selected_materials lines.
Proof.
  revert st. induction lines as [|line lines IH]; intros st Hrun;
    simpl in Hrun.
  - simplify_eq. unfold selected_materials. simpl. by rewrite app_nil_r.
  - destruct (AnalyzeObj_line st line) as [[st1|code1 st1]|] eqn:Hline;
      simpl in Hrun; [| |done].
    + rewrite (IH _ Hrun), (AnalyzeObj_line_materials _ _ _ Hline).
      unfold selected_materials. rewrite filter_cons.
      destruct (decide (directive line = "usemtl")).
      * by rewrite fmap_cons, <- app_assoc.
      * by rewrite app_nil_r.
    + apply AnalyzeObj_line_Return in Hline as [-> _]. done.
Qed.

(** X22.  The submeshes of a scene that [AnalyzeObj] parsed to the end
    are its "usemtl" lines: one submesh per line, in file order, each
    with the material the line names (the empty name when it names
    none).  A material that is selected again, in the same object or
    in a later one, starts a new submesh; submeshes are never
    merged. *)
Theorem submesh_per_usemtl (lines : list string) (fname : string)
    (parsed : ObjParser) :
  AnalyzeObj (Some lines) fname Object_empty = Ok (0%Z, parsed) ->
  material <$> subMeshes_of (object parsed) = selected_materials lines.
Proof.
  unfold AnalyzeObj. intros Hrun.
  by apply AnalyzeObj_loop_materials in Hrun.
Qed.
End SubMeshes.

(** ** The further examples, evaluated *)

Section FurtherExamples.
Import Examples Cases.
#[local] Existing Instance Exact.ops.
#[local] Existing Instance Exact.math.
#[local] Existing Instance fan_platform.

Lemma fan_parsed :
  AnalyzeObj_loop fan_obj (AnalyzeObj_start Object_empty)
    = Ok (0%Z, fan_parser).
Proof. apply returned_pair; vm_compute; reflexivity. Defined.

Lemma AnalyzeObj_arrays_grow_witness :
  AnalyzeObj_loop fan_obj (AnalyzeObj_start Object_empty)
    = Ok (0%Z, fan_parser)
  /\ count_directive "v" fan_obj = 5
  /\ length (positions (object fan_parser))
     = length (positions (object (AnalyzeObj_start Object_empty)))
       + count_directive "v" fan_obj.
Proof.
  split; [exact fan_parsed|]. split; [vm_compute; reflexivity|].
  destruct (AnalyzeObj_arrays_grow fan_obj _ _ _ fan_parsed)
    as (_ & _ & _ & Hcount).
  exact (proj1 (Hcount eq_refl)).
Defined.

Lemma groupless_parsed :
  AnalyzeObj_loop groupless_obj (AnalyzeObj_start Object_empty)
    = Ok (0%Z, groupless_parser).
Proof. apply returned_pair; vm_compute; reflexivity. Defined.

Lemma groupless_directives :
  Forall (fun l => directive l <> "o") groupless_obj.
Proof.
  repeat (constructor; [intros E; vm_compute in E; discriminate|]).
  constructor.
Defined.

Lemma usemtl_before_object_witness :
  meshes Object_empty = []
  /\ AnalyzeObj_loop groupless_obj (AnalyzeObj_start Object_empty)
     = Ok (0%Z, groupless_parser)
  /\ Forall (fun l => directive l <> "o") groupless_obj
  /\ directive "usemtl red" = "usemtl"
  /\ AnalyzeObj (Some (groupless_obj ++ "usemtl red" :: ["f 1 2 1"]))
       "groupless.obj" Object_empty = Fail undefined_behaviour.
Proof.
  split; [reflexivity|]. split; [exact groupless_parsed|].
  split; [exact groupless_directives|]. split; [vm_compute; reflexivity|].
  apply (usemtl_before_object Object_empty "groupless.obj" groupless_obj
           ["f 1 2 1"] "usemtl red" groupless_parser eq_refl
           groupless_parsed groupless_directives).
  vm_compute; reflexivity.
Defined.

Lemma face_line_short_witness :
  directive "f 1 2" = "f"
  /\ pFace before_faces = Some (0, 0)
  /\ Forall2 (fun token corner =>
                parse_token (object before_faces) token = Ok corner)
             (face_tokens "f 1 2")
             [{| v := 0; vt := -1; vn := -1 |};
              {| v := 1; vt := -1; vn := -1 |}]
  /\ length (face_tokens "f 1 2") = 2
  /\ AnalyzeObj_line before_faces "f 1 2" = Ok (Continue before_faces).
Proof.
  assert (Hdir : directive "f 1 2" = "f") by (vm_compute; reflexivity).
  assert (Hp : pFace before_faces = Some (0, 0)) by (vm_compute; reflexivity).
  assert (Htok : Forall2 (fun token corner =>
                parse_token (object before_faces) token = Ok corner)
             (face_tokens "f 1 2")
             [{| v := 0; vt := -1; vn := -1 |};
              {| v := 1; vt := -1; vn := -1 |}])
    by (repeat constructor; vm_compute; reflexivity).
  assert (Hlen : length (face_tokens "f 1 2") = 2)
    by (vm_compute; reflexivity).
  split; [exact Hdir|]. split; [exact Hp|]. split; [exact Htok|].
  split; [exact Hlen|].
  exact (proj1 (face_line_short before_faces "f 1 2" (0, 0) _ Hdir Hp Htok)
           Hlen).
Defined.

Lemma absent_component_witness :
  parse_token fan_object "5//1" = Ok {| v := 4; vt := -1; vn := 0 |}
  /\ literal TexCoord "5//1" = None
  /\ field TexCoord {| v := 4; vt := -1; vn := 0 |} = (-1)%Z.
Proof.
  assert (Hparse : parse_token fan_object "5//1"
                   = Ok {| v := 4; vt := -1; vn := 0 |})
    by (vm_compute; reflexivity).
  assert (Hlit : literal TexCoord "5//1" = None) by (vm_compute; reflexivity).
  split; [exact Hparse|]. split; [exact Hlit|].
  exact (absent_component fan_object "5//1" _ TexCoord Hparse Hlit).
Defined.

Lemma RegisterTexture_registers_once_witness :
  (∅ : gmap (string * TextureType) Z) !! ("wood.tga", BaseColor) = None
  /\ @LoadFromWICFile oak_platform "wood.tga" = Some "wood.tga"
  /\ @ConvertToDDSMemory oak_platform "wood.tga" BaseColor
     = Some [Byte.x44; Byte.x44; Byte.x53]
  /\ (Z.of_nat (length (@nil TextureEntry)) < 2 ^ 31)%Z
  /\ @RegisterTexture oak_platform "wood.tga" BaseColor [] ∅
     = (0%Z,
        [{| entry_type := BaseColor;
            entry_data := [Byte.x44; Byte.x44; Byte.x53] |}],
        {[("wood.tga", BaseColor) := 0%Z]}).
Proof.
  assert (Hload : @LoadFromWICFile oak_platform "wood.tga" = Some "wood.tga")
    by (vm_compute; reflexivity).
  assert (Hconv : @ConvertToDDSMemory oak_platform "wood.tga" BaseColor
                  = Some [Byte.x44; Byte.x44; Byte.x53])
    by (vm_compute; reflexivity).
  split; [apply lookup_empty|]. split; [exact Hload|].
  split; [exact Hconv|]. split; [reflexivity|].
  exact (proj1 (@RegisterTexture_registers_once oak_platform "wood.tga"
                  BaseColor [] ∅ "wood.tga" _ (lookup_empty _) Hload Hconv
                  eq_refl)).
Defined.

Lemma texture_file_not_found_witness :
  (directive "map_Kd wood.tga" = "map_Kd"
   \/ directive "map_Kd wood.tga" = "map_Bump")
  /\ materials red_declared <> []
  /\ ExtractTextureFilename (operands "map_Kd wood.tga") = "wood.tga"
  /\ @fs_exists lost_platform "wood.tga" = false
  /\ @AnalyzeMtl_loop Exact.ops lost_platform "fan.mtl"
       ["map_Kd wood.tga"; "Ks 0 0 0"] red_declared
     = Ok ((-1)%Z,
           {| materials := materials red_declared;
              materialIndexMap := materialIndexMap red_declared;
              textures := textures red_declared;
              textureIndexMap := textureIndexMap red_declared;
              m_index := m_index red_declared;
              wcerr := wcerr red_declared
                       ++ ["Texture not found: " +:+ "wood.tga"] |}).
Proof.
  assert (Hdir : directive "map_Kd wood.tga" = "map_Kd"
                 \/ directive "map_Kd wood.tga" = "map_Bump")
    by (left; vm_compute; reflexivity).
  assert (Hmats : materials red_declared <> []) by discriminate.
  assert (Hname : ExtractTextureFilename (operands "map_Kd wood.tga")
                  = "wood.tga") by (vm_compute; reflexivity).
  split; [exact Hdir|]. split; [exact Hmats|]. split; [exact Hname|].
  split; [vm_compute; reflexivity|].
  destruct (@texture_file_not_found Exact.ops lost_platform "fan.mtl"
              red_declared "map_Kd wood.tga" ["Ks 0 0 0"] Hdir Hmats)
    as [_ Hmissing].
  apply Hmissing.
  - rewrite Hname. discriminate.
  - rewrite Hname. vm_compute; reflexivity.
  - rewrite Hname. vm_compute; reflexivity.
Defined.

Lemma oak_materials_parsed :
  @AnalyzeMtl Exact.ops oak_platform (Some wood_mtl) "fan.mtl" [] ∅ []
  = Ok (0%Z, oak_materials).
Proof. apply returned_pair; vm_compute; reflexivity. Defined.

Lemma AnalyzeMtl_texture_slots_witness :
  @AnalyzeMtl Exact.ops oak_platform (Some wood_mtl) "fan.mtl" [] ∅ []
  = Ok (0%Z, oak_materials)
  /\ (Z.of_nat (length wood_mtl) < 2 ^ 31)%Z
  /\ baseColorTexIndex <$> materials oak_materials = [0%Z]
  /\ entry_type <$> textures oak_materials = [BaseColor]
  /\ Forall (fun m =>
               slot_in_table (textures oak_materials) BaseColor
                 (baseColorTexIndex m)
               /\ slot_in_table (textures oak_materials) Normal
                    (normalTexIndex m)
               /\ metalRoughTexIndex m = (-1)%Z
               /\ emissiveTexIndex m = (-1)%Z)
            (materials oak_materials).
Proof.
  split; [exact oak_materials_parsed|]. split; [reflexivity|].
  split; [vm_compute; reflexivity|]. split; [vm_compute; reflexivity|].
  exact (@AnalyzeMtl_texture_slots Exact.ops oak_platform wood_mtl "fan.mtl"
           0%Z oak_materials oak_materials_parsed eq_refl).
Defined.

Lemma twice_materials_parsed :
  AnalyzeMtl (Some twice_mtl) "twice.mtl" [] ∅ [] = Ok (0%Z, twice_materials).
Proof. apply returned_pair; vm_compute; reflexivity. Defined.

Lemma twice_declared : declared_materials twice_mtl = ["a"; "b"; "a"].
Proof. vm_compute. reflexivity. Defined.

Lemma last_declaration_wins_witness :
  AnalyzeMtl (Some twice_mtl) "twice.mtl" [] ∅ [] = Ok (0%Z, twice_materials)
  /\ (Z.of_nat (length (declared_materials twice_mtl)) < 2 ^ 32)%Z
  /\ declared_materials twice_mtl = ["a"; "b"; "a"]
  /\ length (materials twice_materials) = 3
  /\ materialIndexMap twice_materials !! "a" = Some 2%Z
  /\ materialIndexMap twice_materials !! "b" = Some 1%Z.
Proof.
  assert (Hbound : (Z.of_nat (length (declared_materials twice_mtl))
                    < 2 ^ 32)%Z) by (rewrite twice_declared; reflexivity).
  split; [exact twice_materials_parsed|]. split; [exact Hbound|].
  split; [exact twice_declared|].
  destruct (last_declaration_wins twice_mtl "twice.mtl" twice_materials
              twice_materials_parsed Hbound) as (Hlen & Hmap & _).
  rewrite twice_declared in Hlen, Hmap.
  split; [exact Hlen|]. split.
  - apply (Hmap "a" 2). split; [reflexivity|].
    intros k Hk. rewrite lookup_ge_None_2; [discriminate | simpl; lia].
  - apply (Hmap "b" 1). split; [reflexivity|].
    intros [|[|[|k]]] Hk; try lia; [discriminate|].
    rewrite lookup_ge_None_2; [discriminate | simpl; lia].
Defined.

Lemma BuildIndexChunk_decodes_witness :
  Forall is_uint32 [7; 8; 9]%Z
  /\ (Z.of_nat (length [7; 8; 9]%Z) < 2 ^ 32)%Z
  /\ le_value (take 4 (BuildIndexChunk [7; 8; 9]%Z)) = 3%Z
  /\ le_value (take 4 (drop (4 + 4 * 1) (BuildIndexChunk [7; 8; 9]%Z)))
     = 8%Z.
Proof.
  assert (Hall : Forall is_uint32 [7; 8; 9]%Z)
    by (repeat constructor; unfold is_uint32; lia).
  split; [exact Hall|]. split; [reflexivity|].
  destruct (BuildIndexChunk_decodes [7; 8; 9]%Z Hall eq_refl)
    as [Hcount Hword].
  split; [exact Hcount | exact (Hword 1 8%Z eq_refl)].
Defined.

Lemma BuildMeshChunk_decodes_witness :
  Forall (fun r => is_uint32 (startIndex r) /\ is_uint32 (primCount r)
                   /\ is_uint32 (materialIndex r))
         [{| startIndex := 0; primCount := 4; materialIndex := 2 |}]
  /\ (Z.of_nat (length
        [{| startIndex := 0; primCount := 4; materialIndex := 2 |}])
      < 2 ^ 32)%Z
  /\ le_value
       (take 4 (drop (4 + 12 * 0 + 4)
                  (BuildMeshChunk
                     [{| startIndex := 0; primCount := 4;
                         materialIndex := 2 |}]))) = 4%Z.
Proof.
  assert (Hall : Forall (fun r => is_uint32 (startIndex r)
                                  /\ is_uint32 (primCount r)
                                  /\ is_uint32 (materialIndex r))
         [{| startIndex := 0; primCount := 4; materialIndex := 2 |}])
    by (repeat constructor; unfold is_uint32; simpl; lia).
  split; [exact Hall|]. split; [reflexivity|].
  destruct (BuildMeshChunk_decodes _ Hall eq_refl) as [_ Hword].
  exact (proj1 (proj2 (Hword 0 _ eq_refl))).
Defined.

Lemma BuildMaterialChunk_slots_witness :
  [MaterialInfo_default] !! 0 = Some MaterialInfo_default
  /\ is_int (baseColorTexIndex MaterialInfo_default)
  /\ is_int (normalTexIndex MaterialInfo_default)
  /\ is_int (metalRoughTexIndex MaterialInfo_default)
  /\ is_int (emissiveTexIndex MaterialInfo_default)
  /\ le_value
       (take 4 (drop (4 + 52 * 0 + 36)
                  (BuildMaterialChunk [MaterialInfo_default])))
     = 4294967295%Z.
Proof.
  assert (Hint : is_int (-1)) by (unfold is_int; lia).
  split; [reflexivity|]. do 4 (split; [exact Hint|]).
  destruct (BuildMaterialChunk_slots [MaterialInfo_default] 0
              MaterialInfo_default eq_refl Hint Hint Hint Hint)
    as (_ & _ & _ & _ & Habsent).
  exact (Habsent eq_refl).
Defined.

Lemma ReadChunk_inverts_WriteChunk_witness :
  is_uint32 CHUNK_MESH
  /\ (Z.of_nat (length [Byte.x02; Byte.x03]) < 2 ^ 32)%Z
  /\ ReadChunk
       (stream_of
          (drop (length [Byte.x01])
             (WriteChunk [Byte.x01] CHUNK_MESH [Byte.x02; Byte.x03]
              ++ [Byte.x04])))
       {| header_type := 9; header_size := 9 |}
       [Byte.x09; Byte.x09; Byte.x09]
     = (true, stream_of [Byte.x04],
        {| header_type := CHUNK_MESH; header_size := 2 |},
        [Byte.x02; Byte.x03]).
Proof.
  assert (Htag : is_uint32 CHUNK_MESH)
    by exact (proj1 (proj2 (proj2 tags_are_uint32))).
  split; [exact Htag|]. split; [reflexivity|].
  exact (ReadChunk_inverts_WriteChunk [Byte.x01] [Byte.x04] CHUNK_MESH
           [Byte.x02; Byte.x03] {| header_type := 9; header_size := 9 |}
           [Byte.x09; Byte.x09; Byte.x09] Htag eq_refl).
Defined.

Lemma fan_converted :
  wmain "fan.obj" "fan.imdl" = Ok (0%Z, Some fan_file).
Proof. vm_compute. reflexivity. Defined.

Lemma wmain_exit_codes_witness :
  wmain "fan.obj" "fan.imdl" = Ok (0%Z, Some fan_file)
  /\ (0%Z = 0%Z <-> is_Some (Some fan_file)).
Proof.
  split; [exact fan_converted|].
  exact (proj1 (proj2 (wmain_exit_codes "fan.obj" "fan.imdl" 0%Z
                         (Some fan_file) fan_converted))).
Defined.

Lemma ExtractTextureFilename_options_witness :
  all_space " " = true
  /\ Forall (fun o => is_word o.1 /\ starts_with_dash o.1 = true
                      /\ is_word o.2) [("-bm", "0.5")]
  /\ is_word "rock" /\ starts_with_dash "rock" = false
  /\ blank_led " wall.png" /\ no_newline " wall.png" = true
  /\ ExtractTextureFilename " -bm 0.5 rock wall.png" = "rock wall.png".
Proof.
  assert (Hopts : Forall (fun o => is_word o.1 /\ starts_with_dash o.1 = true
                                   /\ is_word o.2) [("-bm", "0.5")]).
  { constructor; [|constructor].
    split; [split; [discriminate | reflexivity]|].
    split; [reflexivity|]. split; [discriminate | reflexivity]. }
  assert (Hword : is_word "rock") by (split; [discriminate | reflexivity]).
  split; [reflexivity|]. split; [exact Hopts|]. split; [exact Hword|].
  split; [reflexivity|]. split; [reflexivity|]. split; [reflexivity|].
  exact (proj1 (ExtractTextureFilename_options " " [("-bm", "0.5")] "rock"
                  " wall.png" eq_refl Hopts) Hword eq_refl eq_refl eq_refl).
Defined.

Lemma wmain_container_consistent_witness :
  wmain "fan.obj" "fan.imdl" = Ok (0%Z, Some fan_file)
  /\ exists (materials : list MaterialInfo) (meshInfo : list MeshInfo)
            (textures : list TextureEntry) (vertexBuffer : list Vertex)
            (indexBuffer : list Z),
       OutputImdl true materials meshInfo textures vertexBuffer indexBuffer
         = (0%Z, Some fan_file)
       /\ tables_consistent materials meshInfo textures vertexBuffer
            indexBuffer.
Proof.
  split; [exact fan_converted|].
  exact (wmain_container_consistent "fan.obj" "fan.imdl" fan_file
           fan_converted).
Defined.

Lemma mesh_records_tile_witness :
  CreateBufferData fan_object (materialIndexMap fan_materials) [] [] []
  = Ok (meshInfo fan_consolidator, vertexBuffer fan_consolidator,
        indexBuffer fan_consolidator)
  /\ (Z.of_nat (3 * face_count (subMeshes_of fan_object)) < 2 ^ 32)%Z
  /\ face_count (subMeshes_of fan_object) = 4
  /\ length (indexBuffer fan_consolidator)
     = 3 * face_count (subMeshes_of fan_object)
  /\ length (meshInfo fan_consolidator) = length (subMeshes_of fan_object).
Proof.
  assert (Hfit : (Z.of_nat (3 * face_count (subMeshes_of fan_object))
                  < 2 ^ 32)%Z) by (vm_compute; reflexivity).
  split; [exact fan_buffers|]. split; [exact Hfit|].
  split; [vm_compute; reflexivity|].
  destruct (mesh_records_tile fan_object (materialIndexMap fan_materials)
              _ _ _ fan_buffers Hfit) as (Hlen & Hn & _).
  split; [exact Hlen | exact Hn].
Defined.

Lemma submesh_per_usemtl_witness :
  AnalyzeObj (Some fan_obj) "fan.obj" Object_empty = Ok (0%Z, fan_parser)
  /\ selected_materials fan_obj = ["red"]
  /\ material <$> subMeshes_of (object fan_parser)
     = selected_materials fan_obj.
Proof.
  split; [exact fan_parsed|]. split; [vm_compute; reflexivity|].
  exact (submesh_per_usemtl fan_obj "fan.obj" fan_parser fan_parsed).
Defined.
End FurtherExamples.
